(** * Furu / Huldra: configuration, errors and dashboard scanner

    A shallow embedding of [src/furu/config.py], [src/furu/errors.py] and
    [src/huldra/dashboard/scanner.py], followed by the properties that the
    specification states about them and by further properties of the
    code.

    Conventions of the embedding.
    - A Python [str] is a [string]: a sequence of code points below 256.
    - A Python [float] is a primitive binary64 [float]; [float(s)] is the
      correctly rounded value of the decimal numeral.
    - A Python [int] is a [Z].
    - Code that can raise returns a [result]. *)

From Stdlib Require Import ZArith NArith List String Ascii Bool Lia.
From Stdlib Require Import Floats DecimalString Permutation Sorted.
From stdpp Require Import base option strings gmap sorting.

Local Open Scope string_scope.

(** ** Exceptions *)

(** The exception classes that the code and the library calls it makes
    can raise. *)
Inductive exn : Type :=
| ValueError
| KeyError
| RuntimeError
| OSError.

Inductive result (A : Type) : Type :=
| Ok (a : A)
| Raise (e : exn).

Arguments Ok {A} a.
Arguments Raise {A} e.

#[global] Instance result_ret : MRet result := fun A a => Ok a.
#[global] Instance result_bind : MBind result := fun A B f m =>
  match m with
  | Ok a => f a
  | Raise e => Raise e
  end.

Definition or_raise {A} (e : exn) (o : option A) : result A :=
  match o with
  | Some a => Ok a
  | None => Raise e
  end.

(** ** Python string builtins *)

Module PyStr.

Definition code (c : ascii) : N := N_of_ascii c.

Definition in_range (lo hi : N) (c : ascii) : bool :=
  ((lo <=? code c) && (code c <=? hi))%N.

Definition is_digit (c : ascii) : bool := in_range 48 57 c.

(** [str.isspace] on the first 256 code points: TAB..CR, FS..US, space,
    NEL and NBSP.  [str.strip()] and the regex class [\s] both use it. *)
Definition isspace (c : ascii) : bool :=
  in_range 9 13 c || in_range 28 32 c || (code c =? 133)%N || (code c =? 160)%N.

(** The white space that [float()] and [int()] skip around a numeral:
    the C-locale set, and NEL and NBSP, which CPython first turns into
    spaces. *)
Definition num_isspace (c : ascii) : bool :=
  in_range 9 13 c || (code c =? 32)%N || (code c =? 133)%N || (code c =? 160)%N.

Definition lower_char (c : ascii) : ascii :=
  if in_range 65 90 c || (in_range 192 222 c && negb (code c =? 215)%N)
  then ascii_of_N (code c + 32)
  else c.

Fixpoint lower (s : string) : string :=
  match s with
  | EmptyString => EmptyString
  | String c s' => String (lower_char c) (lower s')
  end.

Fixpoint lstrip_with (p : ascii -> bool) (s : string) : string :=
  match s with
  | EmptyString => EmptyString
  | String c s' => if p c then lstrip_with p s' else s
  end.

Fixpoint rstrip_with (p : ascii -> bool) (s : string) : string :=
  match s with
  | EmptyString => EmptyString
  | String c s' =>
      match rstrip_with p s' with
      | EmptyString => if p c then EmptyString else String c EmptyString
      | r => String c r
      end
  end.

Definition strip_with (p : ascii -> bool) (s : string) : string :=
  rstrip_with p (lstrip_with p s).

(** [s.strip()] *)
Definition strip (s : string) : string := strip_with isspace s.

(** [s.split(sep)] for a one-character separator. *)
Fixpoint split (sep : ascii) (s : string) : list string :=
  match s with
  | EmptyString => [EmptyString]
  | String c s' =>
      if Ascii.eqb c sep then EmptyString :: split sep s'
      else match split sep s' with
           | [] => [String c EmptyString]
           | w :: ws => String c w :: ws
           end
  end.

(** [sep.join(l)] *)
Definition join (sep : string) (l : list string) : string := String.concat sep l.

(** [s.startswith(p)] *)
Definition startswith (s p : string) : bool := String.prefix p s.

(** [x in {...}] for a set literal of strings. *)
Definition in_set (x : string) (l : list string) : bool :=
  existsb (String.eqb x) l.

(** [bool(s)]: the empty string is false. *)
Definition truthy (s : string) : bool := negb (String.eqb s "").

(** Every character of [s] is in the class [p]. *)
Fixpoint all_of (p : ascii -> bool) (s : string) : bool :=
  match s with
  | EmptyString => true
  | String c s' => p c && all_of p s'
  end.

(** The longest prefix of characters satisfying [p], and the rest. *)
Fixpoint span (p : ascii -> bool) (s : string) : string * string :=
  match s with
  | EmptyString => (EmptyString, EmptyString)
  | String c s' =>
      if p c then let '(a, b) := span p s' in (String c a, b)
      else (EmptyString, s)
  end.

Definition digit_val (c : ascii) : Z := Z.of_N (code c) - 48.

(** The value of a string of decimal digits, most significant first. *)
Definition Z_of_digits (s : string) : Z :=
  fold_left (fun acc c => 10 * acc + digit_val c)%Z (list_ascii_of_string s) 0%Z.

(** [str(n)] for an [int]. *)
Definition of_int (n : Z) : string := NilZero.string_of_int (Z.to_int n).

End PyStr.

(** ** Python numbers *)

Module PyNum.

Import PyStr.

Local Open Scope float_scope.

(** An integer as a [float] ([int] to [float] conversion, correctly
    rounded). *)
Definition float_of_int (n : Z) : float :=
  SF2Prim (binary_normalize prec emax n 0 false).

(** The binary64 nearest to [(-1)^neg * m * 10^e], ties to even, as
    [strtod] returns it.  The quotient of two integers is rounded once. *)
Definition float_of_decimal (neg : bool) (m : Z) (e : Z) : float :=
  match m with
  | Zpos p =>
      let num := (p * Z.to_pos (10 ^ Z.max 0 e))%positive in
      let den := Z.to_pos (10 ^ Z.max 0 (- e)) in
      SF2Prim (SFdiv prec emax (S754_finite neg num 0) (S754_finite false den 0))
  | _ => if neg then neg_zero else zero
  end.

(** CPython's [_Py_string_to_number_with_underscores]: an underscore is
    legal only between two digits; the numeral is then read without them. *)
Fixpoint drop_underscores (prev : ascii) (s : string) : option string :=
  match s with
  | EmptyString => if Ascii.eqb prev "_" then None else Some EmptyString
  | String c s' =>
      if Ascii.eqb c "_" then
        if is_digit prev then drop_underscores c s' else None
      else if Ascii.eqb prev "_" && negb (is_digit c) then None
      else option_map (String c) (drop_underscores c s')
  end.

Definition parse_sign (s : string) : bool * string :=
  match s with
  | String "-" s' => (true, s')
  | String "+" s' => (false, s')
  | _ => (false, s)
  end.

(** [digits [. digits] | . digits], then an optional exponent; the whole
    string has to be consumed. *)
Definition parse_number (neg : bool) (s : string) : option float :=
  let '(ip, r1) := span is_digit s in
  let '(fp, r2) :=
    match r1 with
    | String "." r => span is_digit r
    | _ => (EmptyString, r1)
    end in
  if String.eqb ip "" && String.eqb fp "" then None
  else
    let m := Z_of_digits (ip +:+ fp) in
    let k := Z.of_nat (String.length fp) in
    match r2 with
    | EmptyString => Some (float_of_decimal neg m (- k))
    | String c r3 =>
        if Ascii.eqb c "e" || Ascii.eqb c "E" then
          let '(eneg, r4) := parse_sign r3 in
          let '(ed, r5) := span is_digit r4 in
          if String.eqb ed "" || negb (String.eqb r5 "") then None
          else
            let x := Z_of_digits ed in
            Some (float_of_decimal neg m ((if eneg then - x else x) - k))
        else None
    end.

Definition parse_inf_or_nan (neg : bool) (s : string) : option float :=
  let l := lower s in
  if String.eqb l "inf" || String.eqb l "infinity"
  then Some (if neg then neg_infinity else infinity)
  else if String.eqb l "nan" then Some nan
  else None.

(** [float(s)] for a [str]; [None] stands for [ValueError]. *)
Definition float_of_str (s : string) : option float :=
  s1 ← drop_underscores "000" s;
  let s2 := strip_with num_isspace s1 in
  let '(neg, s3) := parse_sign s2 in
  match parse_number neg s3 with
  | Some x => Some x
  | None => parse_inf_or_nan neg s3
  end.

(** [int(s)] for a [str] in base 10; [None] stands for [ValueError].
    [max_str_digits] is the interpreter's [sys.get_int_max_str_digits()]
    (4300 unless it was changed, 0 for no limit): a numeral of more than
    640 digits that exceeds it is refused. *)
Definition int_of_str (max_str_digits : nat) (s : string) : option Z :=
  s1 ← drop_underscores "000" s;
  let s2 := strip_with num_isspace s1 in
  let '(neg, s3) := parse_sign s2 in
  let '(ds, r) := span is_digit s3 in
  if String.eqb ds "" || negb (String.eqb r "") then None
  else
    let digits := String.length ds in
    if (640 <? digits)%nat && (0 <? max_str_digits)%nat
       && (max_str_digits <? digits)%nat
    then None
    else Some (if neg then - Z_of_digits ds else Z_of_digits ds)%Z.

(** The builtin [max(a, b)] on floats: the first argument unless the
    second is strictly greater. *)
Definition max (a b : float) : float := if PrimFloat.ltb a b then b else a.

End PyNum.

(** ** Regular expressions

    The fragment of Python's [re] that [config.py] uses, with [re]'s
    semantics: a backtracking matcher that tries the greedy alternative
    first and records the text of each capturing group. *)

Module Re.

Inductive regex : Type :=
| Cls (p : ascii -> bool)          (* one character of a class *)
| Seq (r1 r2 : regex)
| Opt (r : regex)                  (* r?  *)
| Star (p : ascii -> bool)         (* c*  for a class c *)
| Group (i : nat) (r : regex)      (* (r), numbered i *)
| Eos.                             (* $ *)

(** [c+] *)
Definition Plus (p : ascii -> bool) : regex := Seq (Cls p) (Star p).

Definition groups : Type := list (nat * string).

Fixpoint group (g : groups) (i : nat) : option string :=
  match g with
  | [] => None
  | (j, s) :: g' => if Nat.eqb i j then Some s else group g' i
  end.

(** The part of [s] that was consumed when [rest] is what remains. *)
Definition consumed (s rest : string) : string :=
  String.substring 0 (String.length s - String.length rest) s.

Fixpoint star {A} (p : ascii -> bool) (s : string) (k : string -> option A)
  : option A :=
  match s with
  | String c s' =>
      if p c then
        match star p s' k with
        | Some a => Some a
        | None => k s
        end
      else k s
  | EmptyString => k s
  end.

Fixpoint run (r : regex) (s : string) (g : groups)
    (k : string -> groups -> option groups) : option groups :=
  match r with
  | Cls p =>
      match s with
      | String c s' => if p c then k s' g else None
      | EmptyString => None
      end
  | Seq r1 r2 => run r1 s g (fun s' g' => run r2 s' g' k)
  | Opt r' =>
      match run r' s g k with
      | Some a => Some a
      | None => k s g
      end
  | Star p => star p s (fun s' => k s' g)
  | Group i r' => run r' s g (fun s' g' => k s' ((i, consumed s s') :: g'))
  | Eos =>
      (* the end of the string, or just before a final newline *)
      match s with
      | EmptyString => k s g
      | String c EmptyString => if Ascii.eqb c "010" then k s g else None
      | _ => None
      end
  end.

(** [re.match(r, s)]: a match anchored at the start of [s]. *)
Definition match_ (r : regex) (s : string) : option groups :=
  run r s [] (fun _ g => Some g).

End Re.

(** ** pathlib

    [PurePosixPath]: a root ([""], ["/"] or ["//"]) and the list of
    components, none of which is empty, ["."] or contains a slash. *)

Record Path : Type := mkPath { root : string; names : list string }.

Module PathLib.

Import PyStr.

(** The root of a path string: exactly two leading slashes are kept,
    any other number of them is one. *)
Definition splitroot (s : string) : string :=
  match s with
  | String "/" (String "/" (String "/" _)) => "/"
  | String "/" (String "/" _) => "//"
  | String "/" _ => "/"
  | _ => ""
  end.

Definition is_component (s : string) : bool :=
  negb (String.eqb s "") && negb (String.eqb s ".").

(** [Path(s)] *)
Definition of_str (s : string) : Path :=
  mkPath (splitroot s) (List.filter is_component (split "/" s)).

(** [p / q] for two paths: an absolute [q] replaces [p]. *)
Definition join (p q : Path) : Path :=
  if truthy (root q) then q else mkPath (root p) (names p ++ names q).

(** [p / s] for a string [s]. *)
Definition div (p : Path) (s : string) : Path := join p (of_str s).

(** [Path] of several segments, as in [Path(a, b, c)]. *)
Definition of_segments (l : list string) : Path :=
  fold_left div l (mkPath "" []).

(** [str(p)] *)
Definition to_str (p : Path) : string :=
  match root p, names p with
  | EmptyString, [] => "."
  | r, ns => r +:+ PyStr.join "/" ns
  end.

(** [p.parts] *)
Definition parts (p : Path) : list string :=
  if truthy (root p) then root p :: names p else names p.

(** [p.parent] *)
Definition parent (p : Path) : Path :=
  mkPath (root p) (removelast (names p)).

Fixpoint strip_prefix (pre l : list string) : option (list string) :=
  match pre, l with
  | [], _ => Some l
  | x :: pre', y :: l' => if String.eqb x y then strip_prefix pre' l' else None
  | _ :: _, [] => None
  end.

(** [p.relative_to(other)]: [ValueError] unless [other] is [p] or one of
    its ancestors. *)
Definition relative_to (p other : Path) : result Path :=
  if String.eqb (root p) (root other) then
    match strip_prefix (names other) (names p) with
    | Some rest => Ok (mkPath "" rest)
    | None => Raise ValueError
    end
  else Raise ValueError.

End PathLib.

Notation "p </> s" := (PathLib.div p s) (at level 40, left associativity).

(** ** [furu/config.py] *)

Record FuruConfig : Type := mkFuruConfig {
  base_root : Path;
  poll_interval : float;
  wait_log_every_sec : float;
  stale_timeout : float;
  lease_duration_sec : float;
  heartbeat_interval_sec : float;
  max_requeues : Z;
  ignore_git_diff : bool;
  require_git : bool;
  require_git_remote : bool;
  force_recompute : gset string;
  cancelled_is_preempted : bool;
  cache_metadata_ttl_sec : option float
}.

Module Config.

Import PyStr PyNum Re.

Local Open Scope float_scope.

Definition is_dot (c : ascii) : bool := Ascii.eqb c ".".

Definition is_unit (c : ascii) : bool :=
  Ascii.eqb c "s" || Ascii.eqb c "m" || Ascii.eqb c "h".

(** [\d+(?:\.\d+)?] *)
Definition number_re : regex :=
  Seq (Plus is_digit) (Opt (Seq (Cls is_dot) (Plus is_digit))).

(** [\s*([smh]?)$] *)
Definition tail_re : regex :=
  Seq (Star isspace) (Seq (Group 2 (Opt (Cls is_unit))) Eos).

(** [^(\d+(?:\.\d+)?)\s*([smh]?)$] *)
Definition duration_re : regex := Seq (Group 1 number_re) tail_re.

Definition multipliers : list (string * Z) :=
  [("s", 1%Z); ("m", 60%Z); ("h", 3600%Z)].

Fixpoint getitem {V} (d : list (string * V)) (key : string) : result V :=
  match d with
  | [] => Raise KeyError
  | (k, v) :: d' => if String.eqb k key then Ok v else getitem d' key
  end.

(** [FuruConfig._parse_cache_duration]: [None] is no caching,
    [float("inf")] is caching for ever. *)
Definition _parse_cache_duration (value : string) : result (option float) :=
  let value := lower (strip value) in
  if in_set value ["never"; "0"; "false"; "no"] then Ok None
  else if in_set value ["forever"; "inf"; "true"; "yes"; "1"]
  then Ok (Some infinity)
  else
    match match_ duration_re value with
    | None => Raise ValueError
    | Some m =>
        num ← or_raise ValueError (float_of_str (default "" (group m 1)));
        let unit := default "" (group m 2) in
        let unit := if truthy unit then unit else "s" in
        mult ← getitem multipliers unit;
        Ok (Some (num * float_of_int mult))
    end.

Section Init.

(** The process environment [os.environ]; the interpreter's
    [sys.get_int_max_str_digits()]; the password database
    ([pwd.getpwuid(os.getuid()).pw_dir] at [None],
    [pwd.getpwnam(name).pw_dir] at [Some name], the answer [None] standing
    for [KeyError]); and what [resolve()] answers on this machine, which
    may be an exception. *)
Variable environ : gmap string string.
Variable int_max_str_digits : nat.
Variable pw_dir : option string -> option string.
Variable resolve : Path -> result Path.

(** [os.getenv(name)] and [os.getenv(name, dflt)] *)
Definition getenv (name : string) : option string := environ !! name.
Definition getenv_or (name dflt : string) : string :=
  default dflt (environ !! name).

Definition flag (name dflt : string) : bool :=
  in_set (lower (getenv_or name dflt)) ["1"; "true"; "yes"].

(** [os.path.expanduser] on the first component of a path, which begins
    with a tilde and holds no slash: [~] is the value of [HOME], or the
    home of the current user when [HOME] is unset; [~name] is the home of
    that user; the component is returned as it is when the password
    database has no answer. *)
Definition os_path_expanduser (path : string) : string :=
  let name := String.substring 1 (String.length path - 1) path in
  let userhome :=
    if String.eqb name "" then
      match environ !! "HOME" with
      | Some home => Some home
      | None => pw_dir None
      end
    else pw_dir (Some name) in
  match userhome with
  | None => path
  | Some home =>
      let home := rstrip_with (fun c => Ascii.eqb c "/") home in
      if truthy home then home else "/"
  end.

(** [Path.expanduser]: only a relative path whose first component begins
    with a tilde is changed; [RuntimeError] when the home directory
    cannot be determined. *)
Definition expanduser (p : Path) : result Path :=
  match root p, names p with
  | EmptyString, first :: rest =>
      if startswith first "~" then
        let homedir := os_path_expanduser first in
        if startswith homedir "~" then Raise RuntimeError
        else Ok (PathLib.of_segments (homedir :: rest))
      else Ok p
  | _, _ => Ok p
  end.

Definition _get_base_root : result Path :=
  match getenv "FURU_PATH" with
  | Some env =>
      if truthy env then
        expanded ← expanduser (PathLib.of_str env);
        resolve expanded
      else resolve (PathLib.of_str "data-furu")
  | None => resolve (PathLib.of_str "data-furu")
  end.

Definition float_env (name dflt : string) : result float :=
  or_raise ValueError (float_of_str (getenv_or name dflt)).

(** [FuruConfig.__init__] *)
Definition init : result FuruConfig :=
  base ← _get_base_root;
  poll ← float_env "FURU_POLL_INTERVAL_SECS" "10";
  wait_log ← float_env "FURU_WAIT_LOG_EVERY_SECS" "10";
  stale ← float_env "FURU_STALE_AFTER_SECS" (PyStr.of_int (30 * 60));
  lease ← float_env "FURU_LEASE_SECS" "120";
  hb ← match getenv "FURU_HEARTBEAT_SECS" with
       | Some hb => or_raise ValueError (float_of_str hb)
       | None => Ok (PyNum.max 1 (lease / 3))
       end;
  requeues ← or_raise ValueError
               (int_of_str int_max_str_digits (getenv_or "FURU_PREEMPT_MAX" "5"));
  let ignore_diff := flag "FURU_IGNORE_DIFF" "0" in
  let req_git := flag "FURU_REQUIRE_GIT" "1" in
  let req_remote := flag "FURU_REQUIRE_GIT_REMOTE" "1" in
  let force : gset string :=
    list_to_set
      (List.filter truthy
         (map strip (split "," (getenv_or "FURU_FORCE_RECOMPUTE" "")))) in
  let cancelled := flag "FURU_CANCELLED_IS_PREEMPTED" "false" in
  ttl ← _parse_cache_duration (getenv_or "FURU_CACHE_METADATA" "5m");
  Ok (mkFuruConfig base poll wait_log stale lease hb requeues ignore_diff
        req_git req_remote force cancelled ttl).

End Init.

(** [FuruConfig.get_root] *)
Definition get_root (c : FuruConfig) (version_controlled : bool) : Path :=
  if version_controlled then base_root c </> "git" else base_root c </> "data".

(** [FuruConfig.raw_dir] *)
Definition raw_dir (c : FuruConfig) : Path := base_root c </> "raw".

(** [set_furu_root] *)
Definition set_furu_root (resolve : Path -> result Path) (c : FuruConfig)
    (p : Path) : result FuruConfig :=
  base ← resolve p;
  Ok (mkFuruConfig base (poll_interval c) (wait_log_every_sec c)
        (stale_timeout c) (lease_duration_sec c) (heartbeat_interval_sec c)
        (max_requeues c) (ignore_git_diff c) (require_git c)
        (require_git_remote c) (force_recompute c) (cancelled_is_preempted c)
        (cache_metadata_ttl_sec c)).

End Config.

(** ** [furu/errors.py] *)

Module Errors.

Import PyStr.







End Errors.

(** ** The filesystem

    A tree of directories and regular files.  A path is looked up by its
    components from the top of the tree; the storage roots are absolute, as
    [resolve()] leaves them.  The tree has no symbolic links and no
    permission bits: every query about a path has an answer.  What is
    proved about the scanner is therefore about what it returns and about
    the exceptions of the calls that are modelled, not about a
    [PermissionError] of [is_file], [is_dir] or [exists]. *)

Inductive node : Type :=
| File (content : string)
| Dir (entries : list (string * node)).

Module FS.

Fixpoint assoc (x : string) (es : list (string * node)) : option node :=
  match es with
  | [] => None
  | (y, n) :: es' => if String.eqb x y then Some n else assoc x es'
  end.

Fixpoint lookup (n : node) (ns : list string) : option node :=
  match ns with
  | [] => Some n
  | x :: ns' =>
      match n with
      | Dir es =>
          match assoc x es with
          | Some c => lookup c ns'
          | None => None
          end
      | File _ => None
      end
  end.

Definition at_path (fs : node) (p : Path) : option node := lookup fs (names p).

(** [p.exists()], [p.is_dir()], [p.is_file()] *)
Definition exists_ (fs : node) (p : Path) : bool :=
  match at_path fs p with Some _ => true | None => false end.
Definition is_dir (fs : node) (p : Path) : bool :=
  match at_path fs p with Some (Dir _) => true | _ => false end.
Definition is_file (fs : node) (p : Path) : bool :=
  match at_path fs p with Some (File _) => true | _ => false end.

Definition child (p : Path) (name : string) : Path :=
  mkPath (root p) (names p ++ [name]).

(** The directories at and below [here], each before its subdirectories,
    in the order the directory entries are listed. *)
Fixpoint iterate_directories (here : Path) (n : node) : list Path :=
  match n with
  | File _ => []
  | Dir es =>
      here ::
      (fix children (es : list (string * node)) : list Path :=
         match es with
         | [] => []
         | (name, c) :: es' =>
             (iterate_directories (child here name) c ++ children es')%list
         end) es
  end.

(** [top.rglob(name)] for a literal [name]: in every directory at or
    below [top], the entry called [name] when there is one. *)
Definition rglob (fs : node) (top : Path) (name : string) : list Path :=
  match at_path fs top with
  | Some n =>
      flat_map (fun d => if exists_ fs (d </> name) then [d </> name] else [])
        (iterate_directories top n)
  | None => []
  end.

(** A file name: not empty, not ["."] or [".."], without a slash. *)
Definition valid_name (s : string) : bool :=
  negb (String.eqb s "") && negb (String.eqb s ".") && negb (String.eqb s "..")
  && PyStr.all_of (fun c => negb (Ascii.eqb c "/")) s.

Fixpoint nodupb (l : list string) : bool :=
  match l with
  | [] => true
  | x :: l' => negb (existsb (String.eqb x) l') && nodupb l'
  end.

(** In a directory every entry has a valid name and no two entries share
    one. *)
Fixpoint wf (n : node) : bool :=
  match n with
  | File _ => true
  | Dir es =>
      forallb valid_name (map fst es) && nodupb (map fst es)
      && (fix all (es : list (string * node)) : bool :=
            match es with
            | [] => true
            | (_, c) :: es' => wf c && all es'
            end) es
  end.

End FS.

(** ** [huldra/dashboard/scanner.py] *)

(** The fields of the state record that the scanner reads. *)
Record StateResult : Type := mkStateResult { res_status : string }.

Record StateAttemptInternal : Type := mkAttempt {
  att_status : string;
  att_number : Z;
  att_started_at : string
}.

Record _HuldraState : Type := mkState {
  st_result : StateResult;
  st_attempt : option StateAttemptInternal;
  st_updated_at : option string
}.

(** [dashboard/api/models.py] *)
Module Models.

Record ExperimentSummary : Type := mkSummary {
  namespace : string;
  huldra_hash : string;
  class_name : string;
  result_status : string;
  attempt_status : option string;
  attempt_number : option Z;
  updated_at : option string;
  started_at : option string
}.

(** [ExperimentDetail]: the fields of a summary, the directory and the
    three payloads, whose types ([JsonDict], [StateAttempt]) live in
    modules that are not at hand. *)
Record ExperimentDetail (JsonDict StateAttempt : Type) : Type := mkDetail {
  summary : ExperimentSummary;
  directory : string;
  state : JsonDict;
  metadata : option JsonDict;
  attempt : option StateAttempt
}.

Arguments mkDetail {JsonDict StateAttempt}.
Arguments summary {JsonDict StateAttempt}.
Arguments directory {JsonDict StateAttempt}.
Arguments state {JsonDict StateAttempt}.
Arguments metadata {JsonDict StateAttempt}.
Arguments attempt {JsonDict StateAttempt}.

End Models.

Module Scanner.

Import PyStr Models.

(** [_get_class_name] *)
Definition _get_class_name (namespace : string) : string :=
  List.last (split "." namespace) namespace.

(** [_parse_namespace_from_path] *)
Definition _parse_namespace_from_path (experiment_dir top : Path)
  : result (string * string) :=
  relative ← PathLib.relative_to experiment_dir top;
  let parts := PathLib.parts relative in
  if (length parts <? 2)%nat then Ok (PathLib.to_str relative, "")
  else
    let huldra_hash := List.last parts "" in
    let namespace := join "." (removelast parts) in
    Ok (namespace, huldra_hash).

(** [_state_to_summary] *)
Definition _state_to_summary (state : _HuldraState)
    (namespace huldra_hash : string) : ExperimentSummary :=
  let attempt := st_attempt state in
  mkSummary namespace huldra_hash (_get_class_name namespace)
    (res_status (st_result state))
    (option_map att_status attempt)
    (option_map att_number attempt)
    (st_updated_at state)
    (option_map att_started_at attempt).

(** A filter argument is applied only when it is a non-empty string. *)
Definition active (f : option string) : option string :=
  match f with
  | Some s => if truthy s then Some s else None
  | None => None
  end.

(** The sort key [(e.updated_at is None, e.updated_at or "")] and the
    order of such tuples. *)
Definition sort_key (e : ExperimentSummary) : bool * string :=
  (match updated_at e with None => true | Some _ => false end,
   default "" (updated_at e)).

Definition key_lt (a b : bool * string) : bool :=
  (negb (fst a) && fst b)
  || (Bool.eqb (fst a) (fst b) && String.ltb (snd a) (snd b)).

(** [list.sort(key=sort_key, reverse=True)]: descending and stable. *)
Fixpoint insert_desc (x : ExperimentSummary) (l : list ExperimentSummary)
  : list ExperimentSummary :=
  match l with
  | [] => [x]
  | y :: l' =>
      if key_lt (sort_key x) (sort_key y) then y :: insert_desc x l'
      else x :: l
  end.

Definition sort_reverse (l : list ExperimentSummary) : list ExperimentSummary :=
  fold_right insert_desc [] l.

(** A loop that appends to one list and stops at the first exception. *)
Fixpoint for_each {A B} (f : A -> result (list B)) (l : list A)
  : result (list B) :=
  match l with
  | [] => Ok []
  | a :: l' => bs ← f a; rest ← for_each f l'; Ok (bs ++ rest)%list
  end.

Section Scan.

(** [StateManager.INTERNAL_DIR], [StateManager.STATE_FILE] and
    [StateManager.read_state] live in [storage/state.py]. *)
Variables INTERNAL_DIR STATE_FILE : string.
Variable read_state : node -> Path -> result _HuldraState.

(** [HULDRA_CONFIG], the instance of the configuration class of
    [config.py], and the filesystem at the time of the call. *)
Variable config : FuruConfig.
Variable fs : node.

(** [_iter_roots] *)
Definition _iter_roots : list Path :=
  flat_map
    (fun version_controlled =>
       let top := Config.get_root config version_controlled in
       if FS.exists_ fs top then [top] else [])
    [false; true].

(** [_find_experiment_dirs] *)
Definition _find_experiment_dirs (top : Path) : list Path :=
  flat_map
    (fun huldra_dir =>
       if FS.is_dir fs huldra_dir
       then
         let state_file := huldra_dir </> STATE_FILE in
         if FS.is_file fs state_file then [PathLib.parent huldra_dir]
         else []
       else [])
    (FS.rglob fs top INTERNAL_DIR).

(** [scan_experiments] *)
Definition scan_experiments
    (result_status attempt_status namespace_prefix : option string)
  : result (list ExperimentSummary) :=
  experiments ←
    for_each
      (fun top =>
         for_each
           (fun experiment_dir =>
              state ← read_state fs experiment_dir;
              '(namespace, huldra_hash) ←
                _parse_namespace_from_path experiment_dir top;
              let summary := _state_to_summary state namespace huldra_hash in
              if match active result_status with
                 | Some f => negb (String.eqb (Models.result_status summary) f)
                 | None => false
                 end then Ok []
              else if match active attempt_status with
                      | Some f =>
                          negb (bool_decide
                                  (Models.attempt_status summary = Some f))
                      | None => false
                      end then Ok []
              else if match active namespace_prefix with
                      | Some f => negb (startswith (Models.namespace summary) f)
                      | None => false
                      end then Ok []
              else Ok [summary])
           (_find_experiment_dirs top))
      _iter_roots;
  Ok (sort_reverse experiments).

(** The directory that [get_experiment_detail] looks at under [top]. *)
Definition experiment_dir_of (top : Path) (namespace huldra_hash : string)
  : Path :=
  let namespace_path := PathLib.of_segments (split "." namespace) in
  PathLib.join top namespace_path </> huldra_hash.

(** [StateManager.get_state_path] *)
Definition get_state_path (d : Path) : Path := d </> INTERNAL_DIR </> STATE_FILE.

(** [MetadataManager.read_metadata_raw], [StateAttempt.from_internal] and
    [state.model_dump(mode="json")] live in [storage/] and in pydantic;
    each may raise. *)
Variables JsonDict StateAttempt : Type.
Variable read_metadata_raw : node -> Path -> result (option JsonDict).
Variable from_internal : StateAttemptInternal -> result StateAttempt.
Variable model_dump : _HuldraState -> result JsonDict.

(** [_state_to_detail] *)
Definition _state_to_detail (state : _HuldraState)
    (namespace huldra_hash : string) (directory : Path)
    (metadata : option JsonDict)
  : result (ExperimentDetail JsonDict StateAttempt) :=
  let attempt := st_attempt state in
  attempt_detail ←
    match attempt with
    | Some a => a' ← from_internal a; Ok (Some a')
    | None => Ok None
    end;
  dumped ← model_dump state;
  Ok (mkDetail
        (mkSummary namespace huldra_hash (_get_class_name namespace)
           (res_status (st_result state))
           (option_map att_status attempt)
           (option_map att_number attempt)
           (st_updated_at state)
           (option_map att_started_at attempt))
        (PathLib.to_str directory) dumped metadata attempt_detail).

(** [get_experiment_detail] *)
Fixpoint detail_in (tops : list Path) (namespace huldra_hash : string)
  : result (option (ExperimentDetail JsonDict StateAttempt)) :=
  match tops with
  | [] => Ok None
  | top :: tops' =>
      let experiment_dir := experiment_dir_of top namespace huldra_hash in
      if FS.is_file fs (get_state_path experiment_dir) then
        state ← read_state fs experiment_dir;
        metadata ← read_metadata_raw fs experiment_dir;
        detail ← _state_to_detail state namespace huldra_hash experiment_dir
                   metadata;
        Ok (Some detail)
      else detail_in tops' namespace huldra_hash
  end.

Definition get_experiment_detail (namespace huldra_hash : string)
  : result (option (ExperimentDetail JsonDict StateAttempt)) :=
  detail_in _iter_roots namespace huldra_hash.

End Scan.

Arguments _state_to_detail {JsonDict StateAttempt}.
Arguments detail_in INTERNAL_DIR STATE_FILE read_state fs
  {JsonDict StateAttempt}.
Arguments get_experiment_detail INTERNAL_DIR STATE_FILE read_state config fs
  {JsonDict StateAttempt}.

End Scanner.

(** ** Vocabulary of the specification *)

Module Spec.

Import PyStr PyNum Config.

(** [t] occurs in [s]. *)
Definition contains (s t : string) : Prop := exists a b, s = a +:+ t +:+ b.

(** One or more decimal digits. *)
Definition digits (s : string) : bool := truthy s && all_of is_digit s.

(** A non-negative decimal number: an integer part and an optional
    fractional part, as in [12] and [12.5]. *)
Definition numeral (ip : string) (frac : option string) : string :=
  ip +:+ match frac with Some fp => "." +:+ fp | None => "" end.

Definition wf_numeral (ip : string) (frac : option string) : bool :=
  digits ip && match frac with Some fp => digits fp | None => true end.

(** The number that the numeral denotes, as a [float]. *)
Definition number (ip : string) (frac : option string) : float :=
  let fp := default "" frac in
  float_of_decimal false (Z_of_digits (ip +:+ fp)) (- Z.of_nat (String.length fp)).

Definition suffix (u : option ascii) : string :=
  match u with Some c => String c "" | None => "" end.

Definition wf_suffix (u : option ascii) : bool :=
  match u with Some c => is_unit c | None => true end.

(** Seconds in one unit: 1 for [s] (and for no unit), 60 for [m], 3600
    for [h]. *)
Definition seconds_per (u : option ascii) : float :=
  match u with
  | Some c => if Ascii.eqb c "m" then 60%float
              else if Ascii.eqb c "h" then 3600%float else 1%float
  | None => 1%float
  end.

(** A duration: a decimal number, optional white space, and an optional
    unit [s], [m] or [h]. *)
Inductive duration_form : string -> Prop :=
| duration_intro (ip : string) (frac : option string) (ws : string)
    (u : option ascii) :
    wf_numeral ip frac = true ->
    all_of isspace ws = true ->
    wf_suffix u = true ->
    duration_form (numeral ip frac +:+ ws +:+ suffix u).

(** [s] does not begin with a character of the class [p]. *)
Definition not_starting (p : ascii -> bool) (s : string) : bool :=
  match s with
  | String c _ => negb (p c)
  | EmptyString => true
  end.

(** The characters of a numeral. *)
Definition numeral_char (c : ascii) : bool := is_digit c || is_dot c.

(** The last character of a string. *)
Fixpoint last_char (s : string) : option ascii :=
  match s with
  | EmptyString => None
  | String c EmptyString => Some c
  | String _ s' => last_char s'
  end.

(** The forms that the specification announces for the cache setting:
    [never], [forever], or a duration. *)
Definition announced_form (s : string) : Prop :=
  s = "never" \/ s = "forever" \/ duration_form s.

(** What [$] leaves unread: nothing, or one final newline. *)
Definition is_tail (t : string) : bool :=
  String.eqb t "" || String.eqb t (String "010" "").

(** The words that switch caching off and on for ever. *)
Definition never_words : list string := ["never"; "0"; "false"; "no"].
Definition forever_words : list string := ["forever"; "inf"; "true"; "yes"; "1"].

(** A path component without a dot. *)
Definition plain_name (s : string) : bool :=
  FS.valid_name s && all_of (fun c => negb (Ascii.eqb c ".")) s.

(** [d] is [top] or lies below it. *)
Definition under (top d : Path) : Prop :=
  root d = root top /\ exists rel, names d = (names top ++ rel)%list.

(** The directory [d] holds the state file [internal/state]. *)
Definition has_state_file (internal state : string) (fs : node) (d : Path)
  : bool :=
  FS.is_dir fs (d </> internal) && FS.is_file fs (d </> internal </> state).

(** The directories below [here], entry by entry. *)
Definition below (here : Path) (es : list (string * node)) : list Path :=
  flat_map (fun e => FS.iterate_directories (FS.child here (fst e)) (snd e)) es.

(** There is a directory at [rel] below the node [n]. *)
Definition dir_at (n : node) (rel : list string) : bool :=
  match FS.lookup n rel with Some (Dir _) => true | _ => false end.


End Spec.

(** ** A sample installation

    State files that hold nothing but the [updated_at] stamp (empty when
    there is none), and a reader for them; used to run the scanner on
    concrete trees. *)

Module Sample.

Definition internal_dir : string := ".huldra".
Definition state_file : string := "state.json".

Definition read_state (fs : node) (d : Path) : result _HuldraState :=
  match FS.at_path fs (d </> internal_dir </> state_file) with
  | Some (File stamp) =>
      Ok (mkState (mkStateResult "success")
            (Some (mkAttempt "success" 1 "2025-01-01T11:00:00+00:00"))
            (if PyStr.truthy stamp then Some stamp else None))
  | _ => Raise ValueError
  end.

(** A reader that refuses a state file that holds the word [damaged],
    as [read_state] refuses a file that it cannot parse. *)
Definition read_state_strict (fs : node) (d : Path) : result _HuldraState :=
  match FS.at_path fs (d </> internal_dir </> state_file) with
  | Some (File stamp) =>
      if String.eqb stamp "damaged" then Raise ValueError
      else read_state fs d
  | _ => Raise ValueError
  end.

(** Stand-ins for the calls that build the payloads of a detail: no
    metadata, the status of the attempt, the stamp of the state. *)
Definition read_metadata_raw (fs : node) (d : Path) : result (option string) :=
  Ok None.
Definition from_internal (a : StateAttemptInternal) : result string :=
  Ok (att_status a).
Definition model_dump (st : _HuldraState) : result string :=
  Ok (default "" (st_updated_at st)).

(** An experiment directory whose state carries the stamp [stamp]. *)
Definition experiment (stamp : string) : node :=
  Dir [(internal_dir, Dir [(state_file, File stamp)])].

Definition config : FuruConfig :=
  mkFuruConfig (mkPath "/" ["srv"; "furu"]) 10 10 1800 120 40 5
    false true true ∅ false (Some 300%float).

(** Two experiments under [data/], one of them without a stamp, and one
    under [git/]. *)
Definition tree : node :=
  Dir [("srv", Dir [("furu", Dir [
    ("data", Dir [("proj", Dir [("Train", Dir [
        ("aaa", experiment "2024-01-01T00:00:00+00:00");
        ("bbb", experiment "");
        ("notes.txt", File "x")])])]);
    ("git", Dir [("proj", Dir [("Prep", Dir [
        ("ccc", experiment "2025-06-01T00:00:00+00:00")])])])])])].

(** One experiment whose state file is damaged. *)
Definition damaged_tree : node :=
  Dir [("srv", Dir [("furu", Dir [
    ("data", Dir [("proj", Dir [("Train", Dir [
        ("aaa", experiment "damaged")])])])])])].

End Sample.

(** ** [get_stats] and the module-level accessors *)

Module Stats.

Import PyStr Models Scanner.

(** [dashboard/api/models.py]: [StatusCount] and [DashboardStats]. *)
Record StatusCount : Type := mkStatusCount { status : string; count : Z }.

Record DashboardStats : Type := mkDashboardStats {
  total : Z;
  by_result_status : list StatusCount;
  by_attempt_status : list StatusCount;
  running_count : Z;
  queued_count : Z;
  failed_count : Z;
  success_count : Z
}.

(** The local variables of [get_stats]. *)
Record counters : Type := mkCounters {
  result_counts : gmap string Z;
  attempt_counts : gmap string Z;
  c_total : Z;
  c_running : Z;
  c_queued : Z;
  c_failed : Z;
  c_success : Z
}.

Definition start : counters := mkCounters ∅ ∅ 0 0 0 0 0.

(** [d[k] += 1] on a [defaultdict(int)]. *)
Definition bump (d : gmap string Z) (k : string) : gmap string Z :=
  <[k := (default 0 (d !! k) + 1)%Z]> d.

(** The body of the inner loop, after the state has been read. *)
Definition visit (c : counters) (state : _HuldraState) : counters :=
  let total := (c_total c + 1)%Z in
  let st := res_status (st_result state) in
  let result_counts := bump (result_counts c) st in
  let success := if String.eqb st "success" then (c_success c + 1)%Z
                 else c_success c in
  let failed := if String.eqb st "success" then c_failed c
                else if String.eqb st "failed" then (c_failed c + 1)%Z
                else c_failed c in
  match st_attempt state with
  | Some attempt =>
      let a := att_status attempt in
      let attempt_counts := bump (attempt_counts c) a in
      let running := if String.eqb a "running" then (c_running c + 1)%Z
                     else c_running c in
      let queued := if String.eqb a "running" then c_queued c
                    else if String.eqb a "queued" then (c_queued c + 1)%Z
                    else c_queued c in
      mkCounters result_counts attempt_counts total running queued failed success
  | None =>
      mkCounters result_counts (attempt_counts c) total (c_running c)
        (c_queued c) failed success
  end.

(** The order of the tuples [(status, count)]. *)
Definition item_leb (a b : string * Z) : bool :=
  String.ltb (fst a) (fst b)
  || (String.eqb (fst a) (fst b) && (snd a <=? snd b)%Z).

Definition item_le (a b : string * Z) : Prop := item_leb a b = true.

#[global] Instance item_le_dec : RelDecision item_le :=
  fun a b => decide (item_leb a b = true).

(** [sorted(d.items())] *)
Definition sorted_items (d : gmap string Z) : list (string * Z) :=
  merge_sort item_le (map_to_list d).

Definition status_counts (d : gmap string Z) : list StatusCount :=
  map (fun item => mkStatusCount (fst item) (snd item)) (sorted_items d).

(** A loop that threads the local variables and stops at the first
    exception. *)
Fixpoint loop {A S} (body : S -> A -> result S) (l : list A) (s : S)
  : result S :=
  match l with
  | [] => Ok s
  | a :: l' => s' ← body s a; loop body l' s'
  end.

Section GetStats.

Variables INTERNAL_DIR STATE_FILE : string.
Variable read_state : node -> Path -> result _HuldraState.
Variable config : FuruConfig.
Variable fs : node.

(** [get_stats] *)
Definition get_stats : result DashboardStats :=
  c ← loop
        (fun c top =>
           loop
             (fun c experiment_dir =>
                state ← read_state fs experiment_dir;
                Ok (visit c state))
             (_find_experiment_dirs INTERNAL_DIR STATE_FILE fs top) c)
        (_iter_roots config fs) start;
  Ok (mkDashboardStats (c_total c)
        (status_counts (result_counts c))
        (status_counts (attempt_counts c))
        (c_running c) (c_queued c) (c_failed c) (c_success c)).

End GetStats.

End Stats.

(** [get_furu_root]: the root of the module-level configuration. *)
Definition get_furu_root (FURU_CONFIG : FuruConfig) (version_controlled : bool)
  : Path :=
  Config.get_root FURU_CONFIG version_controlled.

(** ** More vocabulary *)

Module Spec2.

Import PyStr Models Scanner.

(** The summary passes the three filters of [scan_experiments]. *)
Definition passes (result_status attempt_status namespace_prefix : option string)
    (s : ExperimentSummary) : bool :=
  match active result_status with
  | Some f => String.eqb (Models.result_status s) f
  | None => true
  end
  && match active attempt_status with
     | Some f => bool_decide (Models.attempt_status s = Some f)
     | None => true
     end
  && match active namespace_prefix with
     | Some f => startswith (Models.namespace s) f
     | None => true
     end.

(** When both summaries carry an [updated_at], that of [a] is not the
    older one (the stamps are compared as strings, as the code does). *)
Definition not_older (a b : ExperimentSummary) : Prop :=
  forall ta tb,
    updated_at a = Some ta -> updated_at b = Some tb -> String.ltb ta tb = false.

(** The number of elements of [l] that satisfy [p]. *)
Definition count_where {A} (p : A -> bool) (l : list A) : Z :=
  Z.of_nat (length (List.filter p l)).

Definition has_result (st : string) (s : ExperimentSummary) : bool :=
  String.eqb (Models.result_status s) st.

Definition has_attempt (st : string) (s : ExperimentSummary) : bool :=
  bool_decide (Models.attempt_status s = Some st).

Definition attempted (s : ExperimentSummary) : bool :=
  match Models.attempt_status s with Some _ => true | None => false end.

(** The two statuses of a summary, and of a state record. *)
Definition statuses (s : ExperimentSummary) : string * option string :=
  (Models.result_status s, Models.attempt_status s).

Definition state_statuses (st : _HuldraState) : string * option string :=
  (res_status (st_result st), option_map att_status (st_attempt st)).

(** The states of the experiment directories under the existing roots,
    in the order of the walk. *)
Definition all_states (INTERNAL_DIR STATE_FILE : string)
    (read_state : node -> Path -> result _HuldraState)
    (config : FuruConfig) (fs : node) : result (list _HuldraState) :=
  for_each
    (fun top =>
       for_each (fun d => st ← read_state fs d; Ok [st])
         (_find_experiment_dirs INTERNAL_DIR STATE_FILE fs top))
    (_iter_roots config fs).

(** Two runs end alike: both return, with related values, or both raise
    the same exception. *)
Definition agree {B C} (R : B -> C -> Prop) (x : result B) (y : result C)
  : Prop :=
  match x, y with
  | Ok b, Ok c => R b c
  | Raise e, Raise e' => e = e'
  | _, _ => False
  end.

(** The environment variables that [FuruConfig.__init__] reads. *)
Definition variables : list string :=
  ["FURU_PATH"; "FURU_POLL_INTERVAL_SECS"; "FURU_WAIT_LOG_EVERY_SECS";
   "FURU_STALE_AFTER_SECS"; "FURU_LEASE_SECS"; "FURU_HEARTBEAT_SECS";
   "FURU_PREEMPT_MAX"; "FURU_IGNORE_DIFF"; "FURU_REQUIRE_GIT";
   "FURU_REQUIRE_GIT_REMOTE"; "FURU_FORCE_RECOMPUTE";
   "FURU_CANCELLED_IS_PREEMPTED"; "FURU_CACHE_METADATA"].

(** The sum of the counts of a list of [StatusCount]. *)
Definition count_sum (l : list Stats.StatusCount) : Z :=
  fold_right (fun sc acc => (Stats.count sc + acc)%Z) 0%Z l.

(** The count that a list of [StatusCount] holds for a status, 0 when it
    holds none. *)
Fixpoint count_of (st : string) (l : list Stats.StatusCount) : Z :=
  match l with
  | [] => 0%Z
  | sc :: l' =>
      if String.eqb (Stats.status sc) st then Stats.count sc else count_of st l'
  end.

End Spec2.

(** * Properties *)

(** ** Strings *)

Section StringFacts.

Import Spec.

Lemma app_nil_l (t : string) : "" +:+ t = t.
Proof. reflexivity. Qed.

Lemma app_cons (c : ascii) (s t : string) :
  String c s +:+ t = String c (s +:+ t).
Proof. reflexivity. Qed.

Lemma app_nil_r (s : string) : s +:+ "" = s.
Proof.
  induction s as [|c s IH]; [ reflexivity | now rewrite app_cons, IH ].
Qed.

Lemma app_assoc (a b c : string) : (a +:+ b) +:+ c = a +:+ (b +:+ c).
Proof.
  induction a as [|x a IH]; [ reflexivity | now rewrite !app_cons, IH ].
Qed.

Lemma length_app (a b : string) :
  String.length (a +:+ b) = (String.length a + String.length b)%nat.
Proof.
  induction a as [|x a IH]; [ reflexivity | rewrite app_cons; simpl; now rewrite IH ].
Qed.

Lemma substring_app_l (a b : string) :
  String.substring 0 (String.length a) (a +:+ b) = a.
Proof.
  induction a as [|x a IH]; [ now destruct b |].
  rewrite app_cons. simpl. now rewrite IH.
Qed.

Lemma contains_app_l (s t u : string) : contains s t -> contains (s +:+ u) t.
Proof.
  intros (a & b & ->). exists a, (b +:+ u). now rewrite !app_assoc.
Qed.

Lemma contains_app_r (s t u : string) : contains s t -> contains (u +:+ s) t.
Proof.
  intros (a & b & ->). exists (u +:+ a), b. now rewrite !app_assoc.
Qed.

Lemma contains_refl (s : string) : contains s s.
Proof. exists "", "". now rewrite app_nil_l, app_nil_r. Qed.

End StringFacts.

Create HintDb strings.

#[local] Hint Resolve contains_refl contains_app_l contains_app_r : strings.

(** ** Configuration defaults *)

Section ConfigFacts.

Import PyStr PyNum Config.
Local Open Scope float_scope.

Variable int_max_str_digits : nat.
Variable pw_dir : option string -> option string.
Variable resolve : Path -> result Path.

(** Every step of [__init__] that can raise, peeled off a successful run. *)
Lemma init_ok_inv (environ : gmap string string) (c : FuruConfig) :
  init environ int_max_str_digits pw_dir resolve = Ok c ->
  exists lease hb,
    float_env environ "FURU_LEASE_SECS" "120" = Ok lease /\
    match getenv environ "FURU_HEARTBEAT_SECS" with
    | Some s => or_raise ValueError (float_of_str s)
    | None => Ok (PyNum.max 1 (lease / 3))
    end = Ok hb /\
    lease_duration_sec c = lease /\ heartbeat_interval_sec c = hb.
Proof.
  unfold init. intros H.
  destruct (_get_base_root environ pw_dir resolve); [|discriminate].
  cbn [mbind result_bind] in H.
  destruct (float_env environ "FURU_POLL_INTERVAL_SECS" "10"); [|discriminate].
  destruct (float_env environ "FURU_WAIT_LOG_EVERY_SECS" "10"); [|discriminate].
  destruct (float_env environ "FURU_STALE_AFTER_SECS" _); [|discriminate].
  destruct (float_env environ "FURU_LEASE_SECS" "120") as [lease|] eqn:Hl;
    [|discriminate].
  simpl in H.
  destruct (match getenv environ "FURU_HEARTBEAT_SECS" with
            | Some s => _ | None => _ end) as [hb|] eqn:Hh; [|discriminate].
  simpl in H.
  destruct (or_raise ValueError (int_of_str _ _)); [|discriminate].
  simpl in H.
  destruct (_parse_cache_duration _); [|discriminate].
  simpl in H. injection H as <-. exists lease, hb. simpl. auto.
Qed.

(** C2.  When [FURU_HEARTBEAT_SECS] is unset and the lease, read from
    [FURU_LEASE_SECS] or its default ["120"], is [L], the configuration
    that [__init__] builds has [lease_duration_sec = L] and
    [heartbeat_interval_sec = max(1.0, L / 3.0)]; when the lease variable
    is unset too, the heartbeat interval is 40 seconds. *)
Theorem heartbeat_is_a_third_of_the_lease
    (environ : gmap string string) (L : float) (c : FuruConfig) :
  environ !! "FURU_HEARTBEAT_SECS" = None ->
  float_of_str (default "120" (environ !! "FURU_LEASE_SECS")) = Some L ->
  init environ int_max_str_digits pw_dir resolve = Ok c ->
  lease_duration_sec c = L /\
  heartbeat_interval_sec c = PyNum.max 1 (L / 3) /\
  (environ !! "FURU_LEASE_SECS" = None ->
   L = 120 /\ heartbeat_interval_sec c = 40).
Proof.
  intros Hhb HL Hinit.
  destruct (init_ok_inv _ _ Hinit) as (lease & hb & Hl & Hh & -> & ->).
  unfold float_env, getenv_or in Hl. rewrite HL in Hl. injection Hl as <-.
  unfold getenv in Hh. rewrite Hhb in Hh. injection Hh as <-.
  split; [reflexivity|]. split; [reflexivity|].
  intros Hunset. rewrite Hunset in HL. simpl in HL.
  assert (L = 120) as -> by (vm_compute in HL; congruence).
  split; reflexivity.
Qed.


End ConfigFacts.

(** The lease variable set to 90 seconds and nothing else: a heartbeat
    every 30 seconds. *)
Lemma heartbeat_is_a_third_of_the_lease_witness :
  let environ : gmap string string := {[ "FURU_LEASE_SECS" := "90" ]} in
  match Config.init environ 4300 (fun _ => None) Ok with
  | Ok c =>
      lease_duration_sec c = 90%float /\
      heartbeat_interval_sec c = PyNum.max 1 (90 / 3)%float /\
      (environ !! "FURU_LEASE_SECS" = None ->
       90%float = 120%float /\ heartbeat_interval_sec c = 40%float)
  | Raise _ => False
  end.
Proof.
  intros environ.
  destruct (Config.init environ 4300 (fun _ => None) Ok) as [c|e] eqn:E.
  - apply (heartbeat_is_a_third_of_the_lease 4300 (fun _ => None) Ok environ
             90%float c);
      [ vm_compute; reflexivity | vm_compute; reflexivity | exact E ].
  - vm_compute in E. discriminate E.
Defined.

(** ** Storage roots *)

Section RootFacts.

Import Config.

Lemma div_name (p : Path) (s : string) :
  PathLib.of_str s = mkPath "" [s] ->
  p </> s = mkPath (root p) (names p ++ [s]).
Proof. intros H. unfold PathLib.div, PathLib.join. now rewrite H. Qed.

Lemma parent_div_name (p : Path) (s : string) :
  PathLib.of_str s = mkPath "" [s] ->
  PathLib.parent (p </> s) = p.
Proof.
  intros H. rewrite (div_name _ _ H). unfold PathLib.parent. simpl.
  rewrite removelast_last. now destruct p.
Qed.

Lemma get_root_differ (c : FuruConfig) : get_root c true <> get_root c false.
Proof.
  unfold get_root. rewrite !div_name by reflexivity.
  intros H. injection H as H. apply app_inv_head in H. discriminate.
Qed.

(** C6.  [get_root(True)] is [base_root / "git"] and [get_root(False)] is
    [base_root / "data"]: the two roots are the children [git] and [data]
    of the same base root, and they differ. *)
Theorem get_root_subtrees (c : FuruConfig) :
  get_root c true = base_root c </> "git" /\
  get_root c false = base_root c </> "data" /\
  get_root c true = mkPath (root (base_root c)) (names (base_root c) ++ ["git"]) /\
  get_root c false = mkPath (root (base_root c)) (names (base_root c) ++ ["data"]) /\
  PathLib.parent (get_root c true) = base_root c /\
  PathLib.parent (get_root c false) = base_root c /\
  get_root c true <> get_root c false.
Proof.
  unfold get_root.
  rewrite !div_name by reflexivity.
  repeat split; try (unfold PathLib.parent; simpl; rewrite removelast_last;
                     now destruct c as [[] ?]).
  pose proof (get_root_differ c) as H. unfold get_root in H.
  now rewrite !div_name in H by reflexivity.
Qed.

End RootFacts.

(** ** Error messages *)

Section ErrorFacts.

Import Errors Spec.





End ErrorFacts.


(** ** The duration pattern *)

Section RegexFacts.

Import PyStr PyNum Re Config Spec.

Lemma star_stop {A} p s (k : string -> option A) :
  not_starting p s = true -> star p s k = k s.
Proof. destruct s as [|c s]; simpl; [reflexivity|]. now destruct (p c). Qed.

Lemma star_all {A} p ds rest (k : string -> option A) a :
  all_of p ds = true -> not_starting p rest = true -> k rest = Some a ->
  star p (ds +:+ rest) k = Some a.
Proof.
  induction ds as [|c ds IH]; intros Hall Hns Hk.
  - rewrite app_nil_l, star_stop by assumption. assumption.
  - rewrite app_cons. simpl in *. apply andb_true_iff in Hall as [-> Hall].
    now rewrite IH.
Qed.

Lemma star_sound {A} p s (k : string -> option A) a :
  star p s k = Some a ->
  exists ds rest, s = ds +:+ rest /\ all_of p ds = true /\ k rest = Some a.
Proof.
  induction s as [|c s IH]; simpl; intros H.
  - exists "", "". auto.
  - destruct (p c) eqn:Hc.
    + destruct (star p s k) eqn:Hs.
      * injection H as ->. destruct (IH eq_refl) as (ds & rest & -> & Hall & Hk).
        exists (String c ds), rest. simpl. rewrite Hc, Hall. auto.
      * exists "", (String c s). auto.
    + exists "", (String c s). auto.
Qed.

Lemma consumed_app (a b : string) : consumed (a +:+ b) b = a.
Proof.
  unfold consumed. rewrite length_app.
  replace (String.length a + String.length b - String.length b)%nat
    with (String.length a) by lia.
  apply substring_app_l.
Qed.

(** [c+] on a string that begins with a run of [c]. *)
Lemma plus_all p ds rest g k a :
  truthy ds = true -> all_of p ds = true -> not_starting p rest = true ->
  k rest g = Some a ->
  run (Plus p) (ds +:+ rest) g k = Some a.
Proof.
  destruct ds as [|c ds]; [discriminate|]. intros _ Hall Hns Hk.
  simpl in Hall. apply andb_true_iff in Hall as [Hc Hall].
  rewrite app_cons. unfold Plus. cbn [run]. rewrite Hc.
  now apply star_all.
Qed.

Lemma plus_sound p s g k a :
  run (Plus p) s g k = Some a ->
  exists ds rest, s = ds +:+ rest /\ truthy ds = true /\ all_of p ds = true
                  /\ k rest g = Some a.
Proof.
  unfold Plus. cbn [run]. destruct s as [|c s]; [discriminate|].
  destruct (p c) eqn:Hc; [|discriminate]. intros H.
  apply star_sound in H as (ds & rest & -> & Hall & Hk).
  exists (String c ds), rest. simpl. rewrite Hc, Hall. auto.
Qed.

Lemma digits_split (s : string) :
  digits s = true <-> truthy s = true /\ all_of is_digit s = true.
Proof. unfold digits. apply andb_true_iff. Qed.

Lemma not_starting_weaken (p q : ascii -> bool) (s : string) :
  (forall c, q c = true -> p c = true) ->
  not_starting p s = true -> not_starting q s = true.
Proof.
  intros H. destruct s as [|c s]; simpl; [reflexivity|].
  destruct (q c) eqn:Hq; [|reflexivity]. now rewrite (H _ Hq).
Qed.

(** A number followed by something that cannot continue it. *)
Lemma run_number ip frac rest g k a :
  wf_numeral ip frac = true ->
  not_starting (fun c => is_digit c || is_dot c) rest = true ->
  k rest g = Some a ->
  run number_re (numeral ip frac +:+ rest) g k = Some a.
Proof.
  intros Hwf Hns Hk. unfold wf_numeral in Hwf.
  apply andb_true_iff in Hwf as [Hip Hfrac].
  apply digits_split in Hip as [Hip1 Hip2].
  assert (Hnd : not_starting is_digit rest = true).
  { revert Hns. apply not_starting_weaken. intros c ->. reflexivity. }
  unfold number_re, numeral. cbn [run]. rewrite app_assoc.
  destruct frac as [fp|].
  - apply digits_split in Hfrac as [Hfp1 Hfp2].
    apply plus_all; [assumption..| reflexivity |].
    rewrite !app_cons, app_nil_l. cbn [run]. unfold is_dot at 1.
    rewrite Ascii.eqb_refl.
    now rewrite (plus_all is_digit fp rest g k a).
  - rewrite app_nil_l. apply plus_all; [assumption..|].
    destruct rest as [|c rest]; cbn [run]; [assumption|].
    simpl in Hns. apply negb_true_iff, orb_false_iff in Hns as [_ ->].
    assumption.
Qed.

Lemma run_number_sound s g k a :
  run number_re s g k = Some a ->
  exists ip frac rest,
    s = numeral ip frac +:+ rest /\ wf_numeral ip frac = true
    /\ k rest g = Some a.
Proof.
  unfold number_re. cbn [run]. intros H.
  apply plus_sound in H as (ip & r1 & -> & Hip1 & Hip2 & H).
  assert (Hip : digits ip = true) by now apply digits_split.
  destruct r1 as [|c r1].
  - exists ip, None, "". unfold numeral, wf_numeral.
    rewrite Hip, !app_nil_r. auto.
  - destruct (is_dot c) eqn:Hc.
    + destruct (run (Plus is_digit) r1 g k) as [a'|] eqn:Hfp.
      * injection H as ->. apply Ascii.eqb_eq in Hc. subst c.
        apply plus_sound in Hfp as (fp & rest & -> & Hfp1 & Hfp2 & Hk).
        exists ip, (Some fp), rest. unfold numeral, wf_numeral.
        rewrite Hip. rewrite (proj2 (digits_split fp)) by auto.
        rewrite !app_assoc, !app_cons, app_nil_l. auto.
      * exists ip, None, (String c r1). unfold numeral, wf_numeral.
        rewrite Hip, app_nil_r. auto.
    + exists ip, None, (String c r1). unfold numeral, wf_numeral.
      rewrite Hip, app_nil_r. auto.
Qed.

Lemma unit_not_space (c : ascii) : is_unit c = true -> isspace c = false.
Proof.
  unfold is_unit. intros H.
  apply orb_true_iff in H as [H|H]; [apply orb_true_iff in H as [H|H]|];
    apply Ascii.eqb_eq in H; subst c; reflexivity.
Qed.

Lemma run_tail ws u g k a :
  all_of isspace ws = true -> wf_suffix u = true ->
  k "" ((2, suffix u) :: g)%nat = Some a ->
  run tail_re (ws +:+ suffix u) g k = Some a.
Proof.
  intros Hws Hu Hk. unfold tail_re. cbn [run].
  apply star_all; [assumption| |].
  - destruct u as [c|]; [|reflexivity]. simpl in *.
    now rewrite unit_not_space.
  - destruct u as [c|]; simpl in *.
    + rewrite Hu. unfold consumed. simpl. now rewrite Hk.
    + assumption.
Qed.

Lemma run_tail_sound s g k a :
  run tail_re s g k = Some a ->
  exists ws u t,
    s = ws +:+ suffix u +:+ t /\ all_of isspace ws = true
    /\ wf_suffix u = true /\ is_tail t = true.
Proof.
  unfold tail_re. cbn [run]. intros H.
  apply star_sound in H as (ws & r & -> & Hws & H).
  assert (Heos : forall t g' a', (match t with
            | "" => k t g'
            | String c "" => if Ascii.eqb c "010" then k t g' else None
            | _ => None end) = Some a' -> is_tail t = true).
  { intros [|c [|c' t]] g' a'; [reflexivity| |discriminate].
    destruct (Ascii.eqb c "010") eqn:Hc; [|discriminate].
    apply Ascii.eqb_eq in Hc. now subst c. }
  destruct r as [|c r].
  - exists ws, None, "". simpl. auto.
  - destruct (is_unit c) eqn:Hc.
    + destruct (match r with "" => _ | String _ _ => _ end) eqn:Hr.
      * apply Heos in Hr. exists ws, (Some c), r. simpl. auto.
      * apply (Heos (String c r)) in H. exists ws, None, (String c r). simpl. auto.
    + apply (Heos (String c r)) in H. exists ws, None, (String c r). simpl. auto.
Qed.

(** The whole pattern on a duration. *)
Lemma match_duration ip frac ws u :
  wf_numeral ip frac = true -> all_of isspace ws = true ->
  wf_suffix u = true ->
  match_ duration_re (numeral ip frac +:+ ws +:+ suffix u)
  = Some [(2, suffix u); (1, numeral ip frac)]%nat.
Proof.
  intros Hn Hws Hu. unfold match_, duration_re. cbn [run].
  apply run_number; [assumption| |].
  - destruct ws as [|c ws].
    + destruct u as [c|]; [|reflexivity]. simpl in *.
      unfold is_unit in Hu.
      apply orb_true_iff in Hu as [Hu|Hu]; [apply orb_true_iff in Hu as [Hu|Hu]|];
        apply Ascii.eqb_eq in Hu; subst c; reflexivity.
    + simpl in *. apply andb_true_iff in Hws as [Hc _].
      destruct c as [[] [] [] [] [] [] [] []]; try discriminate Hc; reflexivity.
  - rewrite consumed_app. now apply run_tail.
Qed.

Lemma match_duration_sound s g :
  match_ duration_re s = Some g ->
  exists ip frac ws u t,
    s = numeral ip frac +:+ ws +:+ suffix u +:+ t
    /\ wf_numeral ip frac = true /\ all_of isspace ws = true
    /\ wf_suffix u = true /\ is_tail t = true.
Proof.
  unfold match_, duration_re. cbn [run]. intros H.
  apply run_number_sound in H as (ip & frac & rest & -> & Hn & H).
  apply run_tail_sound in H as (ws & u & t & -> & Hws & Hu & Ht).
  now exists ip, frac, ws, u, t.
Qed.

End RegexFacts.

(** ** Floats *)

Section FloatFacts.

Import PyNum.
Local Open Scope float_scope.

(** [float()] on a few strings. *)
Example float_of_half : float_of_str " 0.5 " = Some 0.5.
Proof. reflexivity. Qed.

Example float_of_exponent : float_of_str "-2.5e-1" = Some (-0.25).
Proof. reflexivity. Qed.

Example float_of_grouped : float_of_str "1_000" = Some 1000.
Proof. reflexivity. Qed.

Example float_of_huge : float_of_str "1e400" = Some infinity.
Proof. reflexivity. Qed.

Example float_of_odd_integer :
  float_of_str "9007199254740993" = Some 9007199254740992.
Proof. reflexivity. Qed.

Example float_of_word : float_of_str "abc" = None.
Proof. reflexivity. Qed.

Example int_of_grouped : int_of_str 4300 " -1_0 " = Some (-10)%Z.
Proof. reflexivity. Qed.

Lemma shr_52 (m : positive) :
  SpecFloat.iter_pos shr_1 52 (Build_shr_record (Z.pos (4503599627370496 * m)) false false)
  = Build_shr_record (Z.pos m) false false.
Proof. vm_compute. reflexivity. Qed.

Lemma digits_52 (m : positive) :
  Z.pos (digits2_pos (4503599627370496 * m)) = (Z.pos (digits2_pos m) + 52)%Z.
Proof.
  change (4503599627370496 * m)%positive with
    (m~0~0~0~0~0~0~0~0~0~0~0~0~0~0~0~0~0~0~0~0~0~0~0~0~0~0~0~0~0~0~0~0~0~0~0~0~0~0~0~0~0~0~0~0~0~0~0~0~0~0~0~0)%positive.
  cbn [digits2_pos]. lia.
Qed.

Lemma SFmul_one (x : spec_float) :
  valid_binary x = true ->
  SFmul prec emax x (Prim2SF 1) = x.
Proof.
  destruct x as [s| s | | s m e]; try reflexivity.
  - now destruct s.
  - now destruct s.
  - intros Hv. unfold SpecFloat.valid_binary, bounded in Hv.
    apply andb_true_iff in Hv as [Hc He].
    unfold canonical_mantissa in Hc. apply Z.eqb_eq in Hc.
    change (Prim2SF 1) with (S754_finite false 4503599627370496 (-52)).
    unfold SFmul.
    replace (m * 4503599627370496)%positive with (4503599627370496 * m)%positive by lia.
    unfold binary_round_aux, shr_fexp. unfold Zdigits2 at 1. rewrite digits_52.
    replace (Z.pos (digits2_pos m) + 52 + (e + -52))%Z with (Z.pos (digits2_pos m) + e)%Z by lia.
    rewrite Hc.
    replace (e - (e + -52))%Z with 52%Z by lia.
    unfold shr at 1.
    change (shr_record_of_loc (Z.pos (4503599627370496 * m)) loc_Exact)
      with (Build_shr_record (Z.pos (4503599627370496 * m)) false false).
    rewrite shr_52.
    replace (e + -52 + 52)%Z with e by lia.
    cbn [shr_m loc_of_shr_record round_nearest_even Zdigits2 shr_record_of_loc].
    rewrite Hc, Z.sub_diag. cbn [shr shr_m]. rewrite He.
    now destruct s.
Qed.

(** Multiplying by [1.0] changes no float. *)
Lemma mul_one (x : float) : x * 1 = x.
Proof.
  rewrite <- (SF2Prim_Prim2SF (x * 1)), mul_spec.
  unfold SF64mul. rewrite SFmul_one by apply Prim2SF_valid.
  apply SF2Prim_Prim2SF.
Qed.

End FloatFacts.

(** ** The cache duration parser *)

Section ParseFacts.

Import PyStr PyNum Re Config Spec.
Local Open Scope float_scope.

Ltac by_cases c :=
  destruct c as [[] [] [] [] [] [] [] []]; try discriminate; try reflexivity.

Lemma all_of_app p a b : all_of p (a +:+ b) = all_of p a && all_of p b.
Proof.
  induction a as [|c a IH]; [reflexivity|].
  rewrite app_cons. simpl. now rewrite IH, andb_assoc.
Qed.

Lemma all_of_impl (p q : ascii -> bool) s :
  (forall c, p c = true -> q c = true) -> all_of p s = true -> all_of q s = true.
Proof.
  intros H. induction s as [|c s IH]; simpl; [reflexivity|].
  intros Hs. apply andb_true_iff in Hs as [Hc Hs]. now rewrite (H _ Hc), IH.
Qed.

Lemma span_all p ds rest :
  all_of p ds = true -> not_starting p rest = true ->
  span p (ds +:+ rest) = (ds, rest).
Proof.
  induction ds as [|c ds IH]; intros Hall Hns.
  - rewrite app_nil_l. destruct rest as [|c rest]; [reflexivity|].
    simpl in *. now apply negb_true_iff in Hns as ->.
  - rewrite app_cons. simpl in *. apply andb_true_iff in Hall as [-> Hall].
    now rewrite IH.
Qed.

Lemma lstrip_id p s : not_starting p s = true -> lstrip_with p s = s.
Proof.
  destruct s as [|c s]; [reflexivity|]. simpl. intros H.
  now apply negb_true_iff in H as ->.
Qed.

Lemma rstrip_id p s :
  all_of (fun c => negb (p c)) s = true -> rstrip_with p s = s.
Proof.
  induction s as [|c s IH]; [reflexivity|]. simpl. intros H.
  apply andb_true_iff in H as [Hc Hs]. rewrite IH by assumption.
  apply negb_true_iff in Hc. rewrite Hc. now destruct s.
Qed.

Lemma drop_underscores_id prev s :
  Ascii.eqb prev "_" = false ->
  all_of (fun c => negb (Ascii.eqb c "_")) s = true ->
  drop_underscores prev s = Some s.
Proof.
  revert prev. induction s as [|c s IH]; intros prev Hp Hs; simpl.
  - now rewrite Hp.
  - simpl in Hs. apply andb_true_iff in Hs as [Hc Hs].
    apply negb_true_iff in Hc. rewrite Hc, Hp. simpl.
    now rewrite IH.
Qed.

Lemma numeral_chars ip frac :
  wf_numeral ip frac = true -> all_of numeral_char (numeral ip frac) = true.
Proof.
  unfold wf_numeral, numeral, digits. intros H.
  apply andb_true_iff in H as [Hip Hfrac].
  apply andb_true_iff in Hip as [_ Hip].
  rewrite all_of_app. apply andb_true_iff. split.
  - revert Hip. apply all_of_impl. unfold numeral_char. now intros c ->.
  - destruct frac as [fp|]; [|reflexivity].
    apply andb_true_iff in Hfrac as [_ Hfp].
    rewrite app_cons, app_nil_l. simpl.
    revert Hfp. apply all_of_impl. unfold numeral_char. now intros c ->.
Qed.

Lemma numeral_starts ip frac :
  wf_numeral ip frac = true ->
  exists c rest, numeral ip frac = String c rest /\ is_digit c = true.
Proof.
  unfold wf_numeral, numeral, digits. intros H.
  apply andb_true_iff in H as [Hip _].
  destruct ip as [|c ip]; [discriminate|]. simpl in Hip.
  apply andb_true_iff in Hip as [Hc _]. rewrite app_cons. eauto.
Qed.

(** [float()] reads a numeral as the number it denotes. *)
Lemma float_of_numeral ip frac :
  wf_numeral ip frac = true ->
  float_of_str (numeral ip frac) = Some (number ip frac).
Proof.
  intros Hwf. pose proof (numeral_chars _ _ Hwf) as Hch.
  destruct (numeral_starts _ _ Hwf) as (c0 & rest0 & Hs & Hc0).
  unfold float_of_str.
  rewrite drop_underscores_id; [| reflexivity |].
  2:{ revert Hch. apply all_of_impl. intros c. unfold numeral_char. by_cases c. }
  simpl. unfold strip_with.
  rewrite lstrip_id.
  2:{ rewrite Hs. simpl. by_cases c0. }
  rewrite rstrip_id.
  2:{ revert Hch. apply all_of_impl. intros c. unfold numeral_char. by_cases c. }
  assert (Hsign : parse_sign (numeral ip frac) = (false, numeral ip frac)).
  { rewrite Hs. by_cases c0. }
  rewrite Hsign. clear Hs Hsign Hch Hc0.
  unfold wf_numeral, digits in Hwf.
  apply andb_true_iff in Hwf as [Hip Hfrac].
  apply andb_true_iff in Hip as [Hip1 Hip2].
  unfold parse_number, numeral, number.
  destruct frac as [fp|].
  - apply andb_true_iff in Hfrac as [Hfp1 Hfp2].
    rewrite span_all; [|assumption|reflexivity].
    rewrite app_cons, app_nil_l.
    rewrite <- (app_nil_r fp) at 1. rewrite span_all; [|assumption|reflexivity].
    unfold truthy in Hip1. apply negb_true_iff in Hip1. rewrite Hip1.
    reflexivity.
  - rewrite span_all; [|assumption|reflexivity].
    unfold truthy in Hip1. apply negb_true_iff in Hip1. rewrite Hip1.
    reflexivity.
Qed.

Lemma unit_cases (c : ascii) :
  is_unit c = true -> c = "s"%char \/ c = "m"%char \/ c = "h"%char.
Proof.
  unfold is_unit. intros H.
  apply orb_true_iff in H as [H|H]; [apply orb_true_iff in H as [H|H]|];
    apply Ascii.eqb_eq in H; auto.
Qed.

(** The multiplier that the table holds for a unit. *)
Lemma multiplier_of u :
  wf_suffix u = true ->
  exists mult,
    getitem multipliers (if truthy (suffix u) then suffix u else "s") = Ok mult
    /\ float_of_int mult = seconds_per u.
Proof.
  destruct u as [c|]; simpl.
  - intros H. destruct (unit_cases _ H) as [ -> | [ -> | -> ] ]; eexists; split; reflexivity.
  - intros _. eexists; split; reflexivity.
Qed.

(** A string that begins with a digit is one of the special words only
    when it is ["0"] or ["1"]. *)
Lemma digit_not_word c rest :
  is_digit c = true ->
  in_set (String c rest) never_words = String.eqb (String c rest) "0" /\
  in_set (String c rest) forever_words = String.eqb (String c rest) "1".
Proof.
  intros Hc. unfold in_set, never_words, forever_words.
  by_cases c; destruct rest; split; reflexivity.
Qed.

(** What the parser does with a duration that is not a special word. *)
Lemma parse_duration v ip frac ws u :
  lower (strip v) = numeral ip frac +:+ ws +:+ suffix u ->
  wf_numeral ip frac = true -> all_of isspace ws = true ->
  wf_suffix u = true ->
  lower (strip v) <> "0" -> lower (strip v) <> "1" ->
  _parse_cache_duration v = Ok (Some (number ip frac * seconds_per u)).
Proof.
  intros Hv Hn Hws Hu H0 H1. unfold _parse_cache_duration.
  destruct (numeral_starts _ _ Hn) as (c0 & rest0 & Hs & Hc0).
  assert (Hshape : lower (strip v) = String c0 (rest0 +:+ ws +:+ suffix u)).
  { now rewrite Hv, Hs, app_cons. }
  destruct (digit_not_word c0 (rest0 +:+ ws +:+ suffix u) Hc0) as [Hw1 Hw2].
  rewrite <- Hshape in Hw1, Hw2.
  change ["never"; "0"; "false"; "no"] with never_words.
  change ["forever"; "inf"; "true"; "yes"; "1"] with forever_words.
  rewrite Hw1, Hw2.
  rewrite (proj2 (String.eqb_neq _ _) H0), (proj2 (String.eqb_neq _ _) H1).
  rewrite Hv, match_duration by assumption.
  cbn [group Nat.eqb default from_option]. unfold id.
  rewrite float_of_numeral by assumption.
  destruct (multiplier_of u Hu) as (mult & Hm & <-).
  unfold mbind, result_bind, or_raise. now rewrite Hm.
Qed.

Lemma last_char_app (a : string) (c : ascii) :
  last_char (a +:+ String c "") = Some c.
Proof.
  induction a as [|d a IH]; [reflexivity|].
  rewrite app_cons. simpl. rewrite IH.
  destruct a; reflexivity.
Qed.

Lemma last_char_rstrip p s c :
  last_char (rstrip_with p s) = Some c -> p c = false.
Proof.
  induction s as [|d s IH]; [discriminate|]. simpl.
  destruct (rstrip_with p s) as [|e r] eqn:Hr.
  - destruct (p d) eqn:Hd; [discriminate|]. simpl. now intros [= <-].
  - intros H. apply IH. exact H.
Qed.

Lemma last_char_lower s :
  last_char (lower s) = option_map lower_char (last_char s).
Proof.
  induction s as [|d s IH]; [reflexivity|]. simpl. rewrite IH.
  destruct s; reflexivity.
Qed.

(** A stripped, lowercased value does not end with a newline. *)
Lemma stripped_no_newline v a :
  lower (strip v) <> a +:+ String "010" "".
Proof.
  intros H. apply (f_equal last_char) in H.
  rewrite last_char_app, last_char_lower in H.
  destruct (last_char (strip v)) as [c|] eqn:Hc; [|discriminate].
  apply last_char_rstrip in Hc. simpl in H. injection H as H.
  revert Hc H. clear. by_cases c.
Qed.

(** The pattern matches exactly the durations. *)
Lemma match_iff_duration v :
  (exists g, match_ duration_re (lower (strip v)) = Some g)
  <-> duration_form (lower (strip v)).
Proof.
  split.
  - intros (g & Hg).
    apply match_duration_sound in Hg as (ip & frac & ws & u & t & Hv & Hn & Hws & Hu & Ht).
    unfold is_tail in Ht. apply orb_true_iff in Ht as [Ht|Ht];
      apply String.eqb_eq in Ht; subst t.
    + rewrite app_nil_r in Hv. rewrite Hv. now constructor.
    + exfalso. rewrite <- !app_assoc in Hv. now apply stripped_no_newline in Hv.
  - intros H. destruct H as [ip frac ws u Hn Hws Hu].
    eexists. now apply match_duration.
Qed.

(** The four ways the parser can end. *)
Lemma parse_cases v :
  let v' := lower (strip v) in
  (in_set v' never_words = true /\ _parse_cache_duration v = Ok None)
  \/ (in_set v' never_words = false /\ in_set v' forever_words = true
      /\ _parse_cache_duration v = Ok (Some infinity))
  \/ (in_set v' never_words = false /\ in_set v' forever_words = false
      /\ exists ip frac ws u,
           wf_numeral ip frac = true /\ all_of isspace ws = true
           /\ wf_suffix u = true
           /\ v' = numeral ip frac +:+ ws +:+ suffix u
           /\ _parse_cache_duration v
              = Ok (Some (number ip frac * seconds_per u)))
  \/ (in_set v' never_words = false /\ in_set v' forever_words = false
      /\ ~ duration_form v' /\ _parse_cache_duration v = Raise ValueError).
Proof.
  intros v'.
  destruct (in_set v' never_words) eqn:Hw1.
  { left. split; [reflexivity|]. unfold _parse_cache_duration.
    fold v'. change ["never"; "0"; "false"; "no"] with never_words.
    now rewrite Hw1. }
  destruct (in_set v' forever_words) eqn:Hw2.
  { right. left. repeat split. unfold _parse_cache_duration.
    fold v'. change ["never"; "0"; "false"; "no"] with never_words.
    change ["forever"; "inf"; "true"; "yes"; "1"] with forever_words.
    now rewrite Hw1, Hw2. }
  right. right.
  destruct (match_ duration_re v') as [g|] eqn:Hm.
  - left. repeat split.
    assert (Hd : duration_form v') by (apply match_iff_duration; eauto).
    remember v' as w eqn:Hw in Hd. destruct Hd as [ip frac ws u Hn Hws Hu].
    exists ip, frac, ws, u.
    split; [assumption|]. split; [assumption|]. split; [assumption|].
    split; [now symmetry|].
    apply (parse_duration v ip frac ws u); try assumption.
    + now symmetry.
    + fold v'. intros E. rewrite E in Hw1. discriminate.
    + fold v'. intros E. rewrite E in Hw2. discriminate.
  - right. repeat split.
    + intros Hd. apply match_iff_duration in Hd as (g & Hg).
      fold v' in Hg. congruence.
    + unfold _parse_cache_duration. fold v'.
      change ["never"; "0"; "false"; "no"] with never_words.
      change ["forever"; "inf"; "true"; "yes"; "1"] with forever_words.
      now rewrite Hw1, Hw2, Hm.
Qed.

End ParseFacts.

Section ParseTheorems.

Import PyStr PyNum Re Config Spec.
Local Open Scope float_scope.

Lemma parse_never_word v :
  in_set (lower (strip v)) never_words = true ->
  _parse_cache_duration v = Ok None.
Proof.
  intros H. destruct (parse_cases v) as [[_ Hp]|[(E & _)|[(E & _)|(E & _)]]];
    [ exact Hp | congruence.. ].
Qed.

Lemma words_disjoint x :
  in_set x never_words = true -> in_set x forever_words = false.
Proof.
  intros H. apply existsb_exists in H as (y & Hy & E).
  apply String.eqb_eq in E. subst y. simpl in Hy.
  destruct Hy as [<-|[<-|[<-|[<-|[]]]]]; reflexivity.
Qed.

Lemma parse_forever_word v :
  in_set (lower (strip v)) forever_words = true ->
  _parse_cache_duration v = Ok (Some infinity).
Proof.
  intros H.
  destruct (parse_cases v) as [[E _]|[(_ & _ & Hp)|[(_ & E & _)|(_ & E & _)]]];
    [ apply words_disjoint in E; congruence | exact Hp | congruence.. ].
Qed.

Lemma in_set_In x l : In x l -> in_set x l = true.
Proof.
  intros H. unfold in_set. apply existsb_exists. exists x.
  split; [assumption | apply String.eqb_refl].
Qed.

Lemma with_unit_not_short c0 rest0 c d :
  String c0 rest0 +:+ String c "" <> String d "".
Proof. rewrite app_cons. intros [= _ H]. now destruct rest0. Qed.

(** C3.  After trimming and lowercasing, [never] means no caching and
    [forever] means caching for ever; a decimal number [n] followed by
    [s], [m] or [h] means [n], [n * 60] or [n * 3600] seconds, where [n]
    is the number as [float()] reads it; the default ["5m"] is 300
    seconds. *)
Theorem cache_duration_meaning (v : string) :
  let v' := lower (strip v) in
  (v' = "never" -> _parse_cache_duration v = Ok None) /\
  (v' = "forever" -> _parse_cache_duration v = Ok (Some infinity)) /\
  (forall ip frac c,
      wf_numeral ip frac = true -> is_unit c = true ->
      v' = numeral ip frac +:+ String c "" ->
      float_of_str (numeral ip frac) = Some (number ip frac) /\
      (c = "s"%char -> _parse_cache_duration v = Ok (Some (number ip frac))) /\
      (c = "m"%char ->
       _parse_cache_duration v = Ok (Some (number ip frac * 60))) /\
      (c = "h"%char ->
       _parse_cache_duration v = Ok (Some (number ip frac * 3600)))) /\
  _parse_cache_duration "5m" = Ok (Some 300).
Proof.
  intros v'. split; [|split; [|split]].
  - intros E. apply parse_never_word. fold v'. now rewrite E.
  - intros E. apply parse_forever_word. fold v'. now rewrite E.
  - intros ip frac c Hn Hc Hv.
    split; [now apply float_of_numeral|].
    assert (Hp : _parse_cache_duration v
                 = Ok (Some (number ip frac * seconds_per (Some c)))).
    { destruct (numeral_starts _ _ Hn) as (c0 & rest0 & Hs & _).
      apply (parse_duration v ip frac "" (Some c)); try assumption; try reflexivity.
      - fold v'. rewrite Hv, Hs. apply with_unit_not_short.
      - fold v'. rewrite Hv, Hs. apply with_unit_not_short. }
    repeat split; intros ->; rewrite Hp; simpl; [now rewrite mul_one|reflexivity..].
  - vm_compute. reflexivity.
Qed.

(** The value [" 1.5H "]: one hour and a half. *)
Lemma cache_duration_meaning_witness :
  _parse_cache_duration " 1.5H " = Ok (Some (number "1" (Some "5") * 3600)).
Proof.
  apply (proj1 (proj2 (proj2 (cache_duration_meaning " 1.5H ")))
           "1" (Some "5") "h"%char);
    reflexivity.
Defined.

(** C4, as the code has it.  The parser raises [ValueError] exactly when
    the trimmed, lowercased value is neither one of the nine special words
    ([never], [0], [false], [no], [forever], [inf], [true], [yes], [1])
    nor a duration: a decimal number, optional white space and an optional
    unit [s], [m] or [h].  It raises nothing else. *)
Theorem parse_raises_iff (v : string) :
  let v' := lower (strip v) in
  (_parse_cache_duration v = Raise ValueError <->
   in_set v' never_words = false /\ in_set v' forever_words = false
   /\ ~ duration_form v') /\
  _parse_cache_duration v <> Raise KeyError /\
  (forall e, _parse_cache_duration v = Raise e -> e = ValueError).
Proof.
  intros v'.
  destruct (parse_cases v) as [(E1 & Hp)|[(E1 & E2 & Hp)|[(E1 & E2 & Hp)|(E1 & E2 & Hd & Hp)]]];
    fold v' in E1; try fold v' in E2.
  - rewrite Hp. split; [|split; [discriminate|discriminate]].
    split; [discriminate|]. intros (E & _). congruence.
  - rewrite Hp. split; [|split; [discriminate|discriminate]].
    split; [discriminate|]. intros (_ & E & _). congruence.
  - destruct Hp as (ip & frac & ws & u & Hn & Hws & Hu & Hv & Hp). fold v' in Hv.
    rewrite Hp. split; [|split; [discriminate|discriminate]].
    split; [discriminate|].
    intros (_ & _ & Hd). exfalso. apply Hd. rewrite Hv. now constructor.
  - fold v' in Hd. rewrite Hp. split; [|split; [discriminate|congruence]].
    split; auto.
Qed.

Lemma not_duration_letter c rest :
  is_digit c = false -> ~ duration_form (String c rest).
Proof.
  intros Hc Hd. remember (String c rest) as w eqn:Hw.
  destruct Hd as [ip frac ws u Hn _ _].
  destruct (numeral_starts _ _ Hn) as (c0 & rest0 & Hs & Hc0).
  rewrite Hs, app_cons in Hw. injection Hw as <- _. congruence.
Qed.

(** C4, as the specification words it, fails: ["yes"] is none of the
    announced forms and is accepted. *)
Lemma announced_forms_miss_yes :
  ~ (_parse_cache_duration "yes" = Raise ValueError
     <-> ~ announced_form (lower (strip "yes"))).
Proof.
  intros [_ H].
  assert (Hp : _parse_cache_duration "yes" = Raise ValueError).
  { apply H. intros [E|[E|E]]; [discriminate E | discriminate E |].
    revert E. now apply not_duration_letter. }
  vm_compute in Hp. discriminate Hp.
Qed.

(** The value ["5x"] is refused. *)
Lemma parse_raises_iff_witness :
  _parse_cache_duration "5x" = Raise ValueError.
Proof.
  apply (proj1 (parse_raises_iff "5x")).
  split; [reflexivity|]. split; [reflexivity|].
  intros Hd. apply (match_iff_duration "5x") in Hd as (g & Hg).
  vm_compute in Hg. discriminate Hg.
Defined.

(** C10.  The special words win over numbers: [0], [false] and [no] mean
    no caching, [inf], [true], [yes] and [1] mean caching for ever, so
    ["0"] and ["1"] are not zero and one second; every other number
    without a unit is that many seconds, as ["30"] is 30 seconds. *)
Theorem special_words_come_first (v : string) :
  let v' := lower (strip v) in
  (In v' ["0"; "false"; "no"] -> _parse_cache_duration v = Ok None) /\
  (In v' ["inf"; "true"; "yes"; "1"] ->
   _parse_cache_duration v = Ok (Some infinity)) /\
  (forall ip frac,
      wf_numeral ip frac = true -> v' = numeral ip frac ->
      v' <> "0" -> v' <> "1" ->
      float_of_str v' = Some (number ip frac) /\
      _parse_cache_duration v = Ok (Some (number ip frac))) /\
  (float_of_str "0" = Some 0 /\ _parse_cache_duration "0" = Ok None) /\
  (float_of_str "1" = Some 1 /\ _parse_cache_duration "1" = Ok (Some infinity)) /\
  _parse_cache_duration "30" = Ok (Some 30).
Proof.
  intros v'. split; [|split; [|split; [|split; [|split]]]].
  - intros H. apply parse_never_word. fold v'. apply in_set_In.
    unfold never_words. simpl in *. tauto.
  - intros H. apply parse_forever_word. fold v'. apply in_set_In.
    unfold forever_words. simpl in *. tauto.
  - intros ip frac Hn Hv H0 H1.
    split; [rewrite Hv; now apply float_of_numeral|].
    rewrite <- (mul_one (number ip frac)).
    apply (parse_duration v ip frac "" None); try assumption; try reflexivity.
    fold v'. rewrite Hv. now rewrite app_nil_l, app_nil_r.
  - split; vm_compute; reflexivity.
  - split; vm_compute; reflexivity.
  - vm_compute. reflexivity.
Qed.

(** The value ["07.50"]: seven seconds and a half. *)
Lemma special_words_come_first_witness :
  _parse_cache_duration "07.50" = Ok (Some (number "07" (Some "50"))).
Proof.
  apply (proj1 (proj2 (proj2 (special_words_come_first "07.50")))
           "07" (Some "50"));
    [ reflexivity | reflexivity | discriminate | discriminate ].
Defined.

End ParseTheorems.

(** ** Paths and namespaces *)


Section PathFacts.

Import PyStr Scanner Models Spec.


Lemma split_none sep s :
  all_of (fun c => negb (Ascii.eqb c sep)) s = true -> split sep s = [s].
Proof.
  induction s as [|c s IH]; [reflexivity|]. simpl. intros H.
  apply andb_true_iff in H as [Hc Hs]. apply negb_true_iff in Hc.
  now rewrite Hc, IH.
Qed.

Lemma split_app sep x rest :
  all_of (fun c => negb (Ascii.eqb c sep)) x = true ->
  split sep (x +:+ String sep rest) = x :: split sep rest.
Proof.
  induction x as [|c x IH]; intros H.
  - rewrite app_nil_l. simpl. now rewrite Ascii.eqb_refl.
  - rewrite app_cons. simpl in *.
    apply andb_true_iff in H as [Hc Hx]. apply negb_true_iff in Hc.
    now rewrite Hc, IH.
Qed.

(** Splitting at the separator undoes joining, when no piece holds it. *)
Lemma split_join sep (l : list string) :
  l <> [] ->
  Forall (fun x => all_of (fun c => negb (Ascii.eqb c sep)) x = true) l ->
  split sep (join (String sep "") l) = l.
Proof.
  intros Hne H. induction H as [|x l Hx Hl IH]; [congruence|].
  destruct l as [|y l].
  - simpl. now apply split_none.
  - unfold join in *. simpl String.concat.
    rewrite app_cons, app_nil_l.
    rewrite split_app by assumption. f_equal. now apply IH.
Qed.

Lemma valid_name_facts s :
  FS.valid_name s = true ->
  s <> "" /\ s <> "." /\ all_of (fun c => negb (Ascii.eqb c "/")) s = true.
Proof.
  unfold FS.valid_name. intros H.
  apply andb_true_iff in H as [H H4]. apply andb_true_iff in H as [H H3].
  apply andb_true_iff in H as [H1 H2].
  apply negb_true_iff, String.eqb_neq in H1, H2. auto.
Qed.

(** A valid name is a path of one component. *)
Lemma of_str_name s :
  FS.valid_name s = true -> PathLib.of_str s = mkPath "" [s].
Proof.
  intros H. destruct (valid_name_facts _ H) as (H1 & H2 & H3).
  unfold PathLib.of_str. rewrite split_none by assumption.
  f_equal.
  - destruct s as [|c s]; [reflexivity|]. simpl in H3.
    apply andb_true_iff in H3 as [Hc _]. apply negb_true_iff in Hc.
    apply Ascii.eqb_neq in Hc. unfold PathLib.splitroot.
    destruct c as [[] [] [] [] [] [] [] []]; try reflexivity. congruence.
  - simpl. unfold PathLib.is_component.
    apply String.eqb_neq in H1, H2. now rewrite H1, H2.
Qed.

Lemma div_valid p s :
  FS.valid_name s = true -> p </> s = FS.child p s.
Proof. intros H. apply div_name. now apply of_str_name. Qed.

Lemma fold_div p l :
  Forall (fun s => FS.valid_name s = true) l ->
  fold_left PathLib.div l p = mkPath (root p) (names p ++ l).
Proof.
  intros H. revert p. induction H as [|s l Hs Hl IH]; intros p; simpl.
  - rewrite List.app_nil_r. now destruct p.
  - rewrite IH, div_valid by assumption. simpl.
    now rewrite <- List.app_assoc.
Qed.

Lemma strip_prefix_app pre l :
  PathLib.strip_prefix pre (pre ++ l) = Some l.
Proof.
  induction pre as [|x pre IH]; simpl; [now destruct l|].
  now rewrite String.eqb_refl.
Qed.

Lemma strip_prefix_inv pre l rest :
  PathLib.strip_prefix pre l = Some rest -> l = (pre ++ rest)%list.
Proof.
  revert l. induction pre as [|x pre IH]; intros l; simpl.
  - now intros [= ->].
  - destruct l as [|y l]; [discriminate|].
    destruct (String.eqb_spec x y); [|discriminate].
    intros H. apply IH in H. now subst.
Qed.

Lemma relative_to_under top rel :
  PathLib.relative_to (mkPath (root top) (names top ++ rel)) top
  = Ok (mkPath "" rel).
Proof.
  unfold PathLib.relative_to. simpl.
  now rewrite String.eqb_refl, strip_prefix_app.
Qed.

Lemma plain_name_facts s :
  plain_name s = true ->
  FS.valid_name s = true /\ all_of (fun c => negb (Ascii.eqb c ".")) s = true.
Proof. unfold plain_name. apply andb_true_iff. Qed.

Lemma removelast_snoc {A} (l : list A) (x : A) : removelast (l ++ [x]) = l.
Proof. apply removelast_last. Qed.

(** C9.  For a directory [top/p1/.../pk/h] with [k >= 1] whose components
    hold no dot, [_parse_namespace_from_path] returns the namespace
    [p1.....pk] and the hash [h], and the path that
    [get_experiment_detail] rebuilds from that namespace and hash is the
    directory again. *)
Theorem namespace_roundtrip (top : Path) (ps : list string) (h : string) :
  ps <> [] ->
  Forall (fun s => plain_name s = true) (ps ++ [h]) ->
  let d := fold_left PathLib.div (ps ++ [h]) top in
  d = mkPath (root top) (names top ++ ps ++ [h]) /\
  _parse_namespace_from_path d top = Ok (join "." ps, h) /\
  experiment_dir_of top (join "." ps) h = d.
Proof.
  intros Hne Hall d.
  assert (Hvalid : Forall (fun s => FS.valid_name s = true) (ps ++ [h])).
  { revert Hall. apply List.Forall_impl. intros s Hs.
    now apply plain_name_facts in Hs. }
  assert (Hd : d = mkPath (root top) (names top ++ ps ++ [h])).
  { unfold d. now apply fold_div. }
  apply Forall_app in Hall as [Hps Hh], Hvalid as [Hvps Hvh].
  apply Forall_inv in Hvh.
  split; [exact Hd|]. split.
  - rewrite Hd. unfold _parse_namespace_from_path.
    rewrite relative_to_under. cbn [mbind result_bind].
    unfold PathLib.parts. cbn [root names truthy String.eqb negb].
    rewrite List.length_app. cbn [length].
    destruct ps as [|p ps]; [congruence|].
    replace (length (p :: ps) + 1 <? 2)%nat with false
      by (symmetry; apply Nat.ltb_ge; simpl; lia).
    now rewrite removelast_snoc, last_last.
  - rewrite Hd. unfold experiment_dir_of.
    rewrite split_join; [|assumption|].
    2:{ revert Hps. apply List.Forall_impl. intros s Hs.
        now apply plain_name_facts in Hs. }
    unfold PathLib.of_segments. rewrite fold_div by assumption.
    unfold PathLib.join. cbn [root names truthy String.eqb negb].
    rewrite div_valid by assumption. unfold FS.child. cbn [root names].
    now rewrite <- List.app_assoc.
Qed.

End PathFacts.

(** The experiment [proj/Train/aaa] under the data root of the sample. *)
Lemma namespace_roundtrip_witness :
  let top := mkPath "/" ["srv"; "furu"; "data"] in
  let d := mkPath "/" ["srv"; "furu"; "data"; "proj"; "Train"; "aaa"] in
  Scanner._parse_namespace_from_path d top = Ok ("proj.Train", "aaa") /\
  Scanner.experiment_dir_of top "proj.Train" "aaa" = d.
Proof.
  intros top d.
  destruct (namespace_roundtrip top ["proj"; "Train"] "aaa") as (_ & H1 & H2);
    [ discriminate | repeat constructor | ].
  split; [ exact H1 | exact H2 ].
Defined.

(** ** Walking the tree *)

Section TreeFacts.

Import PyStr Scanner Models Spec.

(** Induction over a tree, with the hypothesis for every entry of a
    directory. *)
Lemma node_induction (P : node -> Prop) :
  (forall c, P (File c)) ->
  (forall es, Forall (fun e => P (snd e)) es -> P (Dir es)) ->
  forall n, P n.
Proof.
  intros HF HD. fix IH 1. intros [c|es]; [apply HF|].
  apply HD. induction es as [|[name c] es IHes]; constructor; [apply IH | exact IHes].
Qed.

Lemma iterate_dir here es :
  FS.iterate_directories here (Dir es) = here :: below here es.
Proof.
  simpl. f_equal. unfold below.
  induction es as [|[name c] es IH]; [reflexivity|]. simpl. now rewrite IH.
Qed.

Lemma wf_dir es :
  FS.wf (Dir es) = true <->
  forallb FS.valid_name (map fst es) = true /\ FS.nodupb (map fst es) = true
  /\ Forall (fun e => FS.wf (snd e) = true) es.
Proof.
  simpl. rewrite !andb_true_iff.
  assert (H : (fix all (es0 : list (string * node)) : bool :=
             match es0 with
             | [] => true
             | (_, c) :: es' => FS.wf c && all es'
             end) es = true <-> Forall (fun e => FS.wf (snd e) = true) es).
  { induction es as [|[name c] es IH]; [split; auto|].
    rewrite andb_true_iff, IH. split.
    - intros [? ?]. now constructor.
    - intros H. inversion H; subst. auto. }
  rewrite H. tauto.
Qed.

Lemma assoc_In x es c : FS.assoc x es = Some c -> In (x, c) es.
Proof.
  induction es as [|[y n] es IH]; [discriminate|]. simpl.
  destruct (String.eqb_spec x y) as [->|_].
  - intros [= ->]. now left.
  - intros H. right. auto.
Qed.

Lemma nodupb_notin x l :
  existsb (String.eqb x) l = false -> ~ In x l.
Proof.
  intros H Hin. assert (existsb (String.eqb x) l = true); [|congruence].
  apply existsb_exists. exists x. split; [assumption|apply String.eqb_refl].
Qed.

Lemma In_assoc x es c :
  FS.nodupb (map fst es) = true -> In (x, c) es -> FS.assoc x es = Some c.
Proof.
  induction es as [|[y n] es IH]; [contradiction|]. simpl.
  intros H. apply andb_true_iff in H as [Hy Hes].
  apply negb_true_iff, nodupb_notin in Hy.
  intros [[= -> ->]|Hin].
  - now rewrite String.eqb_refl.
  - destruct (String.eqb_spec x y) as [->|_]; [|auto].
    exfalso. apply Hy. apply (in_map fst) in Hin. exact Hin.
Qed.

(** Walking finds exactly the directories of the tree. *)
Lemma iterate_directories_spec n :
  FS.wf n = true ->
  forall here d,
    In d (FS.iterate_directories here n) <->
    exists rel, d = mkPath (root here) (names here ++ rel) /\ dir_at n rel = true.
Proof.
  induction n as [c|es IH] using node_induction; intros Hwf here d.
  - simpl. split; [contradiction|]. intros (rel & _ & H).
    unfold dir_at in H. destruct rel; simpl in H; discriminate.
  - apply wf_dir in Hwf as (_ & Hnd & Hwfs).
    rewrite iterate_dir. simpl. split.
    + intros [<-|Hin].
      * exists []. rewrite List.app_nil_r. split; [now destruct here|reflexivity].
      * unfold below in Hin. apply in_flat_map in Hin as ([name c] & Hin & Hd).
        simpl in Hd. rewrite List.Forall_forall in IH, Hwfs.
        apply (IH _ Hin (Hwfs _ Hin)) in Hd as (rel & -> & Hrel).
        exists (name :: rel). simpl. rewrite <- List.app_assoc. split; [reflexivity|].
        unfold dir_at. simpl. now rewrite (In_assoc _ _ _ Hnd Hin).
    + intros (rel & -> & Hrel). destruct rel as [|name rel].
      * left. rewrite List.app_nil_r. now destruct here.
      * right. unfold dir_at in Hrel. simpl in Hrel.
        destruct (FS.assoc name es) as [c|] eqn:Hc; [|discriminate].
        apply assoc_In in Hc. unfold below. apply in_flat_map.
        exists (name, c). split; [assumption|]. simpl.
        rewrite List.Forall_forall in IH, Hwfs.
        apply (IH _ Hc (Hwfs _ Hc)). exists rel. simpl.
        rewrite <- List.app_assoc. split; [reflexivity|exact Hrel].
Qed.




End TreeFacts.

(** ** The scanner *)

Section ScanFacts.

Import PyStr Scanner Models Spec.
Local Open Scope list_scope.

Variables INTERNAL_DIR STATE_FILE : string.
Variable read_state : node -> Path -> result _HuldraState.
Hypothesis internal_valid : FS.valid_name INTERNAL_DIR = true.

Lemma lookup_app n a b :
  FS.lookup n (a ++ b) =
  match FS.lookup n a with Some m => FS.lookup m b | None => None end.
Proof.
  revert n. induction a as [|x a IH]; intros n; [reflexivity|]. simpl.
  destruct n as [c|es]; [reflexivity|].
  destruct (FS.assoc x es); [apply IH|reflexivity].
Qed.

Lemma lookup_snoc_dir n rel x m :
  FS.lookup n (rel ++ [x]) = Some m -> dir_at n rel = true.
Proof.
  rewrite lookup_app. unfold dir_at.
  destruct (FS.lookup n rel) as [[c|es]|]; simpl; [discriminate|reflexivity|discriminate].
Qed.

Lemma wf_lookup n rel m :
  FS.wf n = true -> FS.lookup n rel = Some m -> FS.wf m = true.
Proof.
  revert n. induction rel as [|x rel IH]; intros n Hwf; simpl.
  - now intros [= <-].
  - destruct n as [c|es]; [discriminate|].
    destruct (FS.assoc x es) as [c|] eqn:Hc; [|discriminate].
    apply IH. apply wf_dir in Hwf as (_ & _ & Hwfs).
    rewrite List.Forall_forall in Hwfs. apply assoc_In in Hc.
    exact (Hwfs _ Hc).
Qed.

Lemma is_dir_exists fs p : FS.is_dir fs p = true -> FS.exists_ fs p = true.
Proof.
  unfold FS.is_dir, FS.exists_. now destruct (FS.at_path fs p).
Qed.

(** What one directory of the walk contributes. *)
Lemma find_step fs d :
  flat_map
    (fun huldra_dir =>
       if FS.is_dir fs huldra_dir
       then if FS.is_file fs (huldra_dir </> STATE_FILE)
            then [PathLib.parent huldra_dir] else []
       else [])
    (if FS.exists_ fs (d </> INTERNAL_DIR) then [d </> INTERNAL_DIR] else [])
  = if has_state_file INTERNAL_DIR STATE_FILE fs d then [d] else [].
Proof.
  unfold has_state_file.
  destruct (FS.is_dir fs (d </> INTERNAL_DIR)) eqn:Hd.
  - rewrite (is_dir_exists _ _ Hd). simpl. rewrite Hd.
    rewrite parent_div_name by now apply of_str_name.
    now destruct (FS.is_file fs _).
  - destruct (FS.exists_ fs _); simpl; [now rewrite Hd|reflexivity].
Qed.

(** [_find_experiment_dirs] keeps, of the directories of the walk, those
    that hold a state file. *)
Lemma find_experiment_dirs_filter fs top :
  _find_experiment_dirs INTERNAL_DIR STATE_FILE fs top =
  match FS.at_path fs top with
  | Some n =>
      List.filter (has_state_file INTERNAL_DIR STATE_FILE fs)
        (FS.iterate_directories top n)
  | None => []
  end.
Proof.
  unfold _find_experiment_dirs, FS.rglob.
  destruct (FS.at_path fs top) as [n|]; [|reflexivity].
  induction (FS.iterate_directories top n) as [|d l IH]; [reflexivity|].
  simpl. rewrite flat_map_app, IH, find_step.
  now destruct (has_state_file _ _ fs d).
Qed.

Lemma find_experiment_dirs_spec fs top d :
  FS.wf fs = true ->
  In d (_find_experiment_dirs INTERNAL_DIR STATE_FILE fs top) <->
  FS.exists_ fs top = true /\ under top d
  /\ has_state_file INTERNAL_DIR STATE_FILE fs d = true.
Proof.
  intros Hwf. rewrite find_experiment_dirs_filter. unfold FS.exists_.
  destruct (FS.at_path fs top) as [n|] eqn:Hn.
  2:{ split; [contradiction|]. intros [? _]. discriminate. }
  assert (Hwfn : FS.wf n = true) by (eapply wf_lookup; eauto).
  rewrite filter_In, (iterate_directories_spec n Hwfn). split.
  - intros [(rel & -> & _) Hs]. repeat split; [|assumption].
    now exists rel.
  - intros (_ & [Hr (rel & Hrel)] & Hs). split; [|assumption].
    exists rel. split; [destruct d; simpl in *; congruence|].
    unfold has_state_file in Hs. apply andb_true_iff in Hs as [Hd _].
    unfold FS.is_dir, FS.at_path in Hd.
    rewrite div_valid in Hd by assumption. simpl in Hd.
    destruct (FS.lookup fs (names d ++ [INTERNAL_DIR])) as [m|] eqn:Hm;
      [|discriminate].
    apply lookup_snoc_dir in Hm. unfold dir_at in *.
    unfold FS.at_path in Hn. rewrite Hrel, lookup_app, Hn in Hm. exact Hm.
Qed.


Lemma iter_roots_spec config fs top :
  In top (_iter_roots config fs) <->
  (top = Config.get_root config false \/ top = Config.get_root config true)
  /\ FS.exists_ fs top = true.
Proof.
  unfold _iter_roots. cbn [flat_map]. rewrite List.app_nil_r, in_app_iff. split.
  - intros [H|H].
    + destruct (FS.exists_ fs (Config.get_root config false)) eqn:E;
        [|destruct H]. destruct H as [<-|[]]. auto.
    + destruct (FS.exists_ fs (Config.get_root config true)) eqn:E;
        [|destruct H]. destruct H as [<-|[]]. auto.
  - intros [[->| ->] E]; rewrite E; simpl; auto.
Qed.



Lemma insert_desc_perm x l : Permutation (insert_desc x l) (x :: l).
Proof.
  induction l as [|y l IH]; simpl; [reflexivity|].
  destruct (key_lt (sort_key x) (sort_key y)); [|reflexivity].
  rewrite IH. apply perm_swap.
Qed.

(** Sorting only reorders. *)
Lemma sort_reverse_perm l : Permutation (sort_reverse l) l.
Proof.
  induction l as [|x l IH]; simpl; [reflexivity|].
  now rewrite insert_desc_perm, IH.
Qed.

(** Below its root every directory has a namespace and a hash. *)
Lemma parse_namespace_under top d :
  under top d -> exists ns h, _parse_namespace_from_path d top = Ok (ns, h).
Proof.
  intros [Hr (rel & Hrel)]. unfold _parse_namespace_from_path.
  replace d with (mkPath (root top) (names top ++ rel))
    by (destruct d; simpl in *; congruence).
  rewrite relative_to_under. cbn [mbind result_bind].
  destruct (length _ <? 2)%nat; eauto.
Qed.




End ScanFacts.

(** ** The order of the result *)

Section SortFacts.

Import PyStr Scanner Models Spec.
Local Open Scope list_scope.

Lemma ltb_leb (a b : string) : String.ltb a b = negb (String.leb b a).
Proof.
  unfold String.ltb, String.leb. rewrite (String.compare_antisym b a).
  now destruct (String.compare a b).
Qed.

Lemma ltb_asym (a b : string) : String.ltb a b = true -> String.ltb b a = false.
Proof.
  unfold String.ltb. rewrite (String.compare_antisym a b).
  now destruct (String.compare b a).
Qed.

Lemma ltb_cotrans (a b c : string) :
  String.ltb a b = false -> String.ltb b c = false -> String.ltb a c = false.
Proof.
  rewrite !ltb_leb, !negb_false_iff. intros Hba Hcb.
  apply Is_true_true. apply Is_true_true in Hba, Hcb.
  change (String.le c a). change (String.le b a) in Hba.
  change (String.le c b) in Hcb. now transitivity b.
Qed.

Lemma key_lt_asym a b : key_lt a b = true -> key_lt b a = false.
Proof.
  destruct a as [[] sa], b as [[] sb]; unfold key_lt; simpl;
    try discriminate; try reflexivity; apply ltb_asym.
Qed.

Lemma key_lt_cotrans a b c :
  key_lt a b = false -> key_lt b c = false -> key_lt a c = false.
Proof.
  destruct a as [[] sa], b as [[] sb], c as [[] sc]; unfold key_lt; simpl;
    try discriminate; try reflexivity; apply ltb_cotrans.
Qed.

Lemma insert_desc_sorted x l :
  StronglySorted (fun a b => key_lt (sort_key a) (sort_key b) = false) l ->
  StronglySorted (fun a b => key_lt (sort_key a) (sort_key b) = false)
    (insert_desc x l).
Proof.
  induction 1 as [|y l Hl IH Hy]; simpl.
  - repeat constructor.
  - destruct (key_lt (sort_key x) (sort_key y)) eqn:Hxy.
    + constructor; [exact IH|]. rewrite insert_desc_perm.
      constructor; [now apply key_lt_asym | exact Hy].
    + constructor; [now constructor|]. constructor; [exact Hxy|].
      revert Hy. apply List.Forall_impl. intros z Hz.
      eapply key_lt_cotrans; eauto.
Qed.

(** The sorted list is in descending order of the key: no summary has a
    smaller key than one that comes after it. *)
Lemma sort_reverse_sorted l :
  StronglySorted (fun a b => key_lt (sort_key a) (sort_key b) = false)
    (sort_reverse l).
Proof.
  induction l as [|x l IH]; simpl; [constructor|]. now apply insert_desc_sorted.
Qed.

(** Unstamped summaries sort before stamped ones. *)
Lemma insert_desc_unstamped_first x a b :
  Forall (fun s => updated_at s = None) a ->
  Forall (fun s => updated_at s <> None) b ->
  exists a' b',
    insert_desc x (a ++ b) = (a' ++ b')%list
    /\ Forall (fun s => updated_at s = None) a'
    /\ Forall (fun s => updated_at s <> None) b'.
Proof.
  intros Ha Hb. destruct (updated_at x) as [stamp|] eqn:Hx.
  - induction Ha as [|y a Hy Ha IH].
    + exists [], (insert_desc x b). split; [reflexivity|]. split; [constructor|].
      rewrite insert_desc_perm. constructor; [congruence|assumption].
    + destruct IH as (a' & b' & E & Ha' & Hb').
      exists (y :: a'), b'. cbn [app insert_desc]. unfold sort_key at 1 2.
      rewrite Hx, Hy. cbn [key_lt fst snd negb andb orb]. rewrite E.
      split; [reflexivity|]. split; [now constructor|assumption].
  - exists (x :: a), b. split; [|split; [now constructor|assumption]].
    destruct a as [|y a]; [destruct b as [|y b]|]; cbn [app insert_desc];
      try reflexivity; unfold sort_key at 1 2; rewrite Hx;
      destruct (updated_at y); reflexivity.
Qed.

(** In the sorted list every summary without [updated_at] comes before
    every summary with one. *)
Lemma sort_reverse_unstamped_first l :
  exists a b,
    sort_reverse l = (a ++ b)%list
    /\ Forall (fun s => updated_at s = None) a
    /\ Forall (fun s => updated_at s <> None) b.
Proof.
  induction l as [|x l (a & b & E & Ha & Hb)].
  - exists [], []. repeat split; constructor.
  - cbn [sort_reverse fold_right]. fold (sort_reverse l). rewrite E.
    now apply insert_desc_unstamped_first.
Qed.

End SortFacts.

(** ** The scanner on the sample installation *)

Section SampleFacts.

Import PyStr Scanner Models Spec.


(** C8, on the sample tree: the experiment without [updated_at] is listed
    first, before the two that have one; those two are newest first. *)
Theorem scan_lists_unstamped_first :
  match scan_experiments Sample.internal_dir Sample.state_file
          Sample.read_state Sample.config Sample.tree None None None with
  | Ok out =>
      map (fun s => (huldra_hash s, updated_at s)) out
      = [("bbb", None);
         ("ccc", Some "2025-06-01T00:00:00+00:00");
         ("aaa", Some "2024-01-01T00:00:00+00:00")]
  | Raise _ => False
  end.
Proof. vm_compute. reflexivity. Qed.

End SampleFacts.



(** ** More on [scan_experiments] *)

Section ScanMore.

Import PyStr Scanner Models Spec Spec2.
Local Open Scope list_scope.

Variables INTERNAL_DIR STATE_FILE : string.
Variable read_state : node -> Path -> result _HuldraState.
Hypothesis internal_valid : FS.valid_name INTERNAL_DIR = true.

(** Inserting before a list of smaller keys puts the element in front. *)
Lemma insert_desc_front x l :
  Forall (fun z => key_lt (sort_key x) (sort_key z) = false) l ->
  insert_desc x l = x :: l.
Proof.
  intros H. destruct H as [|z l Hz _]; simpl; [reflexivity|]. now rewrite Hz.
Qed.

Lemma filter_insert_desc p x l :
  StronglySorted (fun a b => key_lt (sort_key a) (sort_key b) = false) l ->
  List.filter p (insert_desc x l) =
  if p x then insert_desc x (List.filter p l) else List.filter p l.
Proof.
  induction 1 as [|y l Hl IH Hy]; simpl.
  - now destruct (p x).
  - destruct (key_lt (sort_key x) (sort_key y)) eqn:Hxy.
    + simpl. rewrite IH. destruct (p y), (p x); simpl; try reflexivity.
      now rewrite Hxy.
    + simpl. destruct (p x) eqn:Hx; [|reflexivity].
      symmetry. apply (insert_desc_front x (List.filter p (y :: l))).
      apply List.Forall_forall. intros z Hz. apply filter_In in Hz as [Hz _].
      destruct Hz as [<-|Hz]; [exact Hxy|].
      rewrite List.Forall_forall in Hy.
      eapply key_lt_cotrans; [exact Hxy | now apply Hy].
Qed.

(** Sorting and filtering can be done in either order. *)
Lemma sort_reverse_filter p l :
  sort_reverse (List.filter p l) = List.filter p (sort_reverse l).
Proof.
  induction l as [|x l IH]; [reflexivity|].
  cbn [sort_reverse fold_right List.filter]. fold (sort_reverse l).
  rewrite filter_insert_desc by apply sort_reverse_sorted.
  destruct (p x); [|exact IH].
  cbn [sort_reverse fold_right]. fold (sort_reverse (List.filter p l)).
  now rewrite IH.
Qed.

Lemma for_each_filter {A B} (p : B -> bool) (f g : A -> result (list B)) l :
  (forall a, In a l -> f a = (xs ← g a; Ok (List.filter p xs))) ->
  for_each f l = (xs ← for_each g l; Ok (List.filter p xs)).
Proof.
  induction l as [|a l IH]; intros H; [reflexivity|].
  cbn [for_each]. rewrite (H a (or_introl eq_refl)), IH
    by (intros; apply H; now right).
  destruct (g a) as [xs|e]; [|reflexivity]. cbn [mbind result_bind].
  destruct (for_each g l) as [ys|e]; [|reflexivity]. cbn [mbind result_bind].
  now rewrite List.filter_app.
Qed.

(** A round that raises ends the loop with an exception. *)
Lemma for_each_raises {A B} (f : A -> result (list B)) l a e :
  In a l -> f a = Raise e -> exists e', for_each f l = Raise e'.
Proof.
  induction l as [|b l IH]; [contradiction|]. intros [->|Hin] Hf; cbn [for_each].
  - rewrite Hf. eauto.
  - destruct (f b); cbn [mbind result_bind]; [|eauto].
    destruct (IH Hin Hf) as (e' & ->). eauto.
Qed.

(** Filtering is the same as scanning everything and keeping the
    summaries that pass. *)
Lemma scan_filtered
    (config : FuruConfig) (fs : node)
    (result_status attempt_status namespace_prefix : option string) :
  scan_experiments INTERNAL_DIR STATE_FILE read_state config fs
    result_status attempt_status namespace_prefix
  = (everything ←
       scan_experiments INTERNAL_DIR STATE_FILE read_state config fs
         None None None;
     Ok (List.filter (passes result_status attempt_status namespace_prefix)
           everything)).
Proof.
  unfold scan_experiments.
  set (p := passes result_status attempt_status namespace_prefix).
  match goal with
  | |- (_ ← for_each ?f _; _) = (_ ← (_ ← for_each ?g _; _); _) =>
      rewrite (for_each_filter p f g)
  end.
  - destruct (for_each _ _) as [found|e]; [|reflexivity].
    cbn [mbind result_bind]. now rewrite sort_reverse_filter.
  - intros top _. apply for_each_filter. intros d _.
    destruct (read_state fs d) as [st|e]; [|reflexivity].
    cbn [mbind result_bind].
    destruct (_parse_namespace_from_path d top) as [[ns h]|e]; [|reflexivity].
    cbn [mbind result_bind active List.filter]. unfold p, passes.
    destruct (active result_status) as [f1|];
      destruct (active attempt_status) as [f2|];
      destruct (active namespace_prefix) as [f3|]; cbn [negb andb];
      repeat match goal with
             | |- context [String.eqb ?a ?b] => destruct (String.eqb a b)
             | |- context [bool_decide ?a] => destruct (bool_decide a)
             | |- context [startswith ?a ?b] => destruct (startswith a b)
             end; reflexivity.
Qed.

Lemma filter_true {A} (p : A -> bool) l :
  (forall a, p a = true) -> List.filter p l = l.
Proof.
  intros H. induction l as [|x l IH]; [reflexivity|]. simpl.
  now rewrite H, IH.
Qed.

(** X1.  Filtering is the same as scanning everything and keeping the
    summaries that pass: the same exception when the scan of everything
    raises, and otherwise the passing summaries in the same order.  A
    filter that is [None] or the empty string keeps everything. *)
Theorem scan_filters_after_the_fact
    (config : FuruConfig) (fs : node)
    (result_status attempt_status namespace_prefix : option string) :
  let scan := scan_experiments INTERNAL_DIR STATE_FILE read_state config fs in
  scan result_status attempt_status namespace_prefix
  = (everything ← scan None None None;
     Ok (List.filter (passes result_status attempt_status namespace_prefix)
           everything))
  /\ (In result_status [None; Some ""] -> In attempt_status [None; Some ""] ->
      In namespace_prefix [None; Some ""] ->
      scan result_status attempt_status namespace_prefix = scan None None None).
Proof.
  intros scan. unfold scan. split; [apply scan_filtered|].
  intros H1 H2 H3. rewrite scan_filtered.
  destruct (scan_experiments _ _ _ _ _ None None None) as [out|e];
    [|reflexivity].
  cbn [mbind result_bind]. rewrite filter_true; [reflexivity|].
  intros s. unfold passes.
  destruct H1 as [<-|[<-|[]]], H2 as [<-|[<-|[]]], H3 as [<-|[<-|[]]];
    reflexivity.
Qed.

(** What [scan_experiments] returns is a sorted list. *)
Lemma scan_sorted config fs f1 f2 f3 out :
  scan_experiments INTERNAL_DIR STATE_FILE read_state config fs f1 f2 f3
  = Ok out ->
  exists found, out = sort_reverse found.
Proof.
  unfold scan_experiments. destruct (for_each _ _) as [found|e]; [|discriminate].
  cbn [mbind result_bind]. intros [= <-]. now exists found.
Qed.

(** X2.  The order of the list that [scan_experiments] returns, whatever
    the filters: first the summaries without [updated_at], then those
    with one, in descending order of the stamp. *)
Theorem scan_order
    (config : FuruConfig) (fs : node)
    (result_status attempt_status namespace_prefix : option string)
    (out : list ExperimentSummary) :
  scan_experiments INTERNAL_DIR STATE_FILE read_state config fs
    result_status attempt_status namespace_prefix = Ok out ->
  exists unstamped stamped,
    out = unstamped ++ stamped
    /\ Forall (fun s => updated_at s = None) unstamped
    /\ Forall (fun s => updated_at s <> None) stamped
    /\ StronglySorted not_older stamped.
Proof.
  intros H. apply scan_sorted in H as (found & ->).
  destruct (sort_reverse_unstamped_first found) as (a & b & E & Ha & Hb).
  exists a, b. repeat split; try assumption.
  pose proof (sort_reverse_sorted found) as Hs. rewrite E in Hs.
  apply StronglySorted_app_1_r in Hs. clear -Hs.
  induction Hs as [|x l Hl IH Hx]; constructor; [exact IH|].
  revert Hx. apply List.Forall_impl. intros y Hxy ta tb Ha Hb.
  unfold sort_key, key_lt in Hxy. rewrite Ha, Hb in Hxy. exact Hxy.
Qed.

(** A list whose keys are all the same is sorted as it is. *)
Lemma sort_reverse_same_key k l :
  Forall (fun s => sort_key s = k) l -> sort_reverse l = l.
Proof.
  induction 1 as [|x l Hx Hl IH]; [reflexivity|].
  cbn [sort_reverse fold_right]. fold (sort_reverse l). rewrite IH.
  apply insert_desc_front. revert Hl. apply List.Forall_impl.
  intros y ->. rewrite Hx.
  destruct (key_lt k k) eqn:E; [|reflexivity].
  now rewrite (key_lt_asym _ _ E) in E.
Qed.

(** X3.  The sort of [scan_experiments] is stable: the summaries that
    share an [updated_at] (or lack one) stay in the order in which they
    were found. *)
Theorem sort_reverse_stable
    (stamp : option string) (l : list ExperimentSummary) :
  List.filter (fun s => bool_decide (updated_at s = stamp)) (sort_reverse l)
  = List.filter (fun s => bool_decide (updated_at s = stamp)) l.
Proof.
  rewrite <- sort_reverse_filter.
  apply (sort_reverse_same_key
           (match stamp with None => true | Some _ => false end,
            default "" stamp)).
  apply List.Forall_forall. intros s Hs. apply filter_In in Hs as [_ Hs].
  apply bool_decide_eq_true in Hs. unfold sort_key. now rewrite Hs.
Qed.

(** One round of the inner loop raises what [read_state] raises. *)
Lemma scan_round_raise fs top d f1 f2 f3 e :
  under top d ->
  (state ← read_state fs d;
   '(namespace, huldra_hash) ← _parse_namespace_from_path d top;
   let summary := _state_to_summary state namespace huldra_hash in
   if match active f1 with
      | Some f => negb (String.eqb (Models.result_status summary) f)
      | None => false
      end then Ok []
   else if match active f2 with
           | Some f => negb (bool_decide (Models.attempt_status summary = Some f))
           | None => false
           end then Ok []
   else if match active f3 with
           | Some f => negb (startswith (Models.namespace summary) f)
           | None => false
           end then Ok []
   else Ok [summary]) = Raise e
  <-> read_state fs d = Raise e.
Proof.
  intros Hu. destruct (parse_namespace_under top d Hu) as (ns & h & ->).
  destruct (read_state fs d) as [st|e']; cbn [mbind result_bind];
    [|split; intros [= ->]; reflexivity].
  split; [|discriminate].
  repeat match goal with
         | |- context [if ?b then _ else _] => destruct b
         end; discriminate.
Qed.

(** X4.  An unreadable state stops the scan, whatever the filters: on
    a well-formed tree, when [read_state] raises on one of the experiment
    directories that [_find_experiment_dirs] finds under an existing
    root, [scan_experiments] raises; a filter cannot hide it.  And
    [_parse_namespace_from_path] raises on none of these directories. *)
Theorem unreadable_state_stops_the_scan
    (config : FuruConfig) (fs : node)
    (result_status attempt_status namespace_prefix : option string) :
  FS.wf fs = true ->
  (forall top d,
      In top (_iter_roots config fs) ->
      In d (_find_experiment_dirs INTERNAL_DIR STATE_FILE fs top) ->
      exists ns h, _parse_namespace_from_path d top = Ok (ns, h))
  /\ (forall top d e,
         In top (_iter_roots config fs) ->
         In d (_find_experiment_dirs INTERNAL_DIR STATE_FILE fs top) ->
         read_state fs d = Raise e ->
         exists e',
           scan_experiments INTERNAL_DIR STATE_FILE read_state config fs
             result_status attempt_status namespace_prefix = Raise e').
Proof.
  intros Hwf. split.
  - intros top d _ Hd.
    apply (find_experiment_dirs_spec INTERNAL_DIR STATE_FILE internal_valid)
      in Hd as (_ & Hu & _); [|assumption].
    now apply parse_namespace_under.
  - intros top d e Htop Hd Hr. unfold scan_experiments.
    match goal with
    | |- context [for_each ?f (_iter_roots config fs)] => set (round := f)
    end.
    assert (exists e', round top = Raise e') as (e' & E).
    { apply (for_each_raises _ _ d e); [exact Hd|].
      apply scan_round_raise; [|exact Hr].
      apply (find_experiment_dirs_spec INTERNAL_DIR STATE_FILE internal_valid)
        in Hd as (_ & Hu & _); assumption. }
    destruct (for_each_raises round _ top e' Htop E) as (e'' & ->). eauto.
Qed.

End ScanMore.

(** The sample installation, scanned without filters. *)
Lemma scan_order_witness :
  match Scanner.scan_experiments Sample.internal_dir Sample.state_file
          Sample.read_state Sample.config Sample.tree None None None with
  | Ok out =>
      exists unstamped stamped,
        out = (unstamped ++ stamped)%list
        /\ Forall (fun s => Models.updated_at s = None) unstamped
        /\ Forall (fun s => Models.updated_at s <> None) stamped
        /\ StronglySorted Spec2.not_older stamped
  | Raise _ => False
  end.
Proof.
  destruct (Scanner.scan_experiments _ _ _ _ _ _ _ _) as [out|e] eqn:E;
    [|vm_compute in E; discriminate E].
  apply (scan_order Sample.internal_dir Sample.state_file Sample.read_state
           Sample.config Sample.tree None None None out E).
Defined.

(** A tree with one damaged state file, scanned for failed runs. *)
Lemma unreadable_state_stops_the_scan_witness :
  (forall top d,
      In top (Scanner._iter_roots Sample.config Sample.damaged_tree) ->
      In d (Scanner._find_experiment_dirs Sample.internal_dir
              Sample.state_file Sample.damaged_tree top) ->
      exists ns h, Scanner._parse_namespace_from_path d top = Ok (ns, h))
  /\ (forall top d e,
         In top (Scanner._iter_roots Sample.config Sample.damaged_tree) ->
         In d (Scanner._find_experiment_dirs Sample.internal_dir
                 Sample.state_file Sample.damaged_tree top) ->
         Sample.read_state_strict Sample.damaged_tree d = Raise e ->
         exists e',
           Scanner.scan_experiments Sample.internal_dir Sample.state_file
             Sample.read_state_strict Sample.config Sample.damaged_tree
             (Some "failed") None None = Raise e').
Proof.
  apply (unreadable_state_stops_the_scan Sample.internal_dir Sample.state_file
           Sample.read_state_strict eq_refl Sample.config Sample.damaged_tree
           (Some "failed") None None eq_refl).
Defined.

(** ** [get_stats] *)

Section CountFacts.

Import PyStr Scanner Models Spec Spec2 Stats.
Local Open Scope list_scope.
Local Open Scope Z_scope.

Lemma count_where_cons {A} (p : A -> bool) x l :
  count_where p (x :: l) = (if p x then 1 else 0) + count_where p l.
Proof.
  unfold count_where. cbn [List.filter]. destruct (p x); cbn [length]; lia.
Qed.

Lemma count_where_nonneg {A} (p : A -> bool) l : 0 <= count_where p l.
Proof. unfold count_where. lia. Qed.

Lemma count_where_le {A} (p : A -> bool) l :
  count_where p l <= Z.of_nat (length l).
Proof.
  induction l as [|x l IH]; [reflexivity|].
  rewrite count_where_cons. cbn [length]. destruct (p x); lia.
Qed.

Lemma count_where_map {A B} (f : A -> B) (p : B -> bool) l :
  count_where p (map f l) = count_where (fun a => p (f a)) l.
Proof.
  induction l as [|x l IH]; [reflexivity|].
  cbn [map]. now rewrite !count_where_cons, IH.
Qed.

Lemma count_where_ext {A} (p q : A -> bool) l :
  (forall a, p a = q a) -> count_where p l = count_where q l.
Proof.
  intros H. induction l as [|x l IH]; [reflexivity|].
  now rewrite !count_where_cons, IH, H.
Qed.

Lemma count_where_perm {A} (p : A -> bool) l l' :
  Permutation l l' -> count_where p l = count_where p l'.
Proof.
  induction 1 as [|x l l' _ IH|x y l|l l' l'' _ IH1 _ IH2];
    rewrite ?count_where_cons; try lia; congruence.
Qed.

(** The statuses that are there, counted one by one. *)
Lemma count_where_omap {A} (f : A -> option string) (st : string) l :
  count_where (String.eqb st) (omap f l)
  = count_where (fun a => bool_decide (f a = Some st)) l.
Proof.
  induction l as [|x l IH]; [reflexivity|].
  cbn [omap list_omap]. rewrite count_where_cons.
  destruct (f x) as [a|] eqn:E.
  - rewrite count_where_cons, IH.
    destruct (String.eqb_spec st a) as [->|Hne].
    + now rewrite bool_decide_eq_true_2.
    + rewrite bool_decide_eq_false_2; [reflexivity|congruence].
  - rewrite IH. rewrite bool_decide_eq_false_2; [reflexivity|congruence].
Qed.

Lemma length_omap_le {A B} (f : A -> option B) l :
  (length (omap f l) <= length l)%nat.
Proof.
  induction l as [|x l IH]; [reflexivity|].
  cbn [omap list_omap]. destruct (f x); cbn [length]; lia.
Qed.

(** *** Counting in a dictionary *)

Lemma bump_lookup (d : gmap string Z) a k :
  bump d a !! k
  = if String.eqb k a then Some (default 0 (d !! a) + 1) else d !! k.
Proof.
  unfold bump. destruct (String.eqb_spec k a) as [->|Hne].
  - apply lookup_insert_eq.
  - apply lookup_insert_ne. congruence.
Qed.

Lemma bump_fold_lookup ks (d : gmap string Z) k :
  default 0 (fold_left bump ks d !! k)
  = default 0 (d !! k) + count_where (String.eqb k) ks.
Proof.
  revert d. induction ks as [|a ks IH]; intros d.
  - unfold count_where. simpl. lia.
  - cbn [fold_left]. rewrite IH, bump_lookup, count_where_cons.
    destruct (String.eqb_spec k a) as [->|Hne]; simpl; lia.
Qed.

Lemma bump_fold_positive ks (d : gmap string Z) :
  map_Forall (fun _ v => 1 <= v) d ->
  map_Forall (fun _ v => 1 <= v) (fold_left bump ks d).
Proof.
  revert d. induction ks as [|a ks IH]; intros d Hd; [exact Hd|].
  cbn [fold_left]. apply IH. unfold bump. apply map_Forall_insert_2; [|exact Hd].
  destruct (d !! a) as [v|] eqn:E; simpl; [|lia].
  specialize (Hd a v E). simpl in Hd. lia.
Qed.

(** *** The order of the items *)

Lemma ltb_trans (a b c : string) :
  String.ltb a b = true -> String.ltb b c = true -> String.ltb a c = true.
Proof.
  intros Hab Hbc. destruct (String.ltb a c) eqn:Hac; [reflexivity|].
  pose proof (ltb_asym _ _ Hab) as Hba.
  pose proof (ltb_cotrans _ _ _ Hba Hac) as Hbc'. congruence.
Qed.

Lemma ltb_irrefl (a : string) : String.ltb a a = false.
Proof.
  destruct (String.ltb a a) eqn:E; [|reflexivity].
  now rewrite (ltb_asym _ _ E) in E.
Qed.

Lemma ltb_total (a b : string) :
  String.ltb a b = true \/ a = b \/ String.ltb b a = true.
Proof.
  unfold String.ltb. rewrite (String.compare_antisym a b).
  destruct (String.compare b a) eqn:E; simpl; auto.
  apply String.compare_eq_iff in E. auto.
Qed.

#[local] Instance item_le_total : Total item_le.
Proof.
  intros [a x] [b y]. unfold item_le, item_leb. cbn [fst snd].
  destruct (ltb_total a b) as [H|[->|H]].
  - left. now rewrite H.
  - rewrite String.eqb_refl, ltb_irrefl. cbn [orb andb].
    destruct (Z.leb_spec x y); [now left|right].
    apply Z.leb_le. lia.
  - right. now rewrite H.
Qed.

#[local] Instance item_le_trans : Transitive item_le.
Proof.
  intros [a x] [b y] [c z]. unfold item_le, item_leb. cbn [fst snd].
  intros H1 H2.
  apply orb_true_iff in H1 as [H1|H1], H2 as [H2|H2].
  - now rewrite (ltb_trans _ _ _ H1 H2).
  - apply andb_true_iff in H2 as [E _]. apply String.eqb_eq in E as <-.
    now rewrite H1.
  - apply andb_true_iff in H1 as [E _]. apply String.eqb_eq in E as ->.
    now rewrite H2.
  - apply andb_true_iff in H1 as [E1 L1], H2 as [E2 L2].
    apply String.eqb_eq in E1 as ->. apply String.eqb_eq in E2 as ->.
    rewrite String.eqb_refl. apply Z.leb_le in L1, L2.
    apply orb_true_iff. right. apply Z.leb_le. lia.
Qed.

Lemma sorted_items_perm (d : gmap string Z) :
  Permutation (sorted_items d) (map_to_list d).
Proof. apply merge_sort_Permutation. Qed.

Lemma sorted_items_NoDup (d : gmap string Z) :
  List.NoDup (map fst (sorted_items d)).
Proof.
  apply NoDup_ListNoDup. rewrite sorted_items_perm.
  apply NoDup_fst_map_to_list.
Qed.

Lemma sorted_items_In (d : gmap string Z) k v :
  In (k, v) (sorted_items d) <-> d !! k = Some v.
Proof.
  rewrite <- elem_of_map_to_list, <- list_elem_of_In.
  now rewrite sorted_items_perm.
Qed.

(** *** The tables of [get_stats] *)

Lemma count_of_In (l : list (string * Z)) st v :
  List.NoDup (map fst l) -> In (st, v) l ->
  count_of st (map (fun item => mkStatusCount (fst item) (snd item)) l) = v.
Proof.
  induction l as [|[k w] l IH]; [contradiction|].
  cbn [map fst snd count_of status count]. intros Hnd Hin.
  apply List.NoDup_cons_iff in Hnd as [Hk Hnd].
  destruct Hin as [[= -> ->]|Hin]; [now rewrite String.eqb_refl|].
  destruct (String.eqb_spec k st) as [->|Hne]; [|now apply IH].
  destruct Hk. change st with (fst (st, v)). now apply in_map.
Qed.

Lemma count_of_not_In (l : list (string * Z)) st :
  ~ In st (map fst l) ->
  count_of st (map (fun item => mkStatusCount (fst item) (snd item)) l) = 0.
Proof.
  induction l as [|[k w] l IH]; [reflexivity|].
  cbn [map fst snd count_of status count]. intros Hin.
  destruct (String.eqb_spec k st) as [->|Hne]; [destruct Hin; now left|].
  apply IH. intros H. apply Hin. now right.
Qed.

(** Looking a status up in the table gives its count in the dictionary. *)
Lemma count_of_status_counts (d : gmap string Z) st :
  count_of st (status_counts d) = default 0 (d !! st).
Proof.
  unfold status_counts. destruct (d !! st) as [v|] eqn:E; simpl.
  - apply count_of_In; [apply sorted_items_NoDup|]. now apply sorted_items_In.
  - apply count_of_not_In. intros H. apply in_map_iff in H as ([k v] & <- & H).
    apply sorted_items_In in H. simpl in E. congruence.
Qed.

Lemma count_sum_perm (l l' : list (string * Z)) :
  Permutation l l' ->
  count_sum (map (fun item => mkStatusCount (fst item) (snd item)) l)
  = count_sum (map (fun item => mkStatusCount (fst item) (snd item)) l').
Proof.
  induction 1 as [|x l l' _ IH|x y l|l l' l'' _ IH1 _ IH2]; simpl;
    try lia; congruence.
Qed.

Lemma count_sum_bump (d : gmap string Z) k :
  count_sum (status_counts (bump d k)) = count_sum (status_counts d) + 1.
Proof.
  unfold status_counts.
  rewrite (count_sum_perm _ _ (sorted_items_perm (bump d k))).
  rewrite (count_sum_perm _ _ (sorted_items_perm d)).
  unfold bump. destruct (d !! k) as [v|] eqn:E; cbn [default from_option id].
  - rewrite <- insert_delete_eq.
    rewrite (count_sum_perm _ _
               (map_to_list_insert (delete k d) k (v + 1)
                  (lookup_delete_eq d k))).
    rewrite <- (count_sum_perm _ _ (map_to_list_delete d k v E)).
    simpl. lia.
  - rewrite (count_sum_perm _ _ (map_to_list_insert d k (0 + 1) E)).
    simpl. lia.
Qed.

Lemma count_sum_fold ks (d : gmap string Z) :
  count_sum (status_counts (fold_left bump ks d))
  = count_sum (status_counts d) + Z.of_nat (length ks).
Proof.
  revert d. induction ks as [|a ks IH]; intros d; [simpl; lia|].
  cbn [fold_left length]. rewrite IH, count_sum_bump. lia.
Qed.

Lemma status_counts_empty : status_counts (∅ : gmap string Z) = [].
Proof. reflexivity. Qed.

(** The table is in strictly ascending order of the status. *)
Lemma status_counts_sorted (d : gmap string Z) :
  StronglySorted (fun a b => String.ltb (status a) (status b) = true)
    (status_counts d).
Proof.
  unfold status_counts.
  pose proof (StronglySorted_merge_sort item_le (map_to_list d)) as Hs.
  fold (sorted_items d) in Hs.
  pose proof (sorted_items_NoDup d) as Hnd.
  induction Hs as [|[k v] l Hl IH Hk]; [constructor|].
  cbn [map fst] in Hnd. apply List.NoDup_cons_iff in Hnd as [Hk' Hnd].
  cbn [map]. constructor; [now apply IH|].
  apply List.Forall_forall. intros sc Hsc.
  apply in_map_iff in Hsc as ([k' v'] & <- & Hin).
  rewrite List.Forall_forall in Hk. specialize (Hk _ Hin).
  unfold item_le, item_leb in Hk. cbn [fst snd status] in *.
  apply orb_true_iff in Hk as [Hk|Hk]; [exact Hk|].
  apply andb_true_iff in Hk as [Hk _]. apply String.eqb_eq in Hk as <-.
  destruct Hk'. change k with (fst (k, v')). now apply in_map.
Qed.

Lemma status_counts_positive ks :
  Forall (fun sc => 1 <= count sc) (status_counts (fold_left bump ks ∅)).
Proof.
  apply List.Forall_forall. intros sc Hsc. unfold status_counts in Hsc.
  apply in_map_iff in Hsc as ([k v] & <- & Hin).
  apply sorted_items_In in Hin.
  apply (bump_fold_positive ks ∅ (map_Forall_empty _) k v Hin).
Qed.

(** *** The loops of [get_stats] *)

Lemma loop_ext {A S} (f g : S -> A -> result S) l s :
  (forall s a, In a l -> f s a = g s a) -> loop f l s = loop g l s.
Proof.
  revert s. induction l as [|a l IH]; intros s H; [reflexivity|].
  cbn [loop]. rewrite (H s a (or_introl eq_refl)).
  destruct (g s a); cbn [mbind result_bind]; [|reflexivity].
  apply IH. intros; apply H. now right.
Qed.

Lemma loop_inner {A B S} (r : A -> result B) (v : S -> B -> S) l s :
  loop (fun c a => st ← r a; Ok (v c st)) l s
  = (sts ← for_each (fun a => st ← r a; Ok [st]) l; Ok (fold_left v sts s)).
Proof.
  revert s. induction l as [|a l IH]; intros s; [reflexivity|].
  cbn [loop for_each]. destruct (r a) as [st|e]; cbn [mbind result_bind];
    [|reflexivity].
  rewrite IH. now destruct (for_each _ l).
Qed.

Lemma loop_outer {A B S} (inner : A -> result (list B)) (v : S -> B -> S) l s :
  loop (fun c a => sts ← inner a; Ok (fold_left v sts c)) l s
  = (sts ← for_each inner l; Ok (fold_left v sts s)).
Proof.
  revert s. induction l as [|a l IH]; intros s; [reflexivity|].
  cbn [loop for_each]. destruct (inner a) as [sts|e]; cbn [mbind result_bind];
    [|reflexivity].
  rewrite IH. destruct (for_each _ l); cbn [mbind result_bind]; [|reflexivity].
  now rewrite fold_left_app.
Qed.

Lemma bool_decide_Some (a b : string) :
  bool_decide (Some a = Some b) = String.eqb a b.
Proof.
  destruct (String.eqb_spec a b) as [->|Hne].
  - now apply bool_decide_eq_true_2.
  - apply bool_decide_eq_false_2. congruence.
Qed.

(** What the loop of [get_stats] leaves in its variables. *)
Lemma visit_fold sts c :
  let c' := fold_left visit sts c in
  let ps := map state_statuses sts in
  c_total c' = c_total c + Z.of_nat (length ps)
  /\ c_success c'
     = c_success c + count_where (fun p => String.eqb (fst p) "success") ps
  /\ c_failed c'
     = c_failed c + count_where (fun p => String.eqb (fst p) "failed") ps
  /\ c_running c'
     = c_running c
       + count_where (fun p => bool_decide (snd p = Some "running")) ps
  /\ c_queued c'
     = c_queued c
       + count_where (fun p => bool_decide (snd p = Some "queued")) ps
  /\ result_counts c' = fold_left bump (map fst ps) (result_counts c)
  /\ attempt_counts c' = fold_left bump (omap snd ps) (attempt_counts c).
Proof.
  revert c. induction sts as [|st sts IH]; intros c; cbn zeta.
  - unfold count_where. simpl. repeat split; lia.
  - cbn [fold_left map]. specialize (IH (visit c st)). cbn zeta in IH.
    destruct IH as (H1 & H2 & H3 & H4 & H5 & H6 & H7).
    rewrite H1, H2, H3, H4, H5, H6, H7, !count_where_cons. clear.
    change (state_statuses st)
      with (res_status (st_result st), option_map att_status (st_attempt st)).
    cbn [fst snd length]. unfold visit.
    generalize (res_status (st_result st)). intros rs.
    destruct (st_attempt st) as [a|];
      cbn [option_map c_total c_success c_failed c_running c_queued
             result_counts attempt_counts omap list_omap fst snd fold_left].
    + rewrite !bool_decide_Some. generalize (att_status a). intros s.
      destruct (String.eqb_spec rs "success") as [->|_];
        [ change (String.eqb "success" "failed") with false
        | destruct (String.eqb rs "failed") ];
        (destruct (String.eqb_spec s "running") as [->|_];
         [ change (String.eqb "running" "queued") with false
         | destruct (String.eqb s "queued") ]);
        repeat split; lia.
    + rewrite !bool_decide_eq_false_2 by discriminate.
      destruct (String.eqb_spec rs "success") as [->|_];
        [ change (String.eqb "success" "failed") with false
        | destruct (String.eqb rs "failed") ];
        repeat split; lia.
Qed.

End CountFacts.

Section StatsFacts.

Import PyStr Scanner Models Spec Spec2 Stats.
Local Open Scope list_scope.
Local Open Scope Z_scope.

Variables INTERNAL_DIR STATE_FILE : string.
Variable read_state : node -> Path -> result _HuldraState.
Hypothesis internal_valid : FS.valid_name INTERNAL_DIR = true.

(** [get_stats] reads the states in the order of the walk and counts
    them. *)
Lemma get_stats_states config fs :
  get_stats INTERNAL_DIR STATE_FILE read_state config fs
  = (sts ← all_states INTERNAL_DIR STATE_FILE read_state config fs;
     let c := fold_left visit sts start in
     Ok (mkDashboardStats (c_total c)
           (status_counts (result_counts c))
           (status_counts (attempt_counts c))
           (c_running c) (c_queued c) (c_failed c) (c_success c))).
Proof.
  unfold get_stats, all_states.
  rewrite (loop_ext _
             (fun c top =>
                sts ← for_each (fun d => st ← read_state fs d; Ok [st])
                        (_find_experiment_dirs INTERNAL_DIR STATE_FILE fs top);
                Ok (fold_left visit sts c)))
    by (intros; apply loop_inner).
  rewrite loop_outer. now destruct (for_each _ _).
Qed.

Lemma for_each_agree {A B C} (R : list B -> list C -> Prop)
    (f : A -> result (list B)) (g : A -> result (list C)) (l : list A) :
  R [] [] ->
  (forall a b c d, R a b -> R c d -> R (a ++ c) (b ++ d)) ->
  (forall a, In a l -> agree R (f a) (g a)) ->
  agree R (for_each f l) (for_each g l).
Proof.
  intros Hnil Happ. induction l as [|a l IH]; intros H; [exact Hnil|].
  cbn [for_each]. specialize (H a (or_introl eq_refl)) as Ha.
  specialize (IH (fun a' Ha' => H a' (or_intror Ha'))).
  destruct (f a) as [bs|e], (g a) as [cs|e']; cbn [agree] in Ha;
    try contradiction; cbn [mbind result_bind]; [|exact Ha].
  destruct (for_each f l) as [bs'|e], (for_each g l) as [cs'|e'];
    cbn [agree] in IH; try contradiction; cbn [mbind result_bind agree]; auto.
Qed.

(** The scan without filters reads the same states in the same order. *)
Lemma scan_agrees_states config fs :
  FS.wf fs = true ->
  agree (fun out sts => Permutation (map statuses out) (map state_statuses sts))
    (scan_experiments INTERNAL_DIR STATE_FILE read_state config fs
       None None None)
    (all_states INTERNAL_DIR STATE_FILE read_state config fs).
Proof.
  intros Hwf. unfold scan_experiments, all_states.
  match goal with
  | |- agree _ (_ ← ?x; _) ?y =>
      assert (H : agree (fun found sts =>
                           map statuses found = map state_statuses sts) x y)
  end.
  { apply for_each_agree; [reflexivity| |].
    - intros a b c d Hab Hcd. now rewrite !map_app, Hab, Hcd.
    - intros top _. apply for_each_agree; [reflexivity| |].
      + intros a b c d Hab Hcd. now rewrite !map_app, Hab, Hcd.
      + intros d Hd.
        apply (find_experiment_dirs_spec INTERNAL_DIR STATE_FILE internal_valid)
          in Hd as (_ & Hu & _); [|assumption].
        destruct (parse_namespace_under top d Hu) as (ns & h & ->).
        now destruct (read_state fs d). }
  match type of H with
  | agree _ ?x ?y => destruct x as [found|e], y as [sts|e']
  end; cbn [agree mbind result_bind] in *; try assumption.
  rewrite <- H. apply Permutation_map, sort_reverse_perm.
Qed.

(** The statistics and the scan: both fail alike, or the statistics
    count states that are, up to order, those of the summaries. *)
Lemma stats_of_scan config fs :
  FS.wf fs = true ->
  agree (fun s out =>
           exists sts,
             Permutation (map statuses out) (map state_statuses sts)
             /\ let c := fold_left visit sts start in
                s = mkDashboardStats (c_total c)
                      (status_counts (result_counts c))
                      (status_counts (attempt_counts c))
                      (c_running c) (c_queued c) (c_failed c) (c_success c))
    (get_stats INTERNAL_DIR STATE_FILE read_state config fs)
    (scan_experiments INTERNAL_DIR STATE_FILE read_state config fs
       None None None).
Proof.
  intros Hwf. pose proof (scan_agrees_states config fs Hwf) as H.
  rewrite get_stats_states.
  destruct (scan_experiments _ _ _ _ _ _ _ _) as [out|e],
    (all_states _ _ _ _ _) as [sts|e'];
    cbn [agree mbind result_bind] in *; try contradiction; [|congruence].
  exists sts. split; [exact H|reflexivity].
Qed.

Lemma count_statuses (p : string * option string -> bool) out sts :
  Permutation (map statuses out) (map state_statuses sts) ->
  count_where (fun s => p (statuses s)) out
  = count_where p (map state_statuses sts).
Proof.
  intros H. rewrite <- (count_where_perm p _ _ H). now rewrite count_where_map.
Qed.

(** X5.  On a well-formed tree [get_stats] and [scan_experiments()]
    fail alike, with the same exception; otherwise [total] is the number
    of summaries of the scan, and the four named counters are the numbers
    of summaries whose result status is [success] or [failed] and whose
    attempt status is [running] or [queued]. *)
Theorem stats_count_the_scan (config : FuruConfig) (fs : node) :
  FS.wf fs = true ->
  match get_stats INTERNAL_DIR STATE_FILE read_state config fs,
        scan_experiments INTERNAL_DIR STATE_FILE read_state config fs
          None None None with
  | Ok s, Ok out =>
      total s = Z.of_nat (length out)
      /\ success_count s = count_where (has_result "success") out
      /\ failed_count s = count_where (has_result "failed") out
      /\ running_count s = count_where (has_attempt "running") out
      /\ queued_count s = count_where (has_attempt "queued") out
  | Raise e, Raise e' => e = e'
  | _, _ => False
  end.
Proof.
  intros Hwf. pose proof (stats_of_scan config fs Hwf) as H.
  destruct (get_stats _ _ _ _ _) as [s|e],
    (scan_experiments _ _ _ _ _ _ _ _) as [out|e'];
    cbn [agree] in H; try assumption.
  destruct H as (sts & Hperm & ->).
  destruct (visit_fold sts start) as (H1 & H2 & H3 & H4 & H5 & _).
  cbn zeta in *. cbn [total success_count failed_count running_count
                        queued_count].
  rewrite H1, H2, H3, H4, H5. cbn [start c_total c_success c_failed c_running
                                     c_queued].
  rewrite <- !(count_statuses _ out sts Hperm).
  rewrite <- (Permutation_length Hperm), !length_map.
  repeat split; reflexivity.
Qed.

(** The count that a table holds for a status. *)
Lemma table_counts sts out st :
  Permutation (map statuses out) (map state_statuses sts) ->
  count_of st (status_counts (result_counts (fold_left visit sts start)))
  = count_where (has_result st) out
  /\ count_of st (status_counts (attempt_counts (fold_left visit sts start)))
     = count_where (has_attempt st) out.
Proof.
  intros Hperm.
  destruct (visit_fold sts start) as (_ & _ & _ & _ & _ & H6 & H7).
  cbn zeta in *. rewrite H6, H7. cbn [start result_counts attempt_counts].
  rewrite !count_of_status_counts, !bump_fold_lookup.
  rewrite lookup_empty. cbn [default from_option id].
  rewrite count_where_map, count_where_omap, !Z.add_0_l.
  rewrite <- !(count_statuses _ out sts Hperm). split.
  - apply count_where_ext. intros a. apply String.eqb_sym.
  - reflexivity.
Qed.

(** X6.  The two tables of [get_stats]: for every status the table
    holds the number of summaries of the scan with that result status
    (attempt status), or no row when there is none; the rows are in
    strictly ascending order of the status and every count is at least
    one. *)
Theorem stats_tables_count_each_status
    (config : FuruConfig) (fs : node)
    (s : DashboardStats) (out : list ExperimentSummary) :
  FS.wf fs = true ->
  get_stats INTERNAL_DIR STATE_FILE read_state config fs = Ok s ->
  scan_experiments INTERNAL_DIR STATE_FILE read_state config fs
    None None None = Ok out ->
  (forall st,
      count_of st (by_result_status s) = count_where (has_result st) out
      /\ count_of st (by_attempt_status s) = count_where (has_attempt st) out)
  /\ (forall table,
         table = by_result_status s \/ table = by_attempt_status s ->
         StronglySorted
           (fun a b => String.ltb (status a) (status b) = true) table
         /\ Forall (fun row => 1 <= count row) table).
Proof.
  intros Hwf Hs Hout. pose proof (stats_of_scan config fs Hwf) as H.
  rewrite Hs, Hout in H. cbn [agree] in H. destruct H as (sts & Hperm & ->).
  cbn zeta. cbn [by_result_status by_attempt_status]. split.
  - intros st. now apply table_counts.
  - destruct (visit_fold sts start) as (_ & _ & _ & _ & _ & H6 & H7).
    cbn zeta in *. rewrite H6, H7. cbn [start result_counts attempt_counts].
    intros table [->| ->];
      (split; [apply status_counts_sorted|apply status_counts_positive]).
Qed.

(** X21.  A count of the tables is the length of the scan filtered by
    that status: when [get_stats] returns, the scans with
    [result_status=st] and with [attempt_status=st] return as well, for
    every non-empty [st], and they return as many summaries as the
    tables of [get_stats] count for [st]. *)
Theorem status_counts_match_filtered_scans
    (config : FuruConfig) (fs : node) (s : DashboardStats) (st : string) :
  FS.wf fs = true ->
  st <> ""%string ->
  get_stats INTERNAL_DIR STATE_FILE read_state config fs = Ok s ->
  exists by_result by_attempt,
    scan_experiments INTERNAL_DIR STATE_FILE read_state config fs
      (Some st) None None = Ok by_result
    /\ scan_experiments INTERNAL_DIR STATE_FILE read_state config fs
         None (Some st) None = Ok by_attempt
    /\ count_of st (by_result_status s) = Z.of_nat (length by_result)
    /\ count_of st (by_attempt_status s) = Z.of_nat (length by_attempt).
Proof.
  intros Hwf Hst Hs. pose proof (stats_of_scan config fs Hwf) as H.
  rewrite Hs in H. rewrite !(scan_filtered _ _ _ _ _ (Some st)).
  rewrite (scan_filtered _ _ _ _ _ None (Some st)).
  destruct (scan_experiments _ _ _ _ _ None None None) as [out|e];
    cbn [agree] in H; [|contradiction].
  destruct H as (sts & Hperm & ->). cbn [mbind result_bind].
  eexists _, _. split; [reflexivity|]. split; [reflexivity|].
  cbn zeta. cbn [by_result_status by_attempt_status].
  destruct (table_counts sts out st Hperm) as [-> ->].
  unfold count_where, passes, active, truthy.
  rewrite (proj2 (String.eqb_neq _ _) Hst). cbn [negb andb].
  split; do 2 f_equal; apply List.filter_ext; intros a;
    unfold has_result, has_attempt; now rewrite ?andb_true_r.
Qed.

(** X7.  The numbers of [get_stats] are consistent with each other: the
    counts of the result-status table add up to [total], those of the
    attempt-status table to no more; [success] and [failed] together are
    at most [total], [running] and [queued] together at most the sum of
    the attempt-status table; no counter is negative. *)
Theorem stats_add_up (config : FuruConfig) (fs : node) (s : DashboardStats) :
  get_stats INTERNAL_DIR STATE_FILE read_state config fs = Ok s ->
  count_sum (by_result_status s) = total s
  /\ count_sum (by_attempt_status s) <= total s
  /\ 0 <= success_count s /\ 0 <= failed_count s
  /\ success_count s + failed_count s <= total s
  /\ 0 <= running_count s /\ 0 <= queued_count s
  /\ running_count s + queued_count s <= count_sum (by_attempt_status s).
Proof.
  rewrite get_stats_states.
  destruct (all_states _ _ _ _ _) as [sts|e]; [|discriminate].
  cbn [mbind result_bind]. cbn zeta. intros [= <-].
  destruct (visit_fold sts start) as (H1 & H2 & H3 & H4 & H5 & H6 & H7).
  cbn zeta in *. cbn [total success_count failed_count running_count
                        queued_count by_result_status by_attempt_status].
  rewrite H1, H2, H3, H4, H5, H6, H7.
  cbn [start c_total c_success c_failed c_running c_queued result_counts
         attempt_counts].
  rewrite !count_sum_fold, status_counts_empty. cbn [count_sum fold_right].
  rewrite (length_map fst).
  generalize (map state_statuses sts). clear. intros ps.
  pose proof (length_omap_le snd ps).
  repeat split;
    try apply Z.add_nonneg_nonneg; try apply count_where_nonneg; try lia.
  - clear. induction ps as [|[rs a] ps IH]; [unfold count_where; simpl; lia|].
    rewrite !count_where_cons. cbn [fst length].
    destruct (String.eqb_spec rs "success") as [->|_];
      [ change (String.eqb "success" "failed") with false
      | destruct (String.eqb rs "failed") ]; lia.
  - clear. induction ps as [|[rs a] ps IH]; [unfold count_where; simpl; lia|].
    rewrite !count_where_cons. cbn [snd omap list_omap].
    destruct a as [a|]; [rewrite !bool_decide_Some|
                         rewrite !bool_decide_eq_false_2 by discriminate];
      cbn [length]; [|lia].
    destruct (String.eqb_spec a "running") as [->|_];
      [ change (String.eqb "running" "queued") with false
      | destruct (String.eqb a "queued") ]; lia.
Qed.

End StatsFacts.

(** The sample installation: three experiments, all of them successful. *)
Lemma stats_count_the_scan_witness :
  match Stats.get_stats Sample.internal_dir Sample.state_file
          Sample.read_state Sample.config Sample.tree,
        Scanner.scan_experiments Sample.internal_dir Sample.state_file
          Sample.read_state Sample.config Sample.tree None None None with
  | Ok s, Ok out =>
      Stats.total s = Z.of_nat (length out)
      /\ Stats.success_count s = Spec2.count_where (Spec2.has_result "success") out
      /\ Stats.failed_count s = Spec2.count_where (Spec2.has_result "failed") out
      /\ Stats.running_count s = Spec2.count_where (Spec2.has_attempt "running") out
      /\ Stats.queued_count s = Spec2.count_where (Spec2.has_attempt "queued") out
  | Raise e, Raise e' => e = e'
  | _, _ => False
  end.
Proof.
  apply (stats_count_the_scan Sample.internal_dir Sample.state_file
           Sample.read_state); reflexivity.
Defined.

Lemma stats_tables_count_each_status_witness :
  match Stats.get_stats Sample.internal_dir Sample.state_file
          Sample.read_state Sample.config Sample.tree,
        Scanner.scan_experiments Sample.internal_dir Sample.state_file
          Sample.read_state Sample.config Sample.tree None None None with
  | Ok s, Ok out =>
      (forall st,
          Spec2.count_of st (Stats.by_result_status s)
          = Spec2.count_where (Spec2.has_result st) out
          /\ Spec2.count_of st (Stats.by_attempt_status s)
             = Spec2.count_where (Spec2.has_attempt st) out)
      /\ (forall table,
             table = Stats.by_result_status s
             \/ table = Stats.by_attempt_status s ->
             StronglySorted
               (fun a b => String.ltb (Stats.status a) (Stats.status b) = true)
               table
             /\ Forall (fun row => (1 <= Stats.count row)%Z) table)
  | _, _ => False
  end.
Proof.
  destruct (Stats.get_stats _ _ _ _ _) as [s|e] eqn:E1;
    [|vm_compute in E1; discriminate E1].
  destruct (Scanner.scan_experiments _ _ _ _ _ _ _ _) as [out|e] eqn:E2;
    [|vm_compute in E2; discriminate E2].
  apply (stats_tables_count_each_status Sample.internal_dir Sample.state_file
           Sample.read_state eq_refl Sample.config Sample.tree s out eq_refl
           E1 E2).
Defined.

Lemma stats_add_up_witness :
  match Stats.get_stats Sample.internal_dir Sample.state_file
          Sample.read_state Sample.config Sample.tree with
  | Ok s =>
      (Spec2.count_sum (Stats.by_result_status s) = Stats.total s
       /\ Spec2.count_sum (Stats.by_attempt_status s) <= Stats.total s
       /\ 0 <= Stats.success_count s /\ 0 <= Stats.failed_count s
       /\ Stats.success_count s + Stats.failed_count s <= Stats.total s
       /\ 0 <= Stats.running_count s /\ 0 <= Stats.queued_count s
       /\ Stats.running_count s + Stats.queued_count s
          <= Spec2.count_sum (Stats.by_attempt_status s))%Z
  | Raise _ => False
  end.
Proof.
  destruct (Stats.get_stats _ _ _ _ _) as [s|e] eqn:E;
    [|vm_compute in E; discriminate E].
  apply (stats_add_up Sample.internal_dir Sample.state_file
           Sample.read_state Sample.config Sample.tree s E).
Defined.

Lemma status_counts_match_filtered_scans_witness :
  match Stats.get_stats Sample.internal_dir Sample.state_file
          Sample.read_state Sample.config Sample.tree with
  | Ok s =>
      exists by_result by_attempt,
        Scanner.scan_experiments Sample.internal_dir Sample.state_file
          Sample.read_state Sample.config Sample.tree
          (Some "success") None None = Ok by_result
        /\ Scanner.scan_experiments Sample.internal_dir Sample.state_file
             Sample.read_state Sample.config Sample.tree
             None (Some "success") None = Ok by_attempt
        /\ Spec2.count_of "success" (Stats.by_result_status s)
           = Z.of_nat (length by_result)
        /\ Spec2.count_of "success" (Stats.by_attempt_status s)
           = Z.of_nat (length by_attempt)
  | Raise _ => False
  end.
Proof.
  destruct (Stats.get_stats _ _ _ _ _) as [s|e] eqn:E;
    [|vm_compute in E; discriminate E].
  apply (status_counts_match_filtered_scans Sample.internal_dir
           Sample.state_file Sample.read_state eq_refl Sample.config
           Sample.tree s "success" eq_refl);
    [ discriminate | exact E ].
Defined.

(** ** Namespaces, class names and [get_experiment_detail] *)

Section DetailFacts.

Import PyStr Scanner Models Spec Spec2.
Local Open Scope list_scope.

Variables INTERNAL_DIR STATE_FILE : string.
Variable read_state : node -> Path -> result _HuldraState.
Variables JsonDict StateAttempt : Type.
Variable read_metadata_raw : node -> Path -> result (option JsonDict).
Variable from_internal : StateAttemptInternal -> result StateAttempt.
Variable model_dump : _HuldraState -> result JsonDict.

Local Notation "'no_dot'" := (all_of (fun c => negb (Ascii.eqb c "."))).
Local Notation "'no_slash'" := (all_of (fun c => negb (Ascii.eqb c "/"))).

Lemma iter_roots_cases config fs :
  _iter_roots config fs
  = (if FS.exists_ fs (Config.get_root config false)
     then [Config.get_root config false] else [])
    ++ (if FS.exists_ fs (Config.get_root config true)
        then [Config.get_root config true] else []).
Proof. unfold _iter_roots. cbn [flat_map]. now rewrite List.app_nil_r. Qed.

Lemma split_not_nil sep s : split sep s <> [].
Proof.
  destruct s as [|c s]; simpl; [discriminate|].
  destruct (Ascii.eqb c sep); [discriminate|].
  destruct (split sep s); discriminate.
Qed.

(** No piece of a split holds the separator. *)
Lemma split_pieces sep s :
  Forall (fun x => all_of (fun c => negb (Ascii.eqb c sep)) x = true)
    (split sep s).
Proof.
  induction s as [|c s IH]; simpl; [repeat constructor|].
  destruct (Ascii.eqb c sep) eqn:E; [now constructor|].
  destruct (split sep s) as [|w ws]; [repeat constructor; simpl; now rewrite E|].
  apply Forall_cons_iff in IH as [Hw Hws]. constructor; [|exact Hws].
  simpl. now rewrite E, Hw.
Qed.

(** The pieces of a split hold only characters of the string. *)
Lemma split_all_of p sep s :
  all_of p s = true -> Forall (fun x => all_of p x = true) (split sep s).
Proof.
  induction s as [|c s IH]; simpl; [repeat constructor|].
  intros H. apply andb_true_iff in H as [Hc Hs]. specialize (IH Hs).
  destruct (Ascii.eqb c sep); [now constructor|].
  destruct (split sep s) as [|w ws]; [repeat constructor; simpl; now rewrite Hc|].
  apply Forall_cons_iff in IH as [Hw Hws]. constructor; [|exact Hws].
  simpl. now rewrite Hc, Hw.
Qed.

Lemma all_of_join p sep l :
  all_of p sep = true -> Forall (fun x => all_of p x = true) l ->
  all_of p (join sep l) = true.
Proof.
  intros Hsep H. induction H as [|x l Hx Hl IH]; [reflexivity|].
  unfold join in *. destruct l as [|y l]; [exact Hx|].
  change (String.concat sep (x :: y :: l))
    with (x +:+ sep +:+ String.concat sep (y :: l)).
  now rewrite !all_of_app, Hx, Hsep, IH.
Qed.

(** A string without a slash is a path of at most one component. *)
Lemma of_str_no_slash s :
  no_slash s = true ->
  PathLib.of_str s = mkPath "" (List.filter PathLib.is_component [s]).
Proof.
  intros H. unfold PathLib.of_str. rewrite split_none by assumption.
  f_equal. destruct s as [|c s]; [reflexivity|]. simpl in H.
  apply andb_true_iff in H as [Hc _]. apply negb_true_iff in Hc.
  apply Ascii.eqb_neq in Hc. unfold PathLib.splitroot.
  destruct c as [[] [] [] [] [] [] [] []]; try reflexivity. congruence.
Qed.

Lemma fold_div_no_slash p l :
  Forall (fun s => no_slash s = true) l ->
  fold_left PathLib.div l p
  = mkPath (root p) (names p ++ List.filter PathLib.is_component l).
Proof.
  intros H. revert p. induction H as [|s l Hs Hl IH]; intros p.
  - simpl. rewrite List.app_nil_r. now destruct p.
  - cbn [fold_left]. rewrite IH. unfold PathLib.div at 1 2, PathLib.join.
    rewrite of_str_no_slash by assumption.
    cbn [root names truthy String.eqb negb].
    replace (List.filter PathLib.is_component (s :: l))
      with (List.filter PathLib.is_component [s]
            ++ List.filter PathLib.is_component l)
      by (simpl; now destruct (PathLib.is_component s)).
    now rewrite List.app_assoc.
Qed.

Lemma valid_is_component s :
  FS.valid_name s = true -> PathLib.is_component s = true.
Proof.
  intros H. destruct (valid_name_facts _ H) as (H1 & H2 & _).
  unfold PathLib.is_component.
  apply String.eqb_neq in H1, H2. now rewrite H1, H2.
Qed.

Lemma filter_all {A} (f : A -> bool) l :
  Forall (fun x => f x = true) l -> List.filter f l = l.
Proof.
  induction 1 as [|x l Hx Hl IH]; [reflexivity|]. simpl. now rewrite Hx, IH.
Qed.

(** Where [get_experiment_detail] looks for the namespace [p1.....pk]. *)
Lemma experiment_dir_of_names top ps h :
  Forall (fun s => FS.valid_name s = true) (ps ++ [h]) ->
  experiment_dir_of top (join "." ps) h
  = mkPath (root top)
      (names top
       ++ List.filter PathLib.is_component (split "." (join "." ps)) ++ [h]).
Proof.
  intros H. apply Forall_app in H as [Hps Hh]. apply Forall_inv in Hh.
  unfold experiment_dir_of, PathLib.of_segments.
  rewrite fold_div_no_slash.
  - unfold PathLib.join. cbn [root names truthy String.eqb negb app].
    rewrite div_valid by assumption. unfold FS.child. cbn [root names].
    now rewrite <- List.app_assoc.
  - apply split_all_of, all_of_join; [reflexivity|].
    revert Hps. apply List.Forall_impl. intros s Hs.
    now apply valid_name_facts in Hs.
Qed.

Lemma experiment_dir_of_plain top ps h :
  ps <> [] ->
  Forall (fun s => FS.valid_name s = true) (ps ++ [h]) ->
  Forall (fun s => no_dot s = true) ps ->
  experiment_dir_of top (join "." ps) h
  = mkPath (root top) (names top ++ ps ++ [h]).
Proof.
  intros Hne Hv Hd. rewrite experiment_dir_of_names by assumption.
  rewrite split_join by assumption.
  rewrite filter_all; [reflexivity|].
  apply Forall_app in Hv as [Hps _]. revert Hps. apply List.Forall_impl.
  intros s. apply valid_is_component.
Qed.

(** The namespace and the hash of a directory [top/p1/.../pk/h]. *)
Lemma parse_namespace_names top ps h :
  ps <> [] ->
  _parse_namespace_from_path (mkPath (root top) (names top ++ ps ++ [h])) top
  = Ok (join "." ps, h).
Proof.
  intros Hne. unfold _parse_namespace_from_path.
  rewrite relative_to_under. cbn [mbind result_bind].
  unfold PathLib.parts. cbn [root names truthy String.eqb negb].
  rewrite List.length_app. cbn [length].
  destruct ps as [|p ps]; [congruence|].
  replace (length (p :: ps) + 1 <? 2)%nat with false
    by (symmetry; apply Nat.ltb_ge; simpl; lia).
  now rewrite removelast_snoc, last_last.
Qed.

(** X8.  A component with a dot breaks the way back: for a directory
    [top/p1/.../pk/h] of valid file names, [_parse_namespace_from_path]
    returns the namespace [p1.....pk] and the hash [h], and
    [get_experiment_detail] looks for that namespace and hash in the same
    directory exactly when none of [p1], ..., [pk] holds a dot (the hash
    may hold dots). *)
Theorem dotted_component_breaks_roundtrip
    (top : Path) (ps : list string) (h : string) :
  ps <> [] ->
  Forall (fun s => FS.valid_name s = true) (ps ++ [h]) ->
  let d := fold_left PathLib.div (ps ++ [h]) top in
  _parse_namespace_from_path d top = Ok (join "." ps, h)
  /\ (experiment_dir_of top (join "." ps) h = d
      <-> Forall (fun s => no_dot s = true) ps).
Proof.
  intros Hne Hv d. unfold d. rewrite fold_div by assumption.
  split; [now apply parse_namespace_names|]. split.
  - rewrite experiment_dir_of_names by assumption. intros [= E].
    apply app_inv_head, app_inv_tail in E. rewrite <- E.
    apply List.Forall_forall. intros s Hs. apply filter_In in Hs as [Hs _].
    pose proof (split_pieces "." (join "." ps)) as Hp.
    rewrite List.Forall_forall in Hp. now apply Hp.
  - intros Hd. now apply experiment_dir_of_plain.
Qed.

Lemma strip_prefix_none pre l :
  PathLib.strip_prefix pre l = None -> forall rel, l <> pre ++ rel.
Proof.
  intros H rel ->. now rewrite strip_prefix_app in H.
Qed.

(** X9.  [_parse_namespace_from_path] raises, a [ValueError], exactly
    when the directory is not the root or below it.  For the root itself
    it returns the namespace ["."] and an empty hash, for a directory
    [top/x] the namespace [x] and an empty hash; from two components on
    the hash is the last component and the namespace the others joined
    by dots. *)
Theorem parse_namespace_cases (d top : Path) :
  match _parse_namespace_from_path d top with
  | Raise e => e = ValueError /\ ~ under top d
  | Ok (ns, h) =>
      exists rel,
        root d = root top /\ names d = names top ++ rel
        /\ match rel with
           | [] => ns = "." /\ h = ""
           | [x] => ns = x /\ h = ""
           | _ => ns = join "." (removelast rel) /\ h = List.last rel ""
           end
  end.
Proof.
  unfold _parse_namespace_from_path, PathLib.relative_to.
  destruct (String.eqb_spec (root d) (root top)) as [Hr|Hr].
  - destruct (PathLib.strip_prefix (names top) (names d)) as [rel|] eqn:E;
      cbn [mbind result_bind].
    + apply strip_prefix_inv in E. unfold PathLib.parts.
      cbn [root names truthy String.eqb negb].
      destruct rel as [|x [|y rel]]; cbn [length Nat.ltb Nat.leb];
        [exists [] | exists [x] | exists (x :: y :: rel)]; auto.
    + split; [reflexivity|]. intros [_ (rel & Hrel)].
      now apply (strip_prefix_none _ _ E rel).
  - cbn [mbind result_bind]. split; [reflexivity|]. now intros [Hr' _].
Qed.

(** Joining the pieces of a split gives the string back. *)
Lemma join_split sep s : join (String sep "") (split sep s) = s.
Proof.
  unfold join. induction s as [|c s IH]; [reflexivity|]. simpl.
  destruct (Ascii.eqb_spec c sep) as [->|Hne].
  - pose proof (split_not_nil sep s) as Hs.
    destruct (split sep s) as [|w ws]; [congruence|].
    change (String.concat (String sep "") ("" :: w :: ws))
      with ("" +:+ String sep "" +:+ String.concat (String sep "") (w :: ws)).
    now rewrite IH.
  - pose proof (split_not_nil sep s) as Hs.
    destruct (split sep s) as [|w ws]; [congruence|].
    destruct ws as [|w' ws]; [simpl in *; congruence|].
    change (String.concat (String sep "") (String c w :: w' :: ws))
      with (String c w +:+ String sep ""
            +:+ String.concat (String sep "") (w' :: ws)).
    change (String.concat (String sep "") (w :: w' :: ws))
      with (w +:+ String sep "" +:+ String.concat (String sep "") (w' :: ws))
      in IH.
    now rewrite app_cons, IH.
Qed.

Lemma join_snoc sep l c :
  l <> [] -> join sep (l ++ [c]) = join sep l +:+ sep +:+ c.
Proof.
  unfold join. induction l as [|x l IH]; [congruence|]. intros _.
  destruct l as [|y l]; [reflexivity|].
  change (String.concat sep ((x :: y :: l) ++ [c]))
    with (x +:+ sep +:+ String.concat sep ((y :: l) ++ [c])).
  change (String.concat sep (x :: y :: l))
    with (x +:+ sep +:+ String.concat sep (y :: l)).
  rewrite IH by discriminate. now rewrite !app_assoc.
Qed.

(** X10.  The class name is what follows the last dot of the namespace
    (the whole namespace when it holds no dot): it holds no dot itself,
    and the namespace is the class name or ends with a dot and the class
    name.  For the namespace [p1.....pk] of a directory whose components
    hold no dot it is [pk]. *)
Theorem class_name_is_last_component (ns : string) :
  no_dot (_get_class_name ns) = true
  /\ (ns = _get_class_name ns
      \/ exists pre, ns = pre +:+ "." +:+ _get_class_name ns)
  /\ (forall ps,
         ps <> [] -> Forall (fun s => no_dot s = true) ps ->
         ns = join "." ps -> _get_class_name ns = List.last ps "").
Proof.
  unfold _get_class_name.
  pose proof (split_not_nil "." ns) as Hne.
  pose proof (split_pieces "." ns) as Hp.
  pose proof (join_split "." ns) as Hj.
  destruct (exists_last Hne) as (init & cls & E). rewrite E in *.
  rewrite last_last. split; [|split].
  - apply Forall_app in Hp as [_ Hp]. now apply Forall_inv in Hp.
  - destruct init as [|x init]; [left; now rewrite <- Hj|right].
    exists (join "." (x :: init)). rewrite <- Hj at 1.
    now apply join_snoc.
  - intros ps Hps Hd ->. rewrite split_join in E by assumption.
    rewrite E. now rewrite last_last.
Qed.

(** The detail of a state shows what its summary shows. *)
Lemma state_to_detail_ok st ns h d md det :
  _state_to_detail from_internal model_dump st ns h d md = Ok det ->
  summary det = _state_to_summary st ns h
  /\ directory det = PathLib.to_str d
  /\ metadata det = md
  /\ model_dump st = Ok (state det)
  /\ match st_attempt st with
     | Some a => exists a', from_internal a = Ok a' /\ attempt det = Some a'
     | None => attempt det = None
     end.
Proof.
  unfold _state_to_detail. intros H.
  destruct (st_attempt st) as [a|] eqn:Ha.
  - destruct (from_internal a) as [a'|e]; [|discriminate].
    cbn [mbind result_bind] in H.
    destruct (model_dump st) as [dumped|e]; [|discriminate].
    cbn [mbind result_bind] in H. injection H as <-.
    unfold _state_to_summary. rewrite Ha. repeat split. eauto.
  - cbn [mbind result_bind] in H.
    destruct (model_dump st) as [dumped|e]; [|discriminate].
    cbn [mbind result_bind] in H. injection H as <-.
    unfold _state_to_summary. rewrite Ha. repeat split.
Qed.

Lemma detail_in_none fs tops ns h :
  detail_in INTERNAL_DIR STATE_FILE read_state fs read_metadata_raw
    from_internal model_dump tops ns h = Ok None
  <-> forall top,
        In top tops ->
        FS.is_file fs
          (get_state_path INTERNAL_DIR STATE_FILE (experiment_dir_of top ns h))
        = false.
Proof.
  induction tops as [|top tops IH]; cbn [detail_in].
  - split; [intros _ top []|reflexivity].
  - destruct (FS.is_file fs _) eqn:E.
    + split.
      * destruct (read_state fs _); cbn [mbind result_bind]; [|discriminate].
        destruct (read_metadata_raw fs _); cbn [mbind result_bind];
          [|discriminate].
        destruct (_state_to_detail _ _ _ _ _ _ _); discriminate.
      * intros H. specialize (H top (or_introl eq_refl)). congruence.
    + rewrite IH. split.
      * intros H top' [<-|Hin]; [exact E|now apply H].
      * intros H top' Hin. apply H. now right.
Qed.

(** A detail that is returned comes from the first root of the list
    whose directory holds a state file. *)
Lemma detail_in_some fs tops ns h det :
  detail_in INTERNAL_DIR STATE_FILE read_state fs read_metadata_raw
    from_internal model_dump tops ns h = Ok (Some det) ->
  exists before top after st md,
    tops = before ++ top :: after
    /\ Forall
         (fun t =>
            FS.is_file fs
              (get_state_path INTERNAL_DIR STATE_FILE
                 (experiment_dir_of t ns h)) = false) before
    /\ FS.is_file fs
         (get_state_path INTERNAL_DIR STATE_FILE (experiment_dir_of top ns h))
       = true
    /\ read_state fs (experiment_dir_of top ns h) = Ok st
    /\ read_metadata_raw fs (experiment_dir_of top ns h) = Ok md
    /\ _state_to_detail from_internal model_dump st ns h
         (experiment_dir_of top ns h) md = Ok det.
Proof.
  induction tops as [|top tops IH]; cbn [detail_in]; [discriminate|].
  destruct (FS.is_file fs _) eqn:E.
  - destruct (read_state fs _) as [st|e] eqn:R; cbn [mbind result_bind];
      [|discriminate].
    destruct (read_metadata_raw fs _) as [md|e] eqn:M; cbn [mbind result_bind];
      [|discriminate].
    destruct (_state_to_detail _ _ _ _ _ _ _) as [det'|e] eqn:D;
      cbn [mbind result_bind]; [|discriminate].
    intros [= <-]. exists [], top, tops, st, md. repeat split; auto.
  - intros H. destruct (IH H) as (before & top' & after & st & md & -> & Hb & H').
    exists (top :: before), top', after, st, md.
    split; [reflexivity|]. split; [now constructor|exact H'].
Qed.

(** X12.  What [get_experiment_detail] returns.  It returns [None]
    exactly when under no existing root the directory of the namespace
    and hash holds a state file.  A detail that it returns was built at
    the first existing root (the data root before the git root) whose
    directory holds a state file: from the state and the metadata read
    there, with the fields that a summary of that state has, that
    directory, the dumped state and the converted attempt. *)
Theorem detail_none_iff_absent
    (config : FuruConfig) (fs : node) (ns h : string) :
  (get_experiment_detail INTERNAL_DIR STATE_FILE read_state config fs
     read_metadata_raw from_internal model_dump ns h = Ok None
   <-> forall top,
         In top (_iter_roots config fs) ->
         FS.is_file fs
           (get_state_path INTERNAL_DIR STATE_FILE (experiment_dir_of top ns h))
         = false)
  /\ (forall det,
         get_experiment_detail INTERNAL_DIR STATE_FILE read_state config fs
           read_metadata_raw from_internal model_dump ns h = Ok (Some det) ->
         exists top st,
           In top (_iter_roots config fs)
           /\ (top = Config.get_root config true ->
               FS.exists_ fs (Config.get_root config false) = true ->
               FS.is_file fs
                 (get_state_path INTERNAL_DIR STATE_FILE
                    (experiment_dir_of (Config.get_root config false) ns h))
               = false)
           /\ FS.is_file fs
                (get_state_path INTERNAL_DIR STATE_FILE
                   (experiment_dir_of top ns h)) = true
           /\ read_state fs (experiment_dir_of top ns h) = Ok st
           /\ read_metadata_raw fs (experiment_dir_of top ns h)
              = Ok (metadata det)
           /\ model_dump st = Ok (state det)
           /\ summary det = _state_to_summary st ns h
           /\ directory det = PathLib.to_str (experiment_dir_of top ns h)
           /\ match st_attempt st with
              | Some a =>
                  exists a', from_internal a = Ok a' /\ attempt det = Some a'
              | None => attempt det = None
              end).
Proof.
  unfold get_experiment_detail. split; [apply detail_in_none|].
  intros det H.
  apply detail_in_some
    in H as (before & top & after & st & md & Hroots & Hb & Hfile & Hst & Hmd & Hdet).
  apply state_to_detail_ok in Hdet as (H1 & H2 & H3 & H4 & H5). subst md.
  exists top, st.
  split; [rewrite Hroots; apply in_elt|].
  split; [|repeat split; assumption].
  intros -> Hex. rewrite iter_roots_cases, Hex in Hroots.
  destruct before as [|t before]; cbn [app] in Hroots.
  - assert (E : Config.get_root config true = Config.get_root config false)
      by congruence.
    now apply get_root_differ in E.
  - assert (t = Config.get_root config false) as -> by congruence.
    now apply Forall_inv in Hb.
Qed.

(** X11.  An experiment that the scan lists is looked up again by its
    namespace and hash: for a directory [top/p1/.../pk/h] of valid file
    names under an existing root, with no dot in [p1], ..., [pk], that
    holds a state file, [get_experiment_detail] called with the
    namespace and hash that [_parse_namespace_from_path] gives reads
    the state and the metadata of that directory and builds the detail
    from them; it raises what one of these calls raises, and a detail
    that it returns has the fields of the summary that the scan builds
    for the directory.  The data root is looked at first: an experiment
    of the git root is reached unless the data root holds a state file
    for the same namespace and hash. *)
Theorem detail_of_listed_experiment
    (config : FuruConfig) (fs : node) (top : Path)
    (ps : list string) (h : string) :
  ps <> [] ->
  Forall (fun s => FS.valid_name s = true) (ps ++ [h]) ->
  Forall (fun s => no_dot s = true) ps ->
  In top (_iter_roots config fs) ->
  let d := fold_left PathLib.div (ps ++ [h]) top in
  let shadow :=
    fold_left PathLib.div (ps ++ [h]) (Config.get_root config false) in
  FS.is_file fs (get_state_path INTERNAL_DIR STATE_FILE d) = true ->
  top = Config.get_root config false
  \/ FS.is_file fs (get_state_path INTERNAL_DIR STATE_FILE shadow) = false ->
  _parse_namespace_from_path d top = Ok (join "." ps, h)
  /\ get_experiment_detail INTERNAL_DIR STATE_FILE read_state config fs
       read_metadata_raw from_internal model_dump (join "." ps) h
     = (state ← read_state fs d;
        metadata ← read_metadata_raw fs d;
        detail ← _state_to_detail from_internal model_dump state
                   (join "." ps) h d metadata;
        Ok (Some detail))
  /\ (forall st md det,
         _state_to_detail from_internal model_dump st (join "." ps) h d md
         = Ok det ->
         summary det = _state_to_summary st (join "." ps) h
         /\ directory det = PathLib.to_str d /\ metadata det = md).
Proof.
  intros Hne Hv Hd Htop d shadow. unfold d, shadow.
  rewrite !fold_div by assumption. intros Hfile Hfirst.
  split; [now apply parse_namespace_names|]. split.
  - unfold get_experiment_detail. rewrite iter_roots_cases.
    apply iter_roots_spec in Htop as [[->| ->] Hex].
    + rewrite Hex. cbn [app detail_in].
      rewrite experiment_dir_of_plain by assumption. now rewrite Hfile.
    + destruct Hfirst as [Hfirst|Hfirst];
        [now apply get_root_differ in Hfirst|].
      rewrite Hex.
      destruct (FS.exists_ fs (Config.get_root config false));
        cbn [app detail_in]; rewrite !experiment_dir_of_plain by assumption;
        rewrite ?Hfirst, Hfile; reflexivity.
  - intros st md det H.
    apply state_to_detail_ok in H as (H1 & H2 & H3 & _). auto.
Qed.

(** X13.  When neither storage root exists, [scan_experiments] returns
    the empty list whatever the filters, [get_stats] returns zeros and
    empty tables, and [get_experiment_detail] returns [None]; nothing is
    read and nothing is raised. *)
Theorem nothing_without_roots
    (config : FuruConfig) (fs : node)
    (result_status attempt_status namespace_prefix : option string)
    (ns h : string) :
  FS.exists_ fs (Config.get_root config false) = false ->
  FS.exists_ fs (Config.get_root config true) = false ->
  scan_experiments INTERNAL_DIR STATE_FILE read_state config fs
    result_status attempt_status namespace_prefix = Ok []
  /\ Stats.get_stats INTERNAL_DIR STATE_FILE read_state config fs
     = Ok (Stats.mkDashboardStats 0 [] [] 0 0 0 0)
  /\ get_experiment_detail INTERNAL_DIR STATE_FILE read_state config fs
       read_metadata_raw from_internal model_dump ns h
     = Ok None.
Proof.
  intros H1 H2.
  unfold scan_experiments, Stats.get_stats, get_experiment_detail.
  rewrite iter_roots_cases, H1, H2. repeat split.
Qed.

(** X22.  Directories that are too shallow for a hash are found again
    as well: for the root itself [_parse_namespace_from_path] gives the
    namespace ["."] and the empty hash, for a directory [top/x] the
    namespace [x] and the empty hash, and [get_experiment_detail] looks
    for these in the root and in [top/x] again (when [x] is a valid
    file name without a dot). *)
Theorem shallow_directories_roundtrip (top : Path) (x : string) :
  (_parse_namespace_from_path top top = Ok (".", "")
   /\ experiment_dir_of top "." "" = top)
  /\ (FS.valid_name x = true -> no_dot x = true ->
      _parse_namespace_from_path (top </> x) top = Ok (x, "")
      /\ experiment_dir_of top x "" = top </> x).
Proof.
  split; [split|].
  - unfold _parse_namespace_from_path, PathLib.relative_to.
    rewrite String.eqb_refl.
    rewrite <- (List.app_nil_r (names top)) at 2.
    now rewrite strip_prefix_app.
  - unfold experiment_dir_of. change (split "." ".") with [""; ""].
    change (PathLib.of_segments [""; ""]) with (mkPath "" []).
    unfold PathLib.div, PathLib.join. simpl.
    rewrite !List.app_nil_r. now destruct top.
  - intros Hx Hd. rewrite div_valid by assumption. unfold FS.child. split.
    + unfold _parse_namespace_from_path. now rewrite relative_to_under.
    + unfold experiment_dir_of. rewrite split_none by assumption.
      unfold PathLib.of_segments. cbn [fold_left].
      rewrite (div_valid _ x Hx). unfold FS.child, PathLib.join.
      cbn [root names truthy String.eqb negb app].
      unfold PathLib.div, PathLib.join. simpl. now rewrite List.app_nil_r.
Qed.

End DetailFacts.

(** A project directory with a dot in its name. *)
Lemma dotted_component_breaks_roundtrip_witness :
  let top := mkPath "/" ["srv"; "furu"; "data"] in
  let d := fold_left PathLib.div (["my.proj"; "Train"] ++ ["abc"])%list top in
  Scanner._parse_namespace_from_path d top = Ok ("my.proj.Train", "abc")
  /\ (Scanner.experiment_dir_of top "my.proj.Train" "abc" = d
      <-> Forall (fun s => PyStr.all_of (fun c => negb (Ascii.eqb c ".")) s = true)
            ["my.proj"; "Train"]).
Proof.
  intros top d.
  apply (dotted_component_breaks_roundtrip top ["my.proj"; "Train"] "abc");
    [ discriminate | repeat constructor ].
Defined.

(** The experiment [proj/Prep/ccc] of the git root of the sample. *)
Lemma detail_of_listed_experiment_witness :
  let top := Config.get_root Sample.config true in
  let d := fold_left PathLib.div (["proj"; "Prep"] ++ ["ccc"])%list top in
  Scanner._parse_namespace_from_path d top = Ok ("proj.Prep", "ccc")
  /\ Scanner.get_experiment_detail Sample.internal_dir Sample.state_file
       Sample.read_state Sample.config Sample.tree Sample.read_metadata_raw
       Sample.from_internal Sample.model_dump "proj.Prep" "ccc"
     = (state ← Sample.read_state Sample.tree d;
        metadata ← Sample.read_metadata_raw Sample.tree d;
        detail ← Scanner._state_to_detail Sample.from_internal
                   Sample.model_dump state "proj.Prep" "ccc" d metadata;
        Ok (Some detail))
  /\ (forall st md det,
         Scanner._state_to_detail Sample.from_internal Sample.model_dump
           st "proj.Prep" "ccc" d md = Ok det ->
         Models.summary det = Scanner._state_to_summary st "proj.Prep" "ccc"
         /\ Models.directory det = PathLib.to_str d
         /\ Models.metadata det = md).
Proof.
  intros top d.
  apply (detail_of_listed_experiment Sample.internal_dir Sample.state_file
           Sample.read_state string string Sample.read_metadata_raw
           Sample.from_internal Sample.model_dump Sample.config Sample.tree
           top ["proj"; "Prep"] "ccc");
    [ discriminate | repeat constructor | repeat constructor
    | right; now left | reflexivity | now right ].
Defined.

(** A tree without the storage roots. *)
Lemma nothing_without_roots_witness :
  Scanner.scan_experiments Sample.internal_dir Sample.state_file
    Sample.read_state Sample.config (Dir []) (Some "failed") None None = Ok []
  /\ Stats.get_stats Sample.internal_dir Sample.state_file Sample.read_state
       Sample.config (Dir [])
     = Ok (Stats.mkDashboardStats 0 [] [] 0 0 0 0)
  /\ Scanner.get_experiment_detail Sample.internal_dir Sample.state_file
       Sample.read_state Sample.config (Dir []) Sample.read_metadata_raw
       Sample.from_internal Sample.model_dump "proj.Train" "aaa" = Ok None.
Proof.
  apply (nothing_without_roots Sample.internal_dir Sample.state_file
           Sample.read_state string string Sample.read_metadata_raw
           Sample.from_internal Sample.model_dump Sample.config (Dir [])
           (Some "failed") None None "proj.Train" "aaa");
    reflexivity.
Defined.

(** ** More on the configuration *)

Section StripFacts.

Import PyStr Spec.

Lemma lstrip_not_starting p s : not_starting p (lstrip_with p s) = true.
Proof.
  induction s as [|c s IH]; [reflexivity|]. simpl.
  destruct (p c) eqn:E; [exact IH|]. simpl. now rewrite E.
Qed.

Lemma rstrip_not_starting p s :
  not_starting p s = true -> not_starting p (rstrip_with p s) = true.
Proof.
  destruct s as [|c s]; [reflexivity|]. simpl. intros H.
  apply negb_true_iff in H.
  destruct (rstrip_with p s); [rewrite H|]; simpl; now rewrite H.
Qed.

Lemma rstrip_rstrip p s :
  rstrip_with p (rstrip_with p s) = rstrip_with p s.
Proof.
  induction s as [|c s IH]; [reflexivity|]. simpl.
  destruct (rstrip_with p s) as [|d r] eqn:E.
  - destruct (p c) eqn:Hc; [reflexivity|]. simpl. now rewrite Hc.
  - change (rstrip_with p (String c (String d r)))
      with (match rstrip_with p (String d r) with
            | EmptyString => if p c then EmptyString else String c EmptyString
            | r' => String c r'
            end).
    now rewrite IH.
Qed.

(** Stripping twice is stripping once. *)
Lemma strip_strip s : strip (strip s) = strip s.
Proof.
  unfold strip, strip_with.
  rewrite (lstrip_id isspace (rstrip_with isspace (lstrip_with isspace s))).
  - apply rstrip_rstrip.
  - apply rstrip_not_starting, lstrip_not_starting.
Qed.

Lemma lstrip_all p ws : all_of p ws = true -> lstrip_with p ws = "".
Proof.
  induction ws as [|c ws IH]; [reflexivity|]. simpl. intros H.
  apply andb_true_iff in H as [-> H]. now apply IH.
Qed.

Lemma rstrip_all p ws : all_of p ws = true -> rstrip_with p ws = "".
Proof.
  induction ws as [|c ws IH]; [reflexivity|]. simpl. intros H.
  apply andb_true_iff in H as [-> H]. now rewrite IH.
Qed.

Lemma lstrip_app_all p ws s :
  all_of p ws = true -> lstrip_with p (ws +:+ s) = lstrip_with p s.
Proof.
  induction ws as [|c ws IH]; [reflexivity|]. rewrite app_cons. simpl.
  intros H. apply andb_true_iff in H as [-> H]. now apply IH.
Qed.

Lemma rstrip_app_all p s ws :
  all_of p ws = true -> rstrip_with p (s +:+ ws) = rstrip_with p s.
Proof.
  intros H. induction s as [|c s IH].
  - rewrite app_nil_l. now apply rstrip_all.
  - rewrite app_cons. simpl. now rewrite IH.
Qed.

(** White space around a string does not survive [strip]. *)
Lemma strip_padding ws1 s ws2 :
  all_of isspace ws1 = true -> all_of isspace ws2 = true ->
  strip (ws1 +:+ s +:+ ws2) = strip s.
Proof.
  intros H1 H2. unfold strip, strip_with.
  rewrite lstrip_app_all by assumption.
  induction s as [|c s IH].
  - rewrite app_nil_l, lstrip_all by assumption. reflexivity.
  - rewrite app_cons. simpl. destruct (isspace c); [exact IH|].
    rewrite <- app_cons. now apply rstrip_app_all.
Qed.

Lemma isspace_lower c : isspace (lower_char c) = isspace c.
Proof. destruct c as [[] [] [] [] [] [] [] []]; reflexivity. Qed.

Lemma lower_char_lower c : lower_char (lower_char c) = lower_char c.
Proof. destruct c as [[] [] [] [] [] [] [] []]; reflexivity. Qed.

Lemma lower_lower s : lower (lower s) = lower s.
Proof.
  induction s as [|c s IH]; [reflexivity|]. simpl.
  now rewrite lower_char_lower, IH.
Qed.

Lemma lstrip_lower s :
  lstrip_with isspace (lower s) = lower (lstrip_with isspace s).
Proof.
  induction s as [|c s IH]; [reflexivity|]. simpl.
  rewrite isspace_lower. now destruct (isspace c).
Qed.

Lemma rstrip_lower s :
  rstrip_with isspace (lower s) = lower (rstrip_with isspace s).
Proof.
  induction s as [|c s IH]; [reflexivity|]. simpl.
  rewrite IH, isspace_lower.
  destruct (rstrip_with isspace s); simpl; [now destruct (isspace c)|reflexivity].
Qed.

(** Lowercasing and stripping can be done in either order. *)
Lemma strip_lower s : strip (lower s) = lower (strip s).
Proof. unfold strip, strip_with. now rewrite lstrip_lower, rstrip_lower. Qed.

Lemma all_of_lstrip p q s :
  all_of q s = true -> all_of q (lstrip_with p s) = true.
Proof.
  induction s as [|c s IH]; [reflexivity|]. simpl. intros H.
  apply andb_true_iff in H as [Hc Hs].
  destruct (p c); [now apply IH|]. simpl. now rewrite Hc, Hs.
Qed.

Lemma all_of_rstrip p q s :
  all_of q s = true -> all_of q (rstrip_with p s) = true.
Proof.
  induction s as [|c s IH]; [reflexivity|]. simpl. intros H.
  apply andb_true_iff in H as [Hc Hs]. specialize (IH Hs).
  destruct (rstrip_with p s); [destruct (p c)|]; simpl; rewrite ?Hc; auto.
Qed.

End StripFacts.

Section ConfigMore.

Import PyStr PyNum Config Spec.
Local Open Scope float_scope.

Variable int_max_str_digits : nat.
Variable pw_dir : option string -> option string.
Variable resolve : Path -> result Path.

Lemma or_raise_ok {A} (o : option A) a :
  or_raise ValueError o = Ok a <-> o = Some a.
Proof. destruct o; simpl; split; congruence. Qed.

Lemma parse_raises_value_error v e :
  _parse_cache_duration v = Raise e -> e = ValueError.
Proof.
  destruct (parse_cases v)
    as [(_ & Hp)|[(_ & _ & Hp)|[(_ & _ & Hp)|(_ & _ & _ & Hp)]]].
  - congruence.
  - congruence.
  - destruct Hp as (ip & frac & ws & u & _ & _ & _ & _ & Hp). congruence.
  - congruence.
Qed.

Lemma expanduser_raises environ p e :
  expanduser environ pw_dir p = Raise e -> e = RuntimeError.
Proof.
  unfold expanduser. destruct (root p); [|discriminate].
  destruct (names p) as [|first rest]; [discriminate|].
  destruct (startswith first "~"); [|discriminate].
  destruct (startswith _ "~"); [|discriminate]. now intros [= <-].
Qed.

(** What makes the base root fail. *)
Lemma get_base_root_raises environ e :
  _get_base_root environ pw_dir resolve = Raise e ->
  (exists p, resolve p = Raise e)
  \/ (e = RuntimeError
      /\ exists v,
           environ !! "FURU_PATH" = Some v /\ v <> ""%string
           /\ expanduser environ pw_dir (PathLib.of_str v) = Raise RuntimeError).
Proof.
  unfold _get_base_root, getenv.
  destruct (environ !! "FURU_PATH") as [v|]; [|eauto].
  destruct (truthy v) eqn:Hv; [|eauto].
  destruct (expanduser environ pw_dir (PathLib.of_str v)) as [p|e'] eqn:E;
    cbn [mbind result_bind]; [eauto|].
  intros [= ->]. right. pose proof (expanduser_raises _ _ _ E) as ->.
  split; [reflexivity|]. exists v. repeat split; [|exact E].
  intros ->. discriminate Hv.
Qed.

(** X14.  [__init__] succeeds exactly when the base root can be
    determined, the four durations, the heartbeat (when it is set) and
    the number of requeues can be read as numbers, and the cache setting
    is accepted; whatever the five switches and [FURU_FORCE_RECOMPUTE]
    hold, they cannot make it fail.  When it fails it raises a
    [ValueError] or what the base root raised: what [resolve()] raised, or
    the [RuntimeError] of [expanduser()] on a [FURU_PATH] whose home
    directory cannot be determined. *)
Theorem init_succeeds_iff (environ : gmap string string) :
  ((exists c, init environ int_max_str_digits pw_dir resolve = Ok c) <->
   (exists base, _get_base_root environ pw_dir resolve = Ok base)
   /\ is_Some (float_of_str (getenv_or environ "FURU_POLL_INTERVAL_SECS" "10"))
   /\ is_Some (float_of_str (getenv_or environ "FURU_WAIT_LOG_EVERY_SECS" "10"))
   /\ is_Some (float_of_str (getenv_or environ "FURU_STALE_AFTER_SECS" "1800"))
   /\ is_Some (float_of_str (getenv_or environ "FURU_LEASE_SECS" "120"))
   /\ (forall hb, environ !! "FURU_HEARTBEAT_SECS" = Some hb ->
                  is_Some (float_of_str hb))
   /\ is_Some (int_of_str int_max_str_digits
                 (getenv_or environ "FURU_PREEMPT_MAX" "5"))
   /\ exists ttl,
        _parse_cache_duration (getenv_or environ "FURU_CACHE_METADATA" "5m")
        = Ok ttl)
  /\ (forall e,
         init environ int_max_str_digits pw_dir resolve = Raise e ->
         e = ValueError \/ _get_base_root environ pw_dir resolve = Raise e)
  /\ (forall e,
         _get_base_root environ pw_dir resolve = Raise e ->
         (exists p, resolve p = Raise e)
         \/ (e = RuntimeError
             /\ exists v,
                  environ !! "FURU_PATH" = Some v /\ v <> ""%string
                  /\ expanduser environ pw_dir (PathLib.of_str v)
                     = Raise RuntimeError)).
Proof.
  split; [|split; [|apply get_base_root_raises]]; revert environ.
  - intros environ. unfold init, float_env, getenv.
    change (PyStr.of_int (30 * 60)) with "1800"%string.
    destruct (_get_base_root environ pw_dir resolve) as [base|e0];
      cbn [mbind result_bind].
    2:{ split; [intros (c & H); discriminate
               |intros ((x & Hx) & _); discriminate]. }
    destruct (float_of_str (getenv_or environ "FURU_POLL_INTERVAL_SECS" "10"))
      as [poll|]; cbn [or_raise mbind result_bind].
    2:{ split; [intros (c & H); discriminate
               |intros (_ & [x Hx] & _); discriminate]. }
    destruct (float_of_str (getenv_or environ "FURU_WAIT_LOG_EVERY_SECS" "10"))
      as [wait|]; cbn [or_raise mbind result_bind].
    2:{ split; [intros (c & H); discriminate
               |intros (_ & _ & [x Hx] & _); discriminate]. }
    destruct (float_of_str (getenv_or environ "FURU_STALE_AFTER_SECS" "1800"))
      as [stale|]; cbn [or_raise mbind result_bind].
    2:{ split; [intros (c & H); discriminate
               |intros (_ & _ & _ & [x Hx] & _); discriminate]. }
    destruct (float_of_str (getenv_or environ "FURU_LEASE_SECS" "120"))
      as [lease|]; cbn [or_raise mbind result_bind].
    2:{ split; [intros (c & H); discriminate
               |intros (_ & _ & _ & _ & [x Hx] & _); discriminate]. }
    destruct (environ !! "FURU_HEARTBEAT_SECS") as [s|] eqn:Hs.
    + destruct (float_of_str s) as [hb|] eqn:Hhb;
        cbn [or_raise mbind result_bind].
      2:{ split; [intros (c & H); discriminate|].
          intros (_ & _ & _ & _ & _ & H & _).
          destruct (H s eq_refl) as [x Hx]. congruence. }
      destruct (int_of_str int_max_str_digits
                  (getenv_or environ "FURU_PREEMPT_MAX" "5"))
        as [requeues|]; cbn [or_raise mbind result_bind].
      2:{ split; [intros (c & H); discriminate
                 |intros (_ & _ & _ & _ & _ & _ & [x Hx] & _); discriminate]. }
      destruct (_parse_cache_duration
                  (getenv_or environ "FURU_CACHE_METADATA" "5m"))
        as [ttl|e'] eqn:Hp; cbn [mbind result_bind].
      2:{ split; [intros (c & H); discriminate
                 |intros (_ & _ & _ & _ & _ & _ & _ & ttl & H); discriminate]. }
      split; [|eauto]. intros _. repeat split; eauto.
      intros hb' [= <-]. now rewrite Hhb.
    + cbn [mbind result_bind].
      destruct (int_of_str int_max_str_digits
                  (getenv_or environ "FURU_PREEMPT_MAX" "5"))
        as [requeues|]; cbn [or_raise mbind result_bind].
      2:{ split; [intros (c & H); discriminate
                 |intros (_ & _ & _ & _ & _ & _ & [x Hx] & _); discriminate]. }
      destruct (_parse_cache_duration
                  (getenv_or environ "FURU_CACHE_METADATA" "5m"))
        as [ttl|e'] eqn:Hp; cbn [mbind result_bind].
      2:{ split; [intros (c & H); discriminate
                 |intros (_ & _ & _ & _ & _ & _ & _ & ttl & H); discriminate]. }
      split; [|eauto]. intros _. repeat split; eauto. discriminate.
  - intros environ e. unfold init, float_env.
    destruct (_get_base_root environ pw_dir resolve) as [base|e0];
      cbn [mbind result_bind]; [|intros [= <-]; now right].
    intros H. left.
    repeat match type of H with
           | or_raise ValueError ?o ≫= _ = _ =>
               destruct o; cbn [or_raise mbind result_bind] in H;
               [|now injection H as <-]
           end.
    destruct (getenv environ "FURU_HEARTBEAT_SECS") as [s|].
    + destruct (float_of_str s); cbn [or_raise mbind result_bind] in H;
        [|now injection H as <-].
      destruct (int_of_str _ _); cbn [or_raise mbind result_bind] in H;
        [|now injection H as <-].
      destruct (_parse_cache_duration _) as [ttl|e'] eqn:Hp;
        cbn [mbind result_bind] in H; [discriminate|].
      injection H as <-. now apply parse_raises_value_error in Hp.
    + cbn [mbind result_bind] in H.
      destruct (int_of_str _ _); cbn [or_raise mbind result_bind] in H;
        [|now injection H as <-].
      destruct (_parse_cache_duration _) as [ttl|e'] eqn:Hp;
        cbn [mbind result_bind] in H; [discriminate|].
      injection H as <-. now apply parse_raises_value_error in Hp.
Qed.

(** The settings that [__init__] cannot fail on. *)
Lemma init_ok_fields (environ : gmap string string) (c : FuruConfig) :
  init environ int_max_str_digits pw_dir resolve = Ok c ->
  _get_base_root environ pw_dir resolve = Ok (base_root c)
  /\ force_recompute c
     = list_to_set
         (List.filter truthy
            (map strip
               (split "," (getenv_or environ "FURU_FORCE_RECOMPUTE" "")))).
Proof.
  unfold init. intros H.
  destruct (_get_base_root environ pw_dir resolve); [|discriminate].
  cbn [mbind result_bind] in H.
  destruct (float_env environ "FURU_POLL_INTERVAL_SECS" "10"); [|discriminate].
  destruct (float_env environ "FURU_WAIT_LOG_EVERY_SECS" "10"); [|discriminate].
  destruct (float_env environ "FURU_STALE_AFTER_SECS" _); [|discriminate].
  destruct (float_env environ "FURU_LEASE_SECS" "120"); [|discriminate].
  simpl in H.
  destruct (match getenv environ "FURU_HEARTBEAT_SECS" with
            | Some s => _ | None => _ end); [|discriminate].
  simpl in H.
  destruct (or_raise ValueError (int_of_str _ _)); [|discriminate].
  simpl in H.
  destruct (_parse_cache_duration _); [|discriminate].
  simpl in H. injection H as <-. split; reflexivity.
Qed.

(** X15.  An empty [FURU_PATH] is the same as none: the configuration
    is built (or refused) exactly as without the variable, and its base
    root is the resolved [data-furu]. *)
Theorem empty_path_is_unset (environ : gmap string string) :
  init (<["FURU_PATH" := ""%string]> environ) int_max_str_digits pw_dir resolve
  = init (delete "FURU_PATH"%string environ) int_max_str_digits pw_dir resolve
  /\ (forall c,
         init (<["FURU_PATH" := ""%string]> environ) int_max_str_digits pw_dir
           resolve = Ok c ->
         resolve (PathLib.of_str "data-furu") = Ok (base_root c)).
Proof.
  split.
  - unfold init, _get_base_root, float_env, flag, getenv_or, getenv.
    rewrite lookup_insert_eq, lookup_delete_eq.
    rewrite !lookup_insert_ne, !lookup_delete_ne by discriminate.
    reflexivity.
  - intros c H. apply init_ok_fields in H as [H _].
    unfold _get_base_root, getenv in H. now rewrite lookup_insert_eq in H.
Qed.

Lemma ltb_leb_float (x y : float) :
  PrimFloat.ltb x y = true -> PrimFloat.leb x y = true.
Proof.
  rewrite ltb_spec, leb_spec. unfold SFltb, SFleb.
  now destruct (SFcompare _ _) as [[]|].
Qed.

(** X17.  The floor of one second applies to the default heartbeat
    only: when [FURU_HEARTBEAT_SECS] is unset the heartbeat interval is
    at least one second, whatever the lease (zero, negative or not a
    number); when it is set, the interval is the number it holds,
    whatever the lease. *)
Theorem heartbeat_floor_only_by_default
    (environ : gmap string string) (c : FuruConfig) :
  init environ int_max_str_digits pw_dir resolve = Ok c ->
  match environ !! "FURU_HEARTBEAT_SECS" with
  | Some hb => float_of_str hb = Some (heartbeat_interval_sec c)
  | None => PrimFloat.leb 1 (heartbeat_interval_sec c) = true
  end.
Proof.
  intros H.
  destruct (init_ok_inv int_max_str_digits pw_dir resolve _ _ H)
    as (lease & hb & _ & Hh & _ & <-).
  unfold getenv in Hh. destruct (environ !! "FURU_HEARTBEAT_SECS") as [s|].
  - now apply or_raise_ok in Hh.
  - injection Hh as <-. unfold PyNum.max.
    destruct (PrimFloat.ltb 1 (lease / 3)) eqn:E; [now apply ltb_leb_float|].
    reflexivity.
Qed.

Lemma in_filter_truthy x l :
  In x (List.filter truthy l) <-> x <> ""%string /\ In x l.
Proof.
  rewrite filter_In. unfold truthy. rewrite negb_true_iff, String.eqb_neq. tauto.
Qed.

(** X16.  The set [force_recompute]: its members are the items of
    [FURU_FORCE_RECOMPUTE] between the commas, stripped, the empty ones
    left out; so no member is empty, has white space at either end or
    holds a comma.  A list of such names joined by commas is read back
    as the set of these names. *)
Theorem force_recompute_members
    (environ : gmap string string) (c : FuruConfig) :
  init environ int_max_str_digits pw_dir resolve = Ok c ->
  (forall x,
      x ∈ force_recompute c <->
      x <> ""%string
      /\ exists item,
           In item (split "," (getenv_or environ "FURU_FORCE_RECOMPUTE" ""))
           /\ x = strip item)
  /\ (forall x,
         x ∈ force_recompute c ->
         x <> ""%string /\ strip x = x
         /\ all_of (fun a => negb (Ascii.eqb a ",")) x = true)
  /\ (forall l,
         Forall (fun x => x <> ""%string /\ strip x = x
                          /\ all_of (fun a => negb (Ascii.eqb a ",")) x = true) l ->
         environ !! "FURU_FORCE_RECOMPUTE" = Some (join "," l) ->
         force_recompute c = list_to_set l).
Proof.
  intros H. apply init_ok_fields in H as [_ ->].
  assert (Hmem : forall x,
             x ∈ (list_to_set
                    (List.filter truthy
                       (map strip
                          (split ","
                             (getenv_or environ "FURU_FORCE_RECOMPUTE" ""))))
                  : gset string) <->
             x <> ""%string
             /\ exists item,
                  In item (split "," (getenv_or environ "FURU_FORCE_RECOMPUTE" ""))
                  /\ x = strip item).
  { intros x. rewrite elem_of_list_to_set, list_elem_of_In, in_filter_truthy.
    rewrite in_map_iff. split; intros (Hx & item & H1 & H2); (split; [exact Hx|]);
      exists item; auto. }
  split; [exact Hmem|]. split.
  - intros x Hx. apply Hmem in Hx as (Hx & item & Hin & ->).
    split; [exact Hx|]. split; [apply strip_strip|].
    unfold strip, strip_with. apply all_of_rstrip, all_of_lstrip.
    pose proof (split_pieces "," (getenv_or environ "FURU_FORCE_RECOMPUTE" ""))
      as Hp.
    rewrite List.Forall_forall in Hp. now apply Hp.
  - intros l Hl Henv. unfold getenv_or. rewrite Henv.
    cbn [default from_option id]. unfold id.
    destruct l as [|x l]; [reflexivity|].
    rewrite split_join; [|discriminate|].
    2:{ revert Hl. apply List.Forall_impl. tauto. }
    f_equal. rewrite filter_all.
    + clear -Hl. induction Hl as [|y l' (_ & Hy & _) Hl' IH]; [reflexivity|].
      simpl. now rewrite Hy, IH.
    + apply List.Forall_forall. intros y Hy. apply in_map_iff in Hy as (z & <- & Hz).
      rewrite List.Forall_forall in Hl. destruct (Hl z Hz) as (Hne & -> & _).
      unfold truthy. now rewrite negb_true_iff, String.eqb_neq.
Qed.

(** X18.  The cache setting is read without regard to case and to
    white space around it. *)
Theorem parse_ignores_case_and_padding (v w ws1 ws2 : string) :
  all_of isspace ws1 = true -> all_of isspace ws2 = true ->
  lower w = lower v ->
  _parse_cache_duration (ws1 +:+ w +:+ ws2) = _parse_cache_duration v.
Proof.
  intros H1 H2 Hw.
  assert (E : lower (strip (ws1 +:+ w +:+ ws2)) = lower (strip v)).
  { rewrite strip_padding by assumption.
    now rewrite <- !strip_lower, Hw. }
  unfold _parse_cache_duration. now rewrite E.
Qed.

(** X19.  The parser returns [None] for the four words [never], [0],
    [false] and [no] (in any case, with any white space around) and for
    nothing else: a duration of zero such as ["0s"] or ["00"] is a
    time-to-live of zero seconds. *)
Theorem parse_none_only_for_never_words (v : string) :
  (_parse_cache_duration v = Ok None
   <-> In (lower (strip v)) ["never"; "0"; "false"; "no"]%string)
  /\ _parse_cache_duration "0s" = Ok (Some 0)
  /\ _parse_cache_duration "00" = Ok (Some 0).
Proof.
  split; [|split; vm_compute; reflexivity].
  assert (Hin : in_set (lower (strip v)) never_words = true
                <-> In (lower (strip v)) ["never"; "0"; "false"; "no"]%string).
  { split; [|apply in_set_In].
    intros H. apply existsb_exists in H as (y & Hy & E).
    apply String.eqb_eq in E. now subst y. }
  rewrite <- Hin.
  destruct (parse_cases v)
    as [(E & Hp)|[(E & _ & Hp)|[(E & _ & Hp)|(E & _ & _ & Hp)]]];
    cbn zeta in E; rewrite E.
  - tauto.
  - rewrite Hp. split; discriminate.
  - destruct Hp as (ip & frac & ws & u & _ & _ & _ & _ & ->).
    split; discriminate.
  - rewrite Hp. split; discriminate.
Qed.

(** X23.  [__init__] reads its thirteen variables and, through
    [expanduser()], [HOME]; it reads no other: setting or removing any
    other variable changes nothing. *)
Theorem init_reads_only_its_variables
    (environ : gmap string string) (k v : string) :
  ~ In k Spec2.variables ->
  k <> "HOME"%string ->
  init (<[k := v]> environ) int_max_str_digits pw_dir resolve
  = init environ int_max_str_digits pw_dir resolve
  /\ init (delete k environ) int_max_str_digits pw_dir resolve
     = init environ int_max_str_digits pw_dir resolve.
Proof.
  intros Hk Hhome.
  assert (Hne : forall name, In name Spec2.variables -> k <> name)
    by (intros name Hin ->; contradiction).
  unfold init, _get_base_root, expanduser, os_path_expanduser, float_env,
    flag, getenv_or, getenv.
  split.
  - rewrite !lookup_insert_ne
      by first [exact Hhome | apply Hne; simpl; tauto].
    reflexivity.
  - rewrite !lookup_delete_ne
      by first [exact Hhome | apply Hne; simpl; tauto].
    reflexivity.
Qed.

Lemma rstrip_snoc p s c :
  p c = false -> rstrip_with p (s +:+ String c "") = s +:+ String c "".
Proof.
  intros Hc. induction s as [|d s IH].
  - rewrite app_nil_l. simpl. now rewrite Hc.
  - rewrite app_cons. simpl. rewrite IH.
    destruct s; [rewrite app_nil_l|rewrite app_cons]; reflexivity.
Qed.

Lemma lower_id s :
  all_of (fun c => Ascii.eqb (lower_char c) c) s = true -> lower s = s.
Proof.
  induction s as [|c s IH]; [reflexivity|]. simpl. intros H.
  apply andb_true_iff in H as [Hc Hs]. apply Ascii.eqb_eq in Hc.
  now rewrite Hc, IH.
Qed.

(** X24.  White space between the number and the unit is ignored: a
    decimal number, white space and a unit [s], [m] or [h] is read as
    the number times 1, 60 or 3600 seconds, as without the white
    space. *)
Theorem space_before_unit_is_ignored
    (ip : string) (frac : option string) (ws : string) (c : ascii) :
  wf_numeral ip frac = true -> all_of isspace ws = true ->
  is_unit c = true ->
  _parse_cache_duration (numeral ip frac +:+ ws +:+ String c "")
  = Ok (Some (number ip frac * seconds_per (Some c)))
  /\ _parse_cache_duration (numeral ip frac +:+ ws +:+ String c "")
     = _parse_cache_duration (numeral ip frac +:+ String c "").
Proof.
  intros Hn Hws Hc.
  assert (Hshape : forall ws',
             all_of isspace ws' = true ->
             _parse_cache_duration (numeral ip frac +:+ ws' +:+ String c "")
             = Ok (Some (number ip frac * seconds_per (Some c)))).
  { intros ws' Hws'.
    destruct (numeral_starts _ _ Hn) as (c0 & rest0 & Hs & Hc0).
    assert (E : lower (strip (numeral ip frac +:+ ws' +:+ String c ""))
                = numeral ip frac +:+ ws' +:+ String c "").
    { unfold strip, strip_with. rewrite lstrip_id.
      2:{ rewrite Hs, app_cons. simpl. revert Hc0. clear.
          destruct c0 as [[] [] [] [] [] [] [] []]; try discriminate;
            reflexivity. }
      rewrite <- app_assoc, rstrip_snoc.
      2:{ now apply unit_not_space. }
      apply lower_id. rewrite !all_of_app. cbn [all_of].
      rewrite andb_true_r. repeat (apply andb_true_iff; split).
      - generalize (numeral_chars _ _ Hn). apply all_of_impl. clear.
        intros a. unfold numeral_char.
        destruct a as [[] [] [] [] [] [] [] []]; try discriminate; reflexivity.
      - revert Hws'. apply all_of_impl. clear. intros a.
        destruct a as [[] [] [] [] [] [] [] []]; try discriminate; reflexivity.
      - destruct (unit_cases _ Hc) as [->|[->| ->]]; reflexivity. }
    apply (parse_duration _ ip frac ws' (Some c)); try assumption.
    - rewrite E, Hs, !app_cons. intros [= _ H].
      destruct rest0; [destruct ws'|]; discriminate H.
    - rewrite E, Hs, !app_cons. intros [= _ H].
      destruct rest0; [destruct ws'|]; discriminate H. }
  split; [now apply Hshape|].
  rewrite (Hshape ws Hws). symmetry.
  rewrite <- (app_nil_l (String c "")). now apply (Hshape "").
Qed.

End ConfigMore.

Section RootsMore.

Import Config Spec.
Local Open Scope list_scope.

Lemma not_under_both (base : Path) (a b : string) (d : Path) :
  PathLib.of_str a = mkPath "" [a] -> PathLib.of_str b = mkPath "" [b] ->
  a <> b -> ~ (under (base </> a) d /\ under (base </> b) d).
Proof.
  intros Ha Hb Hne [[_ (r1 & H1)] [_ (r2 & H2)]].
  rewrite (div_name _ _ Ha) in H1. rewrite (div_name _ _ Hb) in H2.
  cbn [names] in H1, H2. rewrite H1, <- !List.app_assoc in H2.
  apply app_inv_head in H2. injection H2 as H2 _. contradiction.
Qed.

(** X20.  The subtrees [data], [git] and [raw] of the base root are
    disjoint: no path lies at or below two of them.  So no directory is
    an experiment directory of both storage roots, and nothing under
    [raw_dir] is ever scanned. *)
Theorem storage_subtrees_are_disjoint (c : FuruConfig) (d : Path) :
  ~ (under (get_furu_root c false) d /\ under (get_furu_root c true) d)
  /\ ~ (under (get_furu_root c false) d /\ under (raw_dir c) d)
  /\ ~ (under (get_furu_root c true) d /\ under (raw_dir c) d)
  /\ under (base_root c) (raw_dir c)
  /\ PathLib.parent (raw_dir c) = base_root c.
Proof.
  unfold get_furu_root, get_root, raw_dir.
  repeat split; try (apply not_under_both; [reflexivity|reflexivity|discriminate]).
  - rewrite div_name by reflexivity. now exists ["raw"%string].
  - now apply parent_div_name.
Qed.

End RootsMore.

(** Three names, with blanks and an empty item between the commas. *)
Lemma force_recompute_members_witness :
  let environ : gmap string string :=
    {[ "FURU_FORCE_RECOMPUTE" := " proj.Train, proj.Prep ,,eval" ]} in
  match Config.init environ 4300 (fun _ => None) Ok with
  | Ok c =>
      (forall x,
          x ∈ force_recompute c <->
          x <> ""
          /\ exists item,
               In item
                 (PyStr.split ","
                    (Config.getenv_or environ "FURU_FORCE_RECOMPUTE" ""))
               /\ x = PyStr.strip item)
      /\ (forall x,
             x ∈ force_recompute c ->
             x <> "" /\ PyStr.strip x = x
             /\ PyStr.all_of (fun a => negb (Ascii.eqb a ",")) x = true)
      /\ (forall l,
             Forall (fun x => x <> "" /\ PyStr.strip x = x
                              /\ PyStr.all_of
                                   (fun a => negb (Ascii.eqb a ",")) x = true) l ->
             environ !! "FURU_FORCE_RECOMPUTE" = Some (PyStr.join "," l) ->
             force_recompute c = list_to_set l)
  | Raise _ => False
  end.
Proof.
  intros environ.
  destruct (Config.init environ 4300 (fun _ => None) Ok) as [c|e] eqn:E.
  - apply (force_recompute_members 4300 (fun _ => None) Ok environ c E).
  - vm_compute in E. discriminate E.
Defined.

(** A heartbeat of a quarter of a second, set by hand. *)
Lemma heartbeat_floor_only_by_default_witness :
  let environ : gmap string string :=
    {[ "FURU_HEARTBEAT_SECS" := "0.25" ]} in
  match Config.init environ 4300 (fun _ => None) Ok with
  | Ok c =>
      match environ !! "FURU_HEARTBEAT_SECS" with
      | Some hb => PyNum.float_of_str hb = Some (heartbeat_interval_sec c)
      | None => PrimFloat.leb 1 (heartbeat_interval_sec c) = true
      end
  | Raise _ => False
  end.
Proof.
  intros environ.
  destruct (Config.init environ 4300 (fun _ => None) Ok) as [c|e] eqn:E.
  - apply (heartbeat_floor_only_by_default 4300 (fun _ => None) Ok environ c E).
  - vm_compute in E. discriminate E.
Defined.

(** Five minutes, in capitals and with blanks around. *)
Lemma parse_ignores_case_and_padding_witness :
  Config._parse_cache_duration (" " +:+ "5M" +:+ "  ")
  = Config._parse_cache_duration "5m".
Proof.
  apply (parse_ignores_case_and_padding "5m" "5M" " " "  "); reflexivity.
Defined.

(** A variable of somebody else. *)
Lemma init_reads_only_its_variables_witness :
  let environ : gmap string string :=
    {[ "FURU_PATH" := "~/furu"; "HOME" := "/home/ada" ]} in
  Config.init (<["LANG" := "C"]> environ) 4300 (fun _ => None) Ok
  = Config.init environ 4300 (fun _ => None) Ok
  /\ Config.init (delete "LANG" environ) 4300 (fun _ => None) Ok
     = Config.init environ 4300 (fun _ => None) Ok.
Proof.
  intros environ.
  apply (init_reads_only_its_variables 4300 (fun _ => None) Ok environ
           "LANG" "C");
    [|discriminate].
  intros H. simpl in H.
  repeat (destruct H as [H|H]; [discriminate H|]). exact H.
Defined.

(** Ninety minutes, with a blank before the unit. *)
Lemma space_before_unit_is_ignored_witness :
  Config._parse_cache_duration (Spec.numeral "90" None +:+ " " +:+ "m")
  = Ok (Some (Spec.number "90" None * Spec.seconds_per (Some "m"%char))%float)
  /\ Config._parse_cache_duration (Spec.numeral "90" None +:+ " " +:+ "m")
     = Config._parse_cache_duration (Spec.numeral "90" None +:+ "m").
Proof.
  apply (space_before_unit_is_ignored "90" None " " "m"%char); reflexivity.
Defined.
